(** * OtakuOracle: the recommender pipeline of [recommender.py]

    A shallow embedding of [recommender.py] and the properties its
    specification states about it.

    Conventions of the embedding.
    - Python [str] is [string], holding the UTF-8 text of the string; the
      text operations ([lower], [strip], [isdigit], [int]) work on the
      characters of that text with the tables of the Unicode database
      (version 14.0, Python 3.11).
    - A catalog record is the record [anime]: [title] and [url] are
      strings, [episodes] is an optional integer and [score] an optional
      number.  A number is a finite float or an integer; it is embedded as
      the rational it denotes, on which Python's [<], [<=] and truth value
      agree with [Qlt], [Qle] and "differs from zero".  The one float the
      program computes, [averageScore / 10], is rounded as IEEE 754
      binary64 rounds it.
    - A [dict] with string keys is a [gmap string _], a [set] of strings
      a [gset string].
    - Effects are explicit: the file system, the random generator and the
      log of the HTTP requests sent form the [world] threaded through a
      state-and-exception monad [M].  The remote catalogs, the spaCy
      pipeline, the JSON codec and the iteration order of a Python set are
      parameters of the development.  [time.sleep] changes nothing that
      the program reads and is left out. *)

From Stdlib Require Import Ascii String QArith Qabs.
From stdpp Require Import gmap strings list sorting pretty.

#[local] Set Warnings "-clear-no-such-hyp".
Local Open Scope string_scope.
Local Open Scope list_scope.
Local Open Scope Z_scope.

(** ** Python string operations

    A [str] is held as its UTF-8 text.  A character is the chunk of bytes
    of one code point; the classes of characters are those of the Unicode
    database of the interpreter (Python 3.11, Unicode 14.0). *)

Module PyStr.

(** A continuation byte of UTF-8: [10xxxxxx]. *)
Definition is_cont (b : ascii) : bool :=
  let n := nat_of_ascii b in ((128 <=? n)%nat && (n <=? 191)%nat)%bool.

Definition starts_cont (ch : string) : bool :=
  match ch with
  | EmptyString => false
  | String b _ => is_cont b
  end.

(** The characters of a string: each byte that is not a continuation byte
    starts a new one. *)
Fixpoint chars (s : string) : list string :=
  match s with
  | EmptyString => []
  | String b s' =>
      match chars s' with
      | ch :: chs =>
          if starts_cont ch then String b ch :: chs
          else String b EmptyString :: ch :: chs
      | [] => [String b EmptyString]
      end
  end.

(** [''.join(chs)] *)
Fixpoint unchars (chs : list string) : string :=
  match chs with
  | [] => EmptyString
  | ch :: chs' => ch +:+ unchars chs'
  end.

Definition byte (n : Z) : ascii := ascii_of_nat (Z.to_nat n).

(** The UTF-8 text of the code point [c]; surrogates have none. *)
Definition encode (c : Z) : string :=
  if (c <? 0) || ((55296 <=? c) && (c <=? 57343)) || (1114111 <? c) then EmptyString
  else if c <? 128 then String (byte c) EmptyString
  else if c <? 2048 then
    String (byte (192 + c / 64)) (String (byte (128 + c mod 64)) EmptyString)
  else if c <? 65536 then
    String (byte (224 + c / 4096))
      (String (byte (128 + (c / 64) mod 64)) (String (byte (128 + c mod 64)) EmptyString))
  else
    String (byte (240 + c / 262144))
      (String (byte (128 + (c / 4096) mod 64))
         (String (byte (128 + (c / 64) mod 64)) (String (byte (128 + c mod 64)) EmptyString))).

Definition byte_val (b : ascii) : Z := Z.of_nat (nat_of_ascii b).

Definition raw_code_point (ch : string) : Z :=
  match ch with
  | String b0 EmptyString => byte_val b0
  | String b0 (String b1 EmptyString) => (byte_val b0 - 192) * 64 + (byte_val b1 - 128)
  | String b0 (String b1 (String b2 EmptyString)) =>
      (byte_val b0 - 224) * 4096 + (byte_val b1 - 128) * 64 + (byte_val b2 - 128)
  | String b0 (String b1 (String b2 (String b3 EmptyString))) =>
      (byte_val b0 - 240) * 262144 + (byte_val b1 - 128) * 4096
      + (byte_val b2 - 128) * 64 + (byte_val b3 - 128)
  | _ => -1
  end.

(** [ord(ch)] of a character; [-1] for bytes that are no UTF-8 text of a
    code point. *)
Definition code_point (ch : string) : Z :=
  let c := raw_code_point ch in
  if decide (ch ≠ EmptyString ∧ encode c = ch) then c else -1.

Definition in_ranges (table : list (Z * Z)) (c : Z) : bool :=
  existsb (fun r => (r.1 <=? c) && (c <=? r.2)) table.

(** Code points [c] with [chr(c).isspace()], as ranges. *)
Definition space_table : list (Z * Z) :=
  [ (9, 13); (28, 32); (133, 133); (160, 160); (5760, 5760); (8192, 8202);
    (8232, 8233); (8239, 8239); (8287, 8287); (12288, 12288) ].

(** Code points [c] with [chr(c).isdigit()] (Numeric_Type Digit or Decimal). *)
Definition digit_table : list (Z * Z) :=
  [ (48, 57); (178, 179); (185, 185); (1632, 1641); (1776, 1785); (1984, 1993);
    (2406, 2415); (2534, 2543); (2662, 2671); (2790, 2799); (2918, 2927); (3046, 3055);
    (3174, 3183); (3302, 3311); (3430, 3439); (3558, 3567); (3664, 3673); (3792, 3801);
    (3872, 3881); (4160, 4169); (4240, 4249); (4969, 4977); (6112, 6121); (6160, 6169);
    (6470, 6479); (6608, 6618); (6784, 6793); (6800, 6809); (6992, 7001); (7088, 7097);
    (7232, 7241); (7248, 7257); (8304, 8304); (8308, 8313); (8320, 8329); (9312, 9320);
    (9332, 9340); (9352, 9360); (9450, 9450); (9461, 9469); (9471, 9471); (10102, 10110);
    (10112, 10120); (10122, 10130); (42528, 42537); (43216, 43225); (43264, 43273); (43472, 43481);
    (43504, 43513); (43600, 43609); (44016, 44025); (65296, 65305); (66720, 66729); (68160, 68163);
    (68912, 68921); (69216, 69224); (69714, 69722); (69734, 69743); (69872, 69881); (69942, 69951);
    (70096, 70105); (70384, 70393); (70736, 70745); (70864, 70873); (71248, 71257); (71360, 71369);
    (71472, 71481); (71904, 71913); (72016, 72025); (72784, 72793); (73040, 73049); (73120, 73129);
    (92768, 92777); (92864, 92873); (93008, 93017); (120782, 120831); (123200, 123209); (123632, 123641);
    (125264, 125273); (127232, 127242); (130032, 130041) ].

(** Code points [c] with [chr(c).isdecimal()]: runs of the ten digits 0 to 9, each
    run starting at a zero. *)
Definition decimal_table : list (Z * Z) :=
  [ (48, 57); (1632, 1641); (1776, 1785); (1984, 1993); (2406, 2415); (2534, 2543);
    (2662, 2671); (2790, 2799); (2918, 2927); (3046, 3055); (3174, 3183); (3302, 3311);
    (3430, 3439); (3558, 3567); (3664, 3673); (3792, 3801); (3872, 3881); (4160, 4169);
    (4240, 4249); (6112, 6121); (6160, 6169); (6470, 6479); (6608, 6617); (6784, 6793);
    (6800, 6809); (6992, 7001); (7088, 7097); (7232, 7241); (7248, 7257); (42528, 42537);
    (43216, 43225); (43264, 43273); (43472, 43481); (43504, 43513); (43600, 43609); (44016, 44025);
    (65296, 65305); (66720, 66729); (68912, 68921); (69734, 69743); (69872, 69881); (69942, 69951);
    (70096, 70105); (70384, 70393); (70736, 70745); (70864, 70873); (71248, 71257); (71360, 71369);
    (71472, 71481); (71904, 71913); (72016, 72025); (72784, 72793); (73040, 73049); (73120, 73129);
    (92768, 92777); (92864, 92873); (93008, 93017); (120782, 120831); (123200, 123209); (123632, 123641);
    (125264, 125273); (130032, 130041) ].

(** [chr(c).lower()] for every code point [c] it changes (U+03A3 apart, see
    [lower_go]). *)
Definition lower_table : list (Z * list Z) :=
  [ (65, [97]); (66, [98]); (67, [99]); (68, [100]); (69, [101]); (70, [102]);
    (71, [103]); (72, [104]); (73, [105]); (74, [106]); (75, [107]); (76, [108]);
    (77, [109]); (78, [110]); (79, [111]); (80, [112]); (81, [113]); (82, [114]);
    (83, [115]); (84, [116]); (85, [117]); (86, [118]); (87, [119]); (88, [120]);
    (89, [121]); (90, [122]); (192, [224]); (193, [225]); (194, [226]); (195, [227]);
    (196, [228]); (197, [229]); (198, [230]); (199, [231]); (200, [232]); (201, [233]);
    (202, [234]); (203, [235]); (204, [236]); (205, [237]); (206, [238]); (207, [239]);
    (208, [240]); (209, [241]); (210, [242]); (211, [243]); (212, [244]); (213, [245]);
    (214, [246]); (216, [248]); (217, [249]); (218, [250]); (219, [251]); (220, [252]);
    (221, [253]); (222, [254]); (256, [257]); (258, [259]); (260, [261]); (262, [263]);
    (264, [265]); (266, [267]); (268, [269]); (270, [271]); (272, [273]); (274, [275]);
    (276, [277]); (278, [279]); (280, [281]); (282, [283]); (284, [285]); (286, [287]);
    (288, [289]); (290, [291]); (292, [293]); (294, [295]); (296, [297]); (298, [299]);
    (300, [301]); (302, [303]); (304, [105; 775]); (306, [307]); (308, [309]); (310, [311]);
    (313, [314]); (315, [316]); (317, [318]); (319, [320]); (321, [322]); (323, [324]);
    (325, [326]); (327, [328]); (330, [331]); (332, [333]); (334, [335]); (336, [337]);
    (338, [339]); (340, [341]); (342, [343]); (344, [345]); (346, [347]); (348, [349]);
    (350, [351]); (352, [353]); (354, [355]); (356, [357]); (358, [359]); (360, [361]);
    (362, [363]); (364, [365]); (366, [367]); (368, [369]); (370, [371]); (372, [373]);
    (374, [375]); (376, [255]); (377, [378]); (379, [380]); (381, [382]); (385, [595]);
    (386, [387]); (388, [389]); (390, [596]); (391, [392]); (393, [598]); (394, [599]);
    (395, [396]); (398, [477]); (399, [601]); (400, [603]); (401, [402]); (403, [608]);
    (404, [611]); (406, [617]); (407, [616]); (408, [409]); (412, [623]); (413, [626]);
    (415, [629]); (416, [417]); (418, [419]); (420, [421]); (422, [640]); (423, [424]);
    (425, [643]); (428, [429]); (430, [648]); (431, [432]); (433, [650]); (434, [651]);
    (435, [436]); (437, [438]); (439, [658]); (440, [441]); (444, [445]); (452, [454]);
    (453, [454]); (455, [457]); (456, [457]); (458, [460]); (459, [460]); (461, [462]);
    (463, [464]); (465, [466]); (467, [468]); (469, [470]); (471, [472]); (473, [474]);
    (475, [476]); (478, [479]); (480, [481]); (482, [483]); (484, [485]); (486, [487]);
    (488, [489]); (490, [491]); (492, [493]); (494, [495]); (497, [499]); (498, [499]);
    (500, [501]); (502, [405]); (503, [447]); (504, [505]); (506, [507]); (508, [509]);
    (510, [511]); (512, [513]); (514, [515]); (516, [517]); (518, [519]); (520, [521]);
    (522, [523]); (524, [525]); (526, [527]); (528, [529]); (530, [531]); (532, [533]);
    (534, [535]); (536, [537]); (538, [539]); (540, [541]); (542, [543]); (544, [414]);
    (546, [547]); (548, [549]); (550, [551]); (552, [553]); (554, [555]); (556, [557]);
    (558, [559]); (560, [561]); (562, [563]); (570, [11365]); (571, [572]); (573, [410]);
    (574, [11366]); (577, [578]); (579, [384]); (580, [649]); (581, [652]); (582, [583]);
    (584, [585]); (586, [587]); (588, [589]); (590, [591]); (880, [881]); (882, [883]);
    (886, [887]); (895, [1011]); (902, [940]); (904, [941]); (905, [942]); (906, [943]);
    (908, [972]); (910, [973]); (911, [974]); (913, [945]); (914, [946]); (915, [947]);
    (916, [948]); (917, [949]); (918, [950]); (919, [951]); (920, [952]); (921, [953]);
    (922, [954]); (923, [955]); (924, [956]); (925, [957]); (926, [958]); (927, [959]);
    (928, [960]); (929, [961]); (932, [964]); (933, [965]); (934, [966]); (935, [967]);
    (936, [968]); (937, [969]); (938, [970]); (939, [971]); (975, [983]); (984, [985]);
    (986, [987]); (988, [989]); (990, [991]); (992, [993]); (994, [995]); (996, [997]);
    (998, [999]); (1000, [1001]); (1002, [1003]); (1004, [1005]); (1006, [1007]); (1012, [952]);
    (1015, [1016]); (1017, [1010]); (1018, [1019]); (1021, [891]); (1022, [892]); (1023, [893]);
    (1024, [1104]); (1025, [1105]); (1026, [1106]); (1027, [1107]); (1028, [1108]); (1029, [1109]);
    (1030, [1110]); (1031, [1111]); (1032, [1112]); (1033, [1113]); (1034, [1114]); (1035, [1115]);
    (1036, [1116]); (1037, [1117]); (1038, [1118]); (1039, [1119]); (1040, [1072]); (1041, [1073]);
    (1042, [1074]); (1043, [1075]); (1044, [1076]); (1045, [1077]); (1046, [1078]); (1047, [1079]);
    (1048, [1080]); (1049, [1081]); (1050, [1082]); (1051, [1083]); (1052, [1084]); (1053, [1085]);
    (1054, [1086]); (1055, [1087]); (1056, [1088]); (1057, [1089]); (1058, [1090]); (1059, [1091]);
    (1060, [1092]); (1061, [1093]); (1062, [1094]); (1063, [1095]); (1064, [1096]); (1065, [1097]);
    (1066, [1098]); (1067, [1099]); (1068, [1100]); (1069, [1101]); (1070, [1102]); (1071, [1103]);
    (1120, [1121]); (1122, [1123]); (1124, [1125]); (1126, [1127]); (1128, [1129]); (1130, [1131]);
    (1132, [1133]); (1134, [1135]); (1136, [1137]); (1138, [1139]); (1140, [1141]); (1142, [1143]);
    (1144, [1145]); (1146, [1147]); (1148, [1149]); (1150, [1151]); (1152, [1153]); (1162, [1163]);
    (1164, [1165]); (1166, [1167]); (1168, [1169]); (1170, [1171]); (1172, [1173]); (1174, [1175]);
    (1176, [1177]); (1178, [1179]); (1180, [1181]); (1182, [1183]); (1184, [1185]); (1186, [1187]);
    (1188, [1189]); (1190, [1191]); (1192, [1193]); (1194, [1195]); (1196, [1197]); (1198, [1199]);
    (1200, [1201]); (1202, [1203]); (1204, [1205]); (1206, [1207]); (1208, [1209]); (1210, [1211]);
    (1212, [1213]); (1214, [1215]); (1216, [1231]); (1217, [1218]); (1219, [1220]); (1221, [1222]);
    (1223, [1224]); (1225, [1226]); (1227, [1228]); (1229, [1230]); (1232, [1233]); (1234, [1235]);
    (1236, [1237]); (1238, [1239]); (1240, [1241]); (1242, [1243]); (1244, [1245]); (1246, [1247]);
    (1248, [1249]); (1250, [1251]); (1252, [1253]); (1254, [1255]); (1256, [1257]); (1258, [1259]);
    (1260, [1261]); (1262, [1263]); (1264, [1265]); (1266, [1267]); (1268, [1269]); (1270, [1271]);
    (1272, [1273]); (1274, [1275]); (1276, [1277]); (1278, [1279]); (1280, [1281]); (1282, [1283]);
    (1284, [1285]); (1286, [1287]); (1288, [1289]); (1290, [1291]); (1292, [1293]); (1294, [1295]);
    (1296, [1297]); (1298, [1299]); (1300, [1301]); (1302, [1303]); (1304, [1305]); (1306, [1307]);
    (1308, [1309]); (1310, [1311]); (1312, [1313]); (1314, [1315]); (1316, [1317]); (1318, [1319]);
    (1320, [1321]); (1322, [1323]); (1324, [1325]); (1326, [1327]); (1329, [1377]); (1330, [1378]);
    (1331, [1379]); (1332, [1380]); (1333, [1381]); (1334, [1382]); (1335, [1383]); (1336, [1384]);
    (1337, [1385]); (1338, [1386]); (1339, [1387]); (1340, [1388]); (1341, [1389]); (1342, [1390]);
    (1343, [1391]); (1344, [1392]); (1345, [1393]); (1346, [1394]); (1347, [1395]); (1348, [1396]);
    (1349, [1397]); (1350, [1398]); (1351, [1399]); (1352, [1400]); (1353, [1401]); (1354, [1402]);
    (1355, [1403]); (1356, [1404]); (1357, [1405]); (1358, [1406]); (1359, [1407]); (1360, [1408]);
    (1361, [1409]); (1362, [1410]); (1363, [1411]); (1364, [1412]); (1365, [1413]); (1366, [1414]);
    (4256, [11520]); (4257, [11521]); (4258, [11522]); (4259, [11523]); (4260, [11524]); (4261, [11525]);
    (4262, [11526]); (4263, [11527]); (4264, [11528]); (4265, [11529]); (4266, [11530]); (4267, [11531]);
    (4268, [11532]); (4269, [11533]); (4270, [11534]); (4271, [11535]); (4272, [11536]); (4273, [11537]);
    (4274, [11538]); (4275, [11539]); (4276, [11540]); (4277, [11541]); (4278, [11542]); (4279, [11543]);
    (4280, [11544]); (4281, [11545]); (4282, [11546]); (4283, [11547]); (4284, [11548]); (4285, [11549]);
    (4286, [11550]); (4287, [11551]); (4288, [11552]); (4289, [11553]); (4290, [11554]); (4291, [11555]);
    (4292, [11556]); (4293, [11557]); (4295, [11559]); (4301, [11565]); (5024, [43888]); (5025, [43889]);
    (5026, [43890]); (5027, [43891]); (5028, [43892]); (5029, [43893]); (5030, [43894]); (5031, [43895]);
    (5032, [43896]); (5033, [43897]); (5034, [43898]); (5035, [43899]); (5036, [43900]); (5037, [43901]);
    (5038, [43902]); (5039, [43903]); (5040, [43904]); (5041, [43905]); (5042, [43906]); (5043, [43907]);
    (5044, [43908]); (5045, [43909]); (5046, [43910]); (5047, [43911]); (5048, [43912]); (5049, [43913]);
    (5050, [43914]); (5051, [43915]); (5052, [43916]); (5053, [43917]); (5054, [43918]); (5055, [43919]);
    (5056, [43920]); (5057, [43921]); (5058, [43922]); (5059, [43923]); (5060, [43924]); (5061, [43925]);
    (5062, [43926]); (5063, [43927]); (5064, [43928]); (5065, [43929]); (5066, [43930]); (5067, [43931]);
    (5068, [43932]); (5069, [43933]); (5070, [43934]); (5071, [43935]); (5072, [43936]); (5073, [43937]);
    (5074, [43938]); (5075, [43939]); (5076, [43940]); (5077, [43941]); (5078, [43942]); (5079, [43943]);
    (5080, [43944]); (5081, [43945]); (5082, [43946]); (5083, [43947]); (5084, [43948]); (5085, [43949]);
    (5086, [43950]); (5087, [43951]); (5088, [43952]); (5089, [43953]); (5090, [43954]); (5091, [43955]);
    (5092, [43956]); (5093, [43957]); (5094, [43958]); (5095, [43959]); (5096, [43960]); (5097, [43961]);
    (5098, [43962]); (5099, [43963]); (5100, [43964]); (5101, [43965]); (5102, [43966]); (5103, [43967]);
    (5104, [5112]); (5105, [5113]); (5106, [5114]); (5107, [5115]); (5108, [5116]); (5109, [5117]);
    (7312, [4304]); (7313, [4305]); (7314, [4306]); (7315, [4307]); (7316, [4308]); (7317, [4309]);
    (7318, [4310]); (7319, [4311]); (7320, [4312]); (7321, [4313]); (7322, [4314]); (7323, [4315]);
    (7324, [4316]); (7325, [4317]); (7326, [4318]); (7327, [4319]); (7328, [4320]); (7329, [4321]);
    (7330, [4322]); (7331, [4323]); (7332, [4324]); (7333, [4325]); (7334, [4326]); (7335, [4327]);
    (7336, [4328]); (7337, [4329]); (7338, [4330]); (7339, [4331]); (7340, [4332]); (7341, [4333]);
    (7342, [4334]); (7343, [4335]); (7344, [4336]); (7345, [4337]); (7346, [4338]); (7347, [4339]);
    (7348, [4340]); (7349, [4341]); (7350, [4342]); (7351, [4343]); (7352, [4344]); (7353, [4345]);
    (7354, [4346]); (7357, [4349]); (7358, [4350]); (7359, [4351]); (7680, [7681]); (7682, [7683]);
    (7684, [7685]); (7686, [7687]); (7688, [7689]); (7690, [7691]); (7692, [7693]); (7694, [7695]);
    (7696, [7697]); (7698, [7699]); (7700, [7701]); (7702, [7703]); (7704, [7705]); (7706, [7707]);
    (7708, [7709]); (7710, [7711]); (7712, [7713]); (7714, [7715]); (7716, [7717]); (7718, [7719]);
    (7720, [7721]); (7722, [7723]); (7724, [7725]); (7726, [7727]); (7728, [7729]); (7730, [7731]);
    (7732, [7733]); (7734, [7735]); (7736, [7737]); (7738, [7739]); (7740, [7741]); (7742, [7743]);
    (7744, [7745]); (7746, [7747]); (7748, [7749]); (7750, [7751]); (7752, [7753]); (7754, [7755]);
    (7756, [7757]); (7758, [7759]); (7760, [7761]); (7762, [7763]); (7764, [7765]); (7766, [7767]);
    (7768, [7769]); (7770, [7771]); (7772, [7773]); (7774, [7775]); (7776, [7777]); (7778, [7779]);
    (7780, [7781]); (7782, [7783]); (7784, [7785]); (7786, [7787]); (7788, [7789]); (7790, [7791]);
    (7792, [7793]); (7794, [7795]); (7796, [7797]); (7798, [7799]); (7800, [7801]); (7802, [7803]);
    (7804, [7805]); (7806, [7807]); (7808, [7809]); (7810, [7811]); (7812, [7813]); (7814, [7815]);
    (7816, [7817]); (7818, [7819]); (7820, [7821]); (7822, [7823]); (7824, [7825]); (7826, [7827]);
    (7828, [7829]); (7838, [223]); (7840, [7841]); (7842, [7843]); (7844, [7845]); (7846, [7847]);
    (7848, [7849]); (7850, [7851]); (7852, [7853]); (7854, [7855]); (7856, [7857]); (7858, [7859]);
    (7860, [7861]); (7862, [7863]); (7864, [7865]); (7866, [7867]); (7868, [7869]); (7870, [7871]);
    (7872, [7873]); (7874, [7875]); (7876, [7877]); (7878, [7879]); (7880, [7881]); (7882, [7883]);
    (7884, [7885]); (7886, [7887]); (7888, [7889]); (7890, [7891]); (7892, [7893]); (7894, [7895]);
    (7896, [7897]); (7898, [7899]); (7900, [7901]); (7902, [7903]); (7904, [7905]); (7906, [7907]);
    (7908, [7909]); (7910, [7911]); (7912, [7913]); (7914, [7915]); (7916, [7917]); (7918, [7919]);
    (7920, [7921]); (7922, [7923]); (7924, [7925]); (7926, [7927]); (7928, [7929]); (7930, [7931]);
    (7932, [7933]); (7934, [7935]); (7944, [7936]); (7945, [7937]); (7946, [7938]); (7947, [7939]);
    (7948, [7940]); (7949, [7941]); (7950, [7942]); (7951, [7943]); (7960, [7952]); (7961, [7953]);
    (7962, [7954]); (7963, [7955]); (7964, [7956]); (7965, [7957]); (7976, [7968]); (7977, [7969]);
    (7978, [7970]); (7979, [7971]); (7980, [7972]); (7981, [7973]); (7982, [7974]); (7983, [7975]);
    (7992, [7984]); (7993, [7985]); (7994, [7986]); (7995, [7987]); (7996, [7988]); (7997, [7989]);
    (7998, [7990]); (7999, [7991]); (8008, [8000]); (8009, [8001]); (8010, [8002]); (8011, [8003]);
    (8012, [8004]); (8013, [8005]); (8025, [8017]); (8027, [8019]); (8029, [8021]); (8031, [8023]);
    (8040, [8032]); (8041, [8033]); (8042, [8034]); (8043, [8035]); (8044, [8036]); (8045, [8037]);
    (8046, [8038]); (8047, [8039]); (8072, [8064]); (8073, [8065]); (8074, [8066]); (8075, [8067]);
    (8076, [8068]); (8077, [8069]); (8078, [8070]); (8079, [8071]); (8088, [8080]); (8089, [8081]);
    (8090, [8082]); (8091, [8083]); (8092, [8084]); (8093, [8085]); (8094, [8086]); (8095, [8087]);
    (8104, [8096]); (8105, [8097]); (8106, [8098]); (8107, [8099]); (8108, [8100]); (8109, [8101]);
    (8110, [8102]); (8111, [8103]); (8120, [8112]); (8121, [8113]); (8122, [8048]); (8123, [8049]);
    (8124, [8115]); (8136, [8050]); (8137, [8051]); (8138, [8052]); (8139, [8053]); (8140, [8131]);
    (8152, [8144]); (8153, [8145]); (8154, [8054]); (8155, [8055]); (8168, [8160]); (8169, [8161]);
    (8170, [8058]); (8171, [8059]); (8172, [8165]); (8184, [8056]); (8185, [8057]); (8186, [8060]);
    (8187, [8061]); (8188, [8179]); (8486, [969]); (8490, [107]); (8491, [229]); (8498, [8526]);
    (8544, [8560]); (8545, [8561]); (8546, [8562]); (8547, [8563]); (8548, [8564]); (8549, [8565]);
    (8550, [8566]); (8551, [8567]); (8552, [8568]); (8553, [8569]); (8554, [8570]); (8555, [8571]);
    (8556, [8572]); (8557, [8573]); (8558, [8574]); (8559, [8575]); (8579, [8580]); (9398, [9424]);
    (9399, [9425]); (9400, [9426]); (9401, [9427]); (9402, [9428]); (9403, [9429]); (9404, [9430]);
    (9405, [9431]); (9406, [9432]); (9407, [9433]); (9408, [9434]); (9409, [9435]); (9410, [9436]);
    (9411, [9437]); (9412, [9438]); (9413, [9439]); (9414, [9440]); (9415, [9441]); (9416, [9442]);
    (9417, [9443]); (9418, [9444]); (9419, [9445]); (9420, [9446]); (9421, [9447]); (9422, [9448]);
    (9423, [9449]); (11264, [11312]); (11265, [11313]); (11266, [11314]); (11267, [11315]); (11268, [11316]);
    (11269, [11317]); (11270, [11318]); (11271, [11319]); (11272, [11320]); (11273, [11321]); (11274, [11322]);
    (11275, [11323]); (11276, [11324]); (11277, [11325]); (11278, [11326]); (11279, [11327]); (11280, [11328]);
    (11281, [11329]); (11282, [11330]); (11283, [11331]); (11284, [11332]); (11285, [11333]); (11286, [11334]);
    (11287, [11335]); (11288, [11336]); (11289, [11337]); (11290, [11338]); (11291, [11339]); (11292, [11340]);
    (11293, [11341]); (11294, [11342]); (11295, [11343]); (11296, [11344]); (11297, [11345]); (11298, [11346]);
    (11299, [11347]); (11300, [11348]); (11301, [11349]); (11302, [11350]); (11303, [11351]); (11304, [11352]);
    (11305, [11353]); (11306, [11354]); (11307, [11355]); (11308, [11356]); (11309, [11357]); (11310, [11358]);
    (11311, [11359]); (11360, [11361]); (11362, [619]); (11363, [7549]); (11364, [637]); (11367, [11368]);
    (11369, [11370]); (11371, [11372]); (11373, [593]); (11374, [625]); (11375, [592]); (11376, [594]);
    (11378, [11379]); (11381, [11382]); (11390, [575]); (11391, [576]); (11392, [11393]); (11394, [11395]);
    (11396, [11397]); (11398, [11399]); (11400, [11401]); (11402, [11403]); (11404, [11405]); (11406, [11407]);
    (11408, [11409]); (11410, [11411]); (11412, [11413]); (11414, [11415]); (11416, [11417]); (11418, [11419]);
    (11420, [11421]); (11422, [11423]); (11424, [11425]); (11426, [11427]); (11428, [11429]); (11430, [11431]);
    (11432, [11433]); (11434, [11435]); (11436, [11437]); (11438, [11439]); (11440, [11441]); (11442, [11443]);
    (11444, [11445]); (11446, [11447]); (11448, [11449]); (11450, [11451]); (11452, [11453]); (11454, [11455]);
    (11456, [11457]); (11458, [11459]); (11460, [11461]); (11462, [11463]); (11464, [11465]); (11466, [11467]);
    (11468, [11469]); (11470, [11471]); (11472, [11473]); (11474, [11475]); (11476, [11477]); (11478, [11479]);
    (11480, [11481]); (11482, [11483]); (11484, [11485]); (11486, [11487]); (11488, [11489]); (11490, [11491]);
    (11499, [11500]); (11501, [11502]); (11506, [11507]); (42560, [42561]); (42562, [42563]); (42564, [42565]);
    (42566, [42567]); (42568, [42569]); (42570, [42571]); (42572, [42573]); (42574, [42575]); (42576, [42577]);
    (42578, [42579]); (42580, [42581]); (42582, [42583]); (42584, [42585]); (42586, [42587]); (42588, [42589]);
    (42590, [42591]); (42592, [42593]); (42594, [42595]); (42596, [42597]); (42598, [42599]); (42600, [42601]);
    (42602, [42603]); (42604, [42605]); (42624, [42625]); (42626, [42627]); (42628, [42629]); (42630, [42631]);
    (42632, [42633]); (42634, [42635]); (42636, [42637]); (42638, [42639]); (42640, [42641]); (42642, [42643]);
    (42644, [42645]); (42646, [42647]); (42648, [42649]); (42650, [42651]); (42786, [42787]); (42788, [42789]);
    (42790, [42791]); (42792, [42793]); (42794, [42795]); (42796, [42797]); (42798, [42799]); (42802, [42803]);
    (42804, [42805]); (42806, [42807]); (42808, [42809]); (42810, [42811]); (42812, [42813]); (42814, [42815]);
    (42816, [42817]); (42818, [42819]); (42820, [42821]); (42822, [42823]); (42824, [42825]); (42826, [42827]);
    (42828, [42829]); (42830, [42831]); (42832, [42833]); (42834, [42835]); (42836, [42837]); (42838, [42839]);
    (42840, [42841]); (42842, [42843]); (42844, [42845]); (42846, [42847]); (42848, [42849]); (42850, [42851]);
    (42852, [42853]); (42854, [42855]); (42856, [42857]); (42858, [42859]); (42860, [42861]); (42862, [42863]);
    (42873, [42874]); (42875, [42876]); (42877, [7545]); (42878, [42879]); (42880, [42881]); (42882, [42883]);
    (42884, [42885]); (42886, [42887]); (42891, [42892]); (42893, [613]); (42896, [42897]); (42898, [42899]);
    (42902, [42903]); (42904, [42905]); (42906, [42907]); (42908, [42909]); (42910, [42911]); (42912, [42913]);
    (42914, [42915]); (42916, [42917]); (42918, [42919]); (42920, [42921]); (42922, [614]); (42923, [604]);
    (42924, [609]); (42925, [620]); (42926, [618]); (42928, [670]); (42929, [647]); (42930, [669]);
    (42931, [43859]); (42932, [42933]); (42934, [42935]); (42936, [42937]); (42938, [42939]); (42940, [42941]);
    (42942, [42943]); (42944, [42945]); (42946, [42947]); (42948, [42900]); (42949, [642]); (42950, [7566]);
    (42951, [42952]); (42953, [42954]); (42960, [42961]); (42966, [42967]); (42968, [42969]); (42997, [42998]);
    (65313, [65345]); (65314, [65346]); (65315, [65347]); (65316, [65348]); (65317, [65349]); (65318, [65350]);
    (65319, [65351]); (65320, [65352]); (65321, [65353]); (65322, [65354]); (65323, [65355]); (65324, [65356]);
    (65325, [65357]); (65326, [65358]); (65327, [65359]); (65328, [65360]); (65329, [65361]); (65330, [65362]);
    (65331, [65363]); (65332, [65364]); (65333, [65365]); (65334, [65366]); (65335, [65367]); (65336, [65368]);
    (65337, [65369]); (65338, [65370]); (66560, [66600]); (66561, [66601]); (66562, [66602]); (66563, [66603]);
    (66564, [66604]); (66565, [66605]); (66566, [66606]); (66567, [66607]); (66568, [66608]); (66569, [66609]);
    (66570, [66610]); (66571, [66611]); (66572, [66612]); (66573, [66613]); (66574, [66614]); (66575, [66615]);
    (66576, [66616]); (66577, [66617]); (66578, [66618]); (66579, [66619]); (66580, [66620]); (66581, [66621]);
    (66582, [66622]); (66583, [66623]); (66584, [66624]); (66585, [66625]); (66586, [66626]); (66587, [66627]);
    (66588, [66628]); (66589, [66629]); (66590, [66630]); (66591, [66631]); (66592, [66632]); (66593, [66633]);
    (66594, [66634]); (66595, [66635]); (66596, [66636]); (66597, [66637]); (66598, [66638]); (66599, [66639]);
    (66736, [66776]); (66737, [66777]); (66738, [66778]); (66739, [66779]); (66740, [66780]); (66741, [66781]);
    (66742, [66782]); (66743, [66783]); (66744, [66784]); (66745, [66785]); (66746, [66786]); (66747, [66787]);
    (66748, [66788]); (66749, [66789]); (66750, [66790]); (66751, [66791]); (66752, [66792]); (66753, [66793]);
    (66754, [66794]); (66755, [66795]); (66756, [66796]); (66757, [66797]); (66758, [66798]); (66759, [66799]);
    (66760, [66800]); (66761, [66801]); (66762, [66802]); (66763, [66803]); (66764, [66804]); (66765, [66805]);
    (66766, [66806]); (66767, [66807]); (66768, [66808]); (66769, [66809]); (66770, [66810]); (66771, [66811]);
    (66928, [66967]); (66929, [66968]); (66930, [66969]); (66931, [66970]); (66932, [66971]); (66933, [66972]);
    (66934, [66973]); (66935, [66974]); (66936, [66975]); (66937, [66976]); (66938, [66977]); (66940, [66979]);
    (66941, [66980]); (66942, [66981]); (66943, [66982]); (66944, [66983]); (66945, [66984]); (66946, [66985]);
    (66947, [66986]); (66948, [66987]); (66949, [66988]); (66950, [66989]); (66951, [66990]); (66952, [66991]);
    (66953, [66992]); (66954, [66993]); (66956, [66995]); (66957, [66996]); (66958, [66997]); (66959, [66998]);
    (66960, [66999]); (66961, [67000]); (66962, [67001]); (66964, [67003]); (66965, [67004]); (68736, [68800]);
    (68737, [68801]); (68738, [68802]); (68739, [68803]); (68740, [68804]); (68741, [68805]); (68742, [68806]);
    (68743, [68807]); (68744, [68808]); (68745, [68809]); (68746, [68810]); (68747, [68811]); (68748, [68812]);
    (68749, [68813]); (68750, [68814]); (68751, [68815]); (68752, [68816]); (68753, [68817]); (68754, [68818]);
    (68755, [68819]); (68756, [68820]); (68757, [68821]); (68758, [68822]); (68759, [68823]); (68760, [68824]);
    (68761, [68825]); (68762, [68826]); (68763, [68827]); (68764, [68828]); (68765, [68829]); (68766, [68830]);
    (68767, [68831]); (68768, [68832]); (68769, [68833]); (68770, [68834]); (68771, [68835]); (68772, [68836]);
    (68773, [68837]); (68774, [68838]); (68775, [68839]); (68776, [68840]); (68777, [68841]); (68778, [68842]);
    (68779, [68843]); (68780, [68844]); (68781, [68845]); (68782, [68846]); (68783, [68847]); (68784, [68848]);
    (68785, [68849]); (68786, [68850]); (71840, [71872]); (71841, [71873]); (71842, [71874]); (71843, [71875]);
    (71844, [71876]); (71845, [71877]); (71846, [71878]); (71847, [71879]); (71848, [71880]); (71849, [71881]);
    (71850, [71882]); (71851, [71883]); (71852, [71884]); (71853, [71885]); (71854, [71886]); (71855, [71887]);
    (71856, [71888]); (71857, [71889]); (71858, [71890]); (71859, [71891]); (71860, [71892]); (71861, [71893]);
    (71862, [71894]); (71863, [71895]); (71864, [71896]); (71865, [71897]); (71866, [71898]); (71867, [71899]);
    (71868, [71900]); (71869, [71901]); (71870, [71902]); (71871, [71903]); (93760, [93792]); (93761, [93793]);
    (93762, [93794]); (93763, [93795]); (93764, [93796]); (93765, [93797]); (93766, [93798]); (93767, [93799]);
    (93768, [93800]); (93769, [93801]); (93770, [93802]); (93771, [93803]); (93772, [93804]); (93773, [93805]);
    (93774, [93806]); (93775, [93807]); (93776, [93808]); (93777, [93809]); (93778, [93810]); (93779, [93811]);
    (93780, [93812]); (93781, [93813]); (93782, [93814]); (93783, [93815]); (93784, [93816]); (93785, [93817]);
    (93786, [93818]); (93787, [93819]); (93788, [93820]); (93789, [93821]); (93790, [93822]); (93791, [93823]);
    (125184, [125218]); (125185, [125219]); (125186, [125220]); (125187, [125221]); (125188, [125222]); (125189, [125223]);
    (125190, [125224]); (125191, [125225]); (125192, [125226]); (125193, [125227]); (125194, [125228]); (125195, [125229]);
    (125196, [125230]); (125197, [125231]); (125198, [125232]); (125199, [125233]); (125200, [125234]); (125201, [125235]);
    (125202, [125236]); (125203, [125237]); (125204, [125238]); (125205, [125239]); (125206, [125240]); (125207, [125241]);
    (125208, [125242]); (125209, [125243]); (125210, [125244]); (125211, [125245]); (125212, [125246]); (125213, [125247]);
    (125214, [125248]); (125215, [125249]); (125216, [125250]); (125217, [125251]) ].

(** Code points that are cased and not case-ignorable. *)
Definition cased_table : list (Z * Z) :=
  [ (65, 90); (97, 122); (170, 170); (181, 181); (186, 186); (192, 214);
    (216, 246); (248, 442); (444, 447); (452, 659); (661, 687); (880, 883);
    (886, 887); (891, 893); (895, 895); (902, 902); (904, 906); (908, 908);
    (910, 929); (931, 1013); (1015, 1153); (1162, 1327); (1329, 1366); (1376, 1416);
    (4256, 4293); (4295, 4295); (4301, 4301); (4304, 4346); (4349, 4351); (5024, 5109);
    (5112, 5117); (7296, 7304); (7312, 7354); (7357, 7359); (7424, 7467); (7531, 7543);
    (7545, 7578); (7680, 7957); (7960, 7965); (7968, 8005); (8008, 8013); (8016, 8023);
    (8025, 8025); (8027, 8027); (8029, 8029); (8031, 8061); (8064, 8116); (8118, 8124);
    (8126, 8126); (8130, 8132); (8134, 8140); (8144, 8147); (8150, 8155); (8160, 8172);
    (8178, 8180); (8182, 8188); (8450, 8450); (8455, 8455); (8458, 8467); (8469, 8469);
    (8473, 8477); (8484, 8484); (8486, 8486); (8488, 8488); (8490, 8493); (8495, 8500);
    (8505, 8505); (8508, 8511); (8517, 8521); (8526, 8526); (8544, 8575); (8579, 8580);
    (9398, 9449); (11264, 11387); (11390, 11492); (11499, 11502); (11506, 11507); (11520, 11557);
    (11559, 11559); (11565, 11565); (42560, 42605); (42624, 42651); (42786, 42863); (42865, 42887);
    (42891, 42894); (42896, 42954); (42960, 42961); (42963, 42963); (42965, 42969); (42997, 42998);
    (43002, 43002); (43824, 43866); (43872, 43880); (43888, 43967); (64256, 64262); (64275, 64279);
    (65313, 65338); (65345, 65370); (66560, 66639); (66736, 66771); (66776, 66811); (66928, 66938);
    (66940, 66954); (66956, 66962); (66964, 66965); (66967, 66977); (66979, 66993); (66995, 67001);
    (67003, 67004); (68736, 68786); (68800, 68850); (71840, 71903); (93760, 93823); (119808, 119892);
    (119894, 119964); (119966, 119967); (119970, 119970); (119973, 119974); (119977, 119980); (119982, 119993);
    (119995, 119995); (119997, 120003); (120005, 120069); (120071, 120074); (120077, 120084); (120086, 120092);
    (120094, 120121); (120123, 120126); (120128, 120132); (120134, 120134); (120138, 120144); (120146, 120485);
    (120488, 120512); (120514, 120538); (120540, 120570); (120572, 120596); (120598, 120628); (120630, 120654);
    (120656, 120686); (120688, 120712); (120714, 120744); (120746, 120770); (120772, 120779); (122624, 122633);
    (122635, 122654); (125184, 125251); (127280, 127305); (127312, 127337); (127344, 127369) ].

(** Code points that are case-ignorable. *)
Definition ignorable_table : list (Z * Z) :=
  [ (39, 39); (46, 46); (58, 58); (94, 94); (96, 96); (168, 168);
    (173, 173); (175, 175); (180, 180); (183, 184); (688, 879); (884, 885);
    (890, 890); (900, 901); (903, 903); (1155, 1161); (1369, 1369); (1375, 1375);
    (1425, 1469); (1471, 1471); (1473, 1474); (1476, 1477); (1479, 1479); (1524, 1524);
    (1536, 1541); (1552, 1562); (1564, 1564); (1600, 1600); (1611, 1631); (1648, 1648);
    (1750, 1757); (1759, 1768); (1770, 1773); (1807, 1807); (1809, 1809); (1840, 1866);
    (1958, 1968); (2027, 2037); (2042, 2042); (2045, 2045); (2070, 2093); (2137, 2139);
    (2184, 2184); (2192, 2193); (2200, 2207); (2249, 2306); (2362, 2362); (2364, 2364);
    (2369, 2376); (2381, 2381); (2385, 2391); (2402, 2403); (2417, 2417); (2433, 2433);
    (2492, 2492); (2497, 2500); (2509, 2509); (2530, 2531); (2558, 2558); (2561, 2562);
    (2620, 2620); (2625, 2626); (2631, 2632); (2635, 2637); (2641, 2641); (2672, 2673);
    (2677, 2677); (2689, 2690); (2748, 2748); (2753, 2757); (2759, 2760); (2765, 2765);
    (2786, 2787); (2810, 2815); (2817, 2817); (2876, 2876); (2879, 2879); (2881, 2884);
    (2893, 2893); (2901, 2902); (2914, 2915); (2946, 2946); (3008, 3008); (3021, 3021);
    (3072, 3072); (3076, 3076); (3132, 3132); (3134, 3136); (3142, 3144); (3146, 3149);
    (3157, 3158); (3170, 3171); (3201, 3201); (3260, 3260); (3263, 3263); (3270, 3270);
    (3276, 3277); (3298, 3299); (3328, 3329); (3387, 3388); (3393, 3396); (3405, 3405);
    (3426, 3427); (3457, 3457); (3530, 3530); (3538, 3540); (3542, 3542); (3633, 3633);
    (3636, 3642); (3654, 3662); (3761, 3761); (3764, 3772); (3782, 3782); (3784, 3789);
    (3864, 3865); (3893, 3893); (3895, 3895); (3897, 3897); (3953, 3966); (3968, 3972);
    (3974, 3975); (3981, 3991); (3993, 4028); (4038, 4038); (4141, 4144); (4146, 4151);
    (4153, 4154); (4157, 4158); (4184, 4185); (4190, 4192); (4209, 4212); (4226, 4226);
    (4229, 4230); (4237, 4237); (4253, 4253); (4348, 4348); (4957, 4959); (5906, 5908);
    (5938, 5939); (5970, 5971); (6002, 6003); (6068, 6069); (6071, 6077); (6086, 6086);
    (6089, 6099); (6103, 6103); (6109, 6109); (6155, 6159); (6211, 6211); (6277, 6278);
    (6313, 6313); (6432, 6434); (6439, 6440); (6450, 6450); (6457, 6459); (6679, 6680);
    (6683, 6683); (6742, 6742); (6744, 6750); (6752, 6752); (6754, 6754); (6757, 6764);
    (6771, 6780); (6783, 6783); (6823, 6823); (6832, 6862); (6912, 6915); (6964, 6964);
    (6966, 6970); (6972, 6972); (6978, 6978); (7019, 7027); (7040, 7041); (7074, 7077);
    (7080, 7081); (7083, 7085); (7142, 7142); (7144, 7145); (7149, 7149); (7151, 7153);
    (7212, 7219); (7222, 7223); (7288, 7293); (7376, 7378); (7380, 7392); (7394, 7400);
    (7405, 7405); (7412, 7412); (7416, 7417); (7468, 7530); (7544, 7544); (7579, 7679);
    (8125, 8125); (8127, 8129); (8141, 8143); (8157, 8159); (8173, 8175); (8189, 8190);
    (8203, 8207); (8216, 8217); (8228, 8228); (8231, 8231); (8234, 8238); (8288, 8292);
    (8294, 8303); (8305, 8305); (8319, 8319); (8336, 8348); (8400, 8432); (11388, 11389);
    (11503, 11505); (11631, 11631); (11647, 11647); (11744, 11775); (11823, 11823); (12293, 12293);
    (12330, 12333); (12337, 12341); (12347, 12347); (12441, 12446); (12540, 12542); (40981, 40981);
    (42232, 42237); (42508, 42508); (42607, 42610); (42612, 42621); (42623, 42623); (42652, 42655);
    (42736, 42737); (42752, 42785); (42864, 42864); (42888, 42890); (42994, 42996); (43000, 43001);
    (43010, 43010); (43014, 43014); (43019, 43019); (43045, 43046); (43052, 43052); (43204, 43205);
    (43232, 43249); (43263, 43263); (43302, 43309); (43335, 43345); (43392, 43394); (43443, 43443);
    (43446, 43449); (43452, 43453); (43471, 43471); (43493, 43494); (43561, 43566); (43569, 43570);
    (43573, 43574); (43587, 43587); (43596, 43596); (43632, 43632); (43644, 43644); (43696, 43696);
    (43698, 43700); (43703, 43704); (43710, 43711); (43713, 43713); (43741, 43741); (43756, 43757);
    (43763, 43764); (43766, 43766); (43867, 43871); (43881, 43883); (44005, 44005); (44008, 44008);
    (44013, 44013); (64286, 64286); (64434, 64450); (65024, 65039); (65043, 65043); (65056, 65071);
    (65106, 65106); (65109, 65109); (65279, 65279); (65287, 65287); (65294, 65294); (65306, 65306);
    (65342, 65342); (65344, 65344); (65392, 65392); (65438, 65439); (65507, 65507); (65529, 65531);
    (66045, 66045); (66272, 66272); (66422, 66426); (67456, 67461); (67463, 67504); (67506, 67514);
    (68097, 68099); (68101, 68102); (68108, 68111); (68152, 68154); (68159, 68159); (68325, 68326);
    (68900, 68903); (69291, 69292); (69446, 69456); (69506, 69509); (69633, 69633); (69688, 69702);
    (69744, 69744); (69747, 69748); (69759, 69761); (69811, 69814); (69817, 69818); (69821, 69821);
    (69826, 69826); (69837, 69837); (69888, 69890); (69927, 69931); (69933, 69940); (70003, 70003);
    (70016, 70017); (70070, 70078); (70089, 70092); (70095, 70095); (70191, 70193); (70196, 70196);
    (70198, 70199); (70206, 70206); (70367, 70367); (70371, 70378); (70400, 70401); (70459, 70460);
    (70464, 70464); (70502, 70508); (70512, 70516); (70712, 70719); (70722, 70724); (70726, 70726);
    (70750, 70750); (70835, 70840); (70842, 70842); (70847, 70848); (70850, 70851); (71090, 71093);
    (71100, 71101); (71103, 71104); (71132, 71133); (71219, 71226); (71229, 71229); (71231, 71232);
    (71339, 71339); (71341, 71341); (71344, 71349); (71351, 71351); (71453, 71455); (71458, 71461);
    (71463, 71467); (71727, 71735); (71737, 71738); (71995, 71996); (71998, 71998); (72003, 72003);
    (72148, 72151); (72154, 72155); (72160, 72160); (72193, 72202); (72243, 72248); (72251, 72254);
    (72263, 72263); (72273, 72278); (72281, 72283); (72330, 72342); (72344, 72345); (72752, 72758);
    (72760, 72765); (72767, 72767); (72850, 72871); (72874, 72880); (72882, 72883); (72885, 72886);
    (73009, 73014); (73018, 73018); (73020, 73021); (73023, 73029); (73031, 73031); (73104, 73105);
    (73109, 73109); (73111, 73111); (73459, 73460); (78896, 78904); (92912, 92916); (92976, 92982);
    (92992, 92995); (94031, 94031); (94095, 94111); (94176, 94177); (94179, 94180); (110576, 110579);
    (110581, 110587); (110589, 110590); (113821, 113822); (113824, 113827); (118528, 118573); (118576, 118598);
    (119143, 119145); (119155, 119170); (119173, 119179); (119210, 119213); (119362, 119364); (121344, 121398);
    (121403, 121452); (121461, 121461); (121476, 121476); (121499, 121503); (121505, 121519); (122880, 122886);
    (122888, 122904); (122907, 122913); (122915, 122916); (122918, 122922); (123184, 123197); (123566, 123566);
    (123628, 123631); (125136, 125142); (125252, 125259); (127995, 127999); (917505, 917505); (917536, 917631);
    (917760, 917999) ].


(** [ch.isspace()] *)
Definition isspace (ch : string) : bool := in_ranges space_table (code_point ch).

Fixpoint drop_while {A} (p : A → bool) (l : list A) : list A :=
  match l with
  | [] => []
  | x :: l' => if p x then drop_while p l' else l
  end.

Definition lstrip_chars (chs : list string) : list string := drop_while isspace chs.

(** The list without the white space at its end. *)
Fixpoint rstrip_chars (chs : list string) : list string :=
  match chs with
  | [] => []
  | ch :: chs' =>
      match rstrip_chars chs' with
      | [] => if isspace ch then [] else [ch]
      | kept => ch :: kept
      end
  end.

(** [s.strip()] *)
Definition strip (s : string) : string :=
  unchars (rstrip_chars (lstrip_chars (chars s))).

Fixpoint assoc {A} (c : Z) (table : list (Z * A)) : option A :=
  match table with
  | [] => None
  | (c', a) :: table' => if c =? c' then Some a else assoc c table'
  end.

Definition cased (ch : string) : bool := in_ranges cased_table (code_point ch).
Definition ignorable (ch : string) : bool := in_ranges ignorable_table (code_point ch).

(** The lowercase of one character that is not U+03A3. *)
Definition lower_char (ch : string) : list string :=
  match assoc (code_point ch) lower_table with
  | Some cs => encode <$> cs
  | None => [ch]
  end.

(** What follows is, after the case-ignorable characters, a cased one. *)
Definition cased_ahead (chs : list string) : bool :=
  match drop_while ignorable chs with
  | [] => false
  | ch :: _ => cased ch
  end.

Definition capital_sigma : string := encode 931.
Definition small_sigma : string := encode 963.
Definition final_sigma : string := encode 962.

(** The loop of [str.lower()].  [after_cased]: the last character before
    this one that is not case-ignorable is cased.  U+03A3 becomes the final
    sigma U+03C2 when it ends a word ([after_cased], and no cased character
    ahead), and U+03C3 otherwise. *)
Fixpoint lower_go (after_cased : bool) (chs : list string) : list string :=
  match chs with
  | [] => []
  | ch :: chs' =>
      (if decide (ch = capital_sigma)
       then [if after_cased && negb (cased_ahead chs') then final_sigma else small_sigma]
       else lower_char ch)
      ++ lower_go (if ignorable ch then after_cased else cased ch) chs'
  end.

(** [s.lower()] *)
Definition lower (s : string) : string := unchars (lower_go false (chars s)).

(** [s.split(sep)[0]] for a one-character ASCII separator: the text before
    the first [sep], all of [s] when there is none. *)
Fixpoint split_head (sep : ascii) (s : string) : string :=
  match s with
  | EmptyString => EmptyString
  | String c s' => if decide (c = sep) then EmptyString else String c (split_head sep s')
  end.

(** [ch.isdigit()] *)
Definition isdigit_char (ch : string) : bool := in_ranges digit_table (code_point ch).

(** [s.isdigit()]: at least one character, all of them digits. *)
Definition isdigit (s : string) : bool :=
  match chars s with
  | [] => false
  | chs => forallb isdigit_char chs
  end.

(** The value of a decimal digit: its place in its run of ten. *)
Definition decimal_val (ch : string) : option Z :=
  let c := code_point ch in
  (fun r : Z * Z => (c - r.1) mod 10)
    <$> List.find (fun r => (r.1 <=? c) && (c <=? r.2)) decimal_table.

Fixpoint int_go (acc : Z) (chs : list string) : option Z :=
  match chs with
  | [] => Some acc
  | ch :: chs' =>
      match decimal_val ch with
      | Some d => int_go (10 * acc + d) chs'
      | None => None
      end
  end.

(** [sys.get_int_max_str_digits()], at its default. *)
Definition int_max_str_digits : nat := 4300.

(** [int(s)] for a string [s] with [s.isdigit()]; [None] is [ValueError]:
    [s] has a digit that is no decimal digit (a superscript, say), or more
    characters than [int_max_str_digits]. *)
Definition int (s : string) : option Z :=
  let chs := chars s in
  if (int_max_str_digits <? length chs)%nat then None else int_go 0 chs.

(** Truth value of a string: non-empty. *)
Definition truthy (s : string) : bool :=
  match s with EmptyString => false | _ => true end.

End PyStr.

(** ** Data model *)

(** A catalog record, as the fetchers hand it to the recommender.  A key
    that is absent and a key bound to [None] are both [None] here: the
    code reads [episodes] and [score] through [a.get]. *)
Record anime := Anime {
  title : string;
  url : string;
  episodes : option Z;
  score : option Q
}.

(** One entry of the secondary catalog's [media] array. *)
Record media := Media {
  romaji : string;
  siteUrl : string;
  averageScore : option Z;
  media_episodes : option Z
}.

(** An element of the list [recommend_anime] returns:
    [{"title": ..., "url": ...}]. *)
Record item := Item {
  item_title : string;
  item_url : string
}.

Inductive rating := HiddenGem.

(** The dictionary [parse_user_request] returns. *)
Record parsed := Parsed {
  genres : list string;
  max_episodes : option Z;
  rating_pref : option rating
}.

(** spaCy's coarse part-of-speech tags ([tok.pos_]). *)
Inductive pos :=
  | ADJ | ADP | ADV | AUX | CCONJ | DET | INTJ | NOUN | NUM | PART
  | PRON | PROPN | PUNCT | SCONJ | SYM | VERB | X | SPACE.

(** What the code reads of a spaCy [Doc]: the text of its noun chunks and
    its tokens with their tags. *)
Record doc := Doc {
  noun_chunks : list string;
  doc_tokens : list (string * pos)
}.

#[global] Instance Q_eq_dec : EqDecision Q.
Proof. solve_decision. Defined.
#[global] Instance Qeq_decision (x y : Q) : Decision (x == y)%Q := Qeq_dec x y.
#[global] Instance anime_eq_dec : EqDecision anime.
Proof. solve_decision. Defined.
#[global] Instance item_eq_dec : EqDecision item.
Proof. solve_decision. Defined.
#[global] Instance pos_eq_dec : EqDecision pos.
Proof. solve_decision. Defined.
#[global] Instance rating_eq_dec : EqDecision rating.
Proof. solve_decision. Defined.

(** ** The world: file system, random generator, request log *)

(** Regular files with their text, and the directories that exist. *)
Record filesystem := FS {
  files : gmap string string;
  dirs : gset string
}.

(** The state of the [random] module: an endless tape of raw draws and a
    position on it. *)
Record rng := Rng {
  tape : nat → nat;
  cursor : nat
}.

Inductive request :=
  | GetAnimeByGenre (genre_id : Z) (page : nat)
  | GetAnimeSearch (q : string) (page : nat)
  | GetTopAnime (page : nat)
  | PostAnilist (search : string) (perPage : nat).

Record world := World {
  w_fs : filesystem;
  w_rng : rng;
  w_log : list request
}.

Inductive exn :=
  | HTTPError
  | JSONDecodeError
  | KeyError (k : string)
  | FileNotFoundError
  | FileExistsError
  | IsADirectoryError
  | NotADirectoryError
  | ValueError
  | OverflowError.

(** A call either raises or returns a value in a new world. *)
Inductive outcome (A : Type) :=
  | Raised (e : exn)
  | Returned (a : A) (w : world).
Arguments Raised {A} e.
Arguments Returned {A} a w.

Definition M (A : Type) : Type := world → outcome A.

Definition ret {A} (a : A) : M A := fun w => Returned a w.

Definition bind {A B} (m : M A) (k : A → M B) : M B :=
  fun w => match m w with
           | Raised e => Raised e
           | Returned a w' => k a w'
           end.

Definition raise {A} (e : exn) : M A := fun _ => Raised e.

(** A computation that touches no state: it raises or returns. *)
Definition lift {A} (r : exn + A) : M A :=
  match r with
  | inl e => raise e
  | inr a => ret a
  end.

Notation "'let*' x ':=' m 'in' k" := (bind m (fun x => k))
  (at level 10, x name, m at level 100, k at level 200).
Notation "m ';;' k" := (bind m (fun _ => k))
  (at level 100, k at level 200, right associativity).

(** *** File system ([os], [open]) *)

Definition upto_last_slash : string → string :=
  fix go (p : string) : string :=
    match p with
    | EmptyString => EmptyString
    | String c p' =>
        match go p' with
        | EmptyString => if decide (c = "/"%char) then String c EmptyString else EmptyString
        | h => String c h
        end
    end.

Fixpoint lstrip_slash (s : string) : string :=
  match s with
  | EmptyString => EmptyString
  | String c s' => if decide (c = "/"%char) then lstrip_slash s' else s
  end.

(** [os.path.dirname(p)] (posixpath): the text up to the last slash,
    without its trailing slashes unless it consists of slashes only. *)
Definition os_path_dirname (p : string) : string :=
  let head := upto_last_slash p in
  match lstrip_slash head with
  | EmptyString => head
  | _ => String.rev (lstrip_slash (String.rev head))
  end.

(** [os.path.join(a, b)] for a non-empty [a] without trailing slash and a
    relative [b]. *)
Definition os_path_join (a b : string) : string := a +:+ "/" +:+ b.

(** [os.path.exists(path)].  Paths are compared as written. *)
Definition os_path_exists (path : string) (fs : filesystem) : bool :=
  bool_decide (is_Some (files fs !! path)) || bool_decide (path ∈ dirs fs).

(** [os.makedirs(name, exist_ok=True)] for a single-component [name]. *)
Definition os_makedirs (name : string) : M unit :=
  fun w =>
    let fs := w_fs w in
    if bool_decide (is_Some (files fs !! name)) then Raised FileExistsError
    else Returned tt (World (FS (files fs) ({[name]} ∪ dirs fs)) (w_rng w) (w_log w)).

(** [open(path, encoding="utf-8").read()] *)
Definition read_text (path : string) : M string :=
  fun w =>
    match files (w_fs w) !! path with
    | Some text => Returned text w
    | None =>
        if bool_decide (path ∈ dirs (w_fs w)) then Raised IsADirectoryError
        else Raised FileNotFoundError
    end.

(** [open(path, "w", encoding="utf-8")] followed by writing [text]: the
    file is created or truncated, in a directory that must exist. *)
Definition write_text (path text : string) : M unit :=
  fun w =>
    let fs := w_fs w in
    let parent := os_path_dirname path in
    if bool_decide (path ∈ dirs fs) then Raised IsADirectoryError
    else if bool_decide (is_Some (files fs !! parent)) then Raised NotADirectoryError
    else if PyStr.truthy parent && negb (bool_decide (parent ∈ dirs fs)) then Raised FileNotFoundError
    else Returned tt (World (FS (<[path := text]> (files fs)) (dirs fs)) (w_rng w) (w_log w)).

(** *** Random generator ([random]) *)

(** [random._randbelow(n)]: a draw in [range(n)]. *)
Definition randbelow (n : nat) : M nat :=
  fun w =>
    let g := w_rng w in
    Returned (tape g (cursor g) `mod` n)%nat
             (World (w_fs w) (Rng (tape g) (S (cursor g))) (w_log w)).

(** [x[i], x[j] = x[j], x[i]] *)
Definition swap {A} (i j : nat) (x : list A) : list A :=
  match x !! i, x !! j with
  | Some xi, Some xj => <[j := xi]> (<[i := xj]> x)
  | _, _ => x
  end.

(** The loop of [random.shuffle]:
    [for i in reversed(range(1, len(x))): j = randbelow(i + 1); swap]. *)
Fixpoint shuffle_loop {A} (i : nat) (x : list A) : M (list A) :=
  match i with
  | O => ret x
  | S i' =>
      let* j := randbelow (S i) in
      shuffle_loop i' (swap i j x)
  end.

(** [random.shuffle(x)], returning the shuffled list. *)
Definition random_shuffle {A} (x : list A) : M (list A) :=
  shuffle_loop (length x - 1) x.

(** *** [sorted(xs, key=key, reverse=True)] *)

Definition Qltb (x y : Q) : bool := negb (Qle_bool y x).

(** Insert [a] in front of a list sorted by decreasing key: [a] passes the
    elements whose key is strictly greater and stops at the first other
    one, so it stays in front of the elements with its own key. *)
Fixpoint insert_desc {A} (key : A → Q) (a : A) (l : list A) : list A :=
  match l with
  | [] => [a]
  | b :: l' => if Qltb (key a) (key b) then b :: insert_desc key a l' else a :: l
  end.

(** A stable sort by decreasing key.  Python's sort is stable, also under
    [reverse=True]; a stable sort has one possible result (lemma
    [sorted_desc_unique]), which this insertion sort computes. *)
Fixpoint sorted_desc {A} (key : A → Q) (l : list A) : list A :=
  match l with
  | [] => []
  | a :: l' => insert_desc key a (sorted_desc key l')
  end.

(** *** Division of an integer by ten ([int.__truediv__]) *)

(** The integer nearest to [a / b], for [0 <= a] and [0 < b]; of two
    nearest ones the even one. *)
Definition round_half_even (a b : Z) : Z :=
  let q := a / b in
  let r := a mod b in
  if 2 * r <? b then q
  else if b <? 2 * r then q + 1
  else if Z.even q then q else q + 1.

(** [n / 10] for a Python integer [n > 0]: the float (IEEE 754 binary64)
    nearest to the quotient, ties to the even mantissa, as the rational it
    denotes; [None] is [OverflowError], the quotient being too large for a
    float.  With [2^e <= n/10 < 2^(e+1)] the mantissa is [n/10 / 2^(e-52)]
    rounded to an integer. *)
Definition float_div10_pos (n : Z) : option Q :=
  let e := Z.log2 (16 * n / 10) - 4 in
  let shift := e - 52 in
  let m := if shift <? 0 then round_half_even (n * 2 ^ (- shift)) 10
           else round_half_even n (10 * 2 ^ shift) in
  if 1024 <=? (if m =? 2 ^ 53 then e + 1 else e) then None
  else Some (if shift <? 0 then Qmake m (Z.to_pos (2 ^ (- shift)))
             else inject_Z (m * 2 ^ shift)).

(** [n / 10] for a Python integer [n]. *)
Definition float_div10 (n : Z) : option Q :=
  if n =? 0 then Some 0%Q
  else if n <? 0 then Qopp <$> float_div10_pos (- n)
  else float_div10_pos n.

(** ** The environment of the program *)

(** What [recommender.py] takes from outside: the genre directory built at
    import time, the spaCy pipeline, the order in which Python iterates a
    set, the [json] codec on cache mappings, and the answers of the two
    remote catalogs ([None] is a response on which [raise_for_status]
    raises; a response without ["data"] is the empty list). *)
Class env := Env {
  MAL_GENRES : gmap string Z;
  nlp : string → doc;
  set_to_list : gset string → list string;
  set_to_list_perm : ∀ s, set_to_list s ≡ₚ elements s;
  json_load : string → option (gmap string (list anime));
  json_dump : gmap string (list anime) → string;
  jikan_anime_by_genre : Z → nat → option (list anime);
  jikan_anime_search : string → nat → option (list anime);
  jikan_top_anime : nat → option (list anime);
  anilist_media : string → nat → option (list media)
}.

Definition CACHE_DIR : string := "data".
Definition CACHE_PATH : string := os_path_join CACHE_DIR "genre_cache.json".
Definition ANILIST_CACHE_PATH : string := os_path_join CACHE_DIR "anilist_cache.json".

(** ** The program *)

Section Program.
Context `{E : env}.

Definition keep_pos (t : string * pos) : bool :=
  bool_decide (t.2 = NOUN) || bool_decide (t.2 = ADJ).

Definition extract_keywords (text : string) : list string :=
  let d := nlp (PyStr.lower text) in
  let phrases : gset string := list_to_set (noun_chunks d) in
  let tokens : gset string := list_to_set (fst <$> filter keep_pos (doc_tokens d)) in
  set_to_list (phrases ∪ tokens).

(** [tokens.index(x)] when [x in tokens]. *)
Fixpoint list_index (x : string) (tokens : list string) : option nat :=
  match tokens with
  | [] => None
  | t :: tokens' => if decide (t = x) then Some O else S <$> list_index x tokens'
  end.

(** Lines 39-43: the episode ceiling; [int] may raise [ValueError]. *)
Definition parse_max_episodes (tokens : list string) : exn + option Z :=
  match list_index "under" tokens with
  | Some idx =>
      match tokens !! (idx + 1)%nat with
      | Some t =>
          if PyStr.isdigit t then
            match PyStr.int t with
            | Some n => inr (Some n)
            | None => inl ValueError
            end
          else inr None
      | None => inr None
      end
  | None => inr None
  end.

Definition parse_user_request (text : string) : exn + parsed :=
  let tokens := extract_keywords text in
  let genres := filter (fun tok => is_Some (MAL_GENRES !! tok)) tokens in
  match parse_max_episodes tokens with
  | inl e => inl e
  | inr max_eps =>
      let rating_pref :=
        if bool_decide ("hidden" ∈ tokens) && bool_decide ("gem" ∈ tokens)
        then Some HiddenGem else None in
      inr (Parsed genres max_eps rating_pref)
  end.

Definition _load_cache (path : string) : M (gmap string (list anime)) :=
  fun w =>
    if os_path_exists path (w_fs w) then
      (let* text := read_text path in
       match json_load text with
       | Some cache => ret cache
       | None => raise JSONDecodeError
       end) w
    else ret ∅ w.

Definition _save_cache (path : string) (cache : gmap string (list anime)) : M unit :=
  os_makedirs CACHE_DIR;;
  write_text path (json_dump cache).

(** [requests.get] / [requests.post] followed by [raise_for_status] and
    the extraction of the payload: the request is logged, then the answer
    of the remote side is returned or [HTTPError] raised. *)
Definition http {A} (rq : request) (answer : option A) : M A :=
  fun w =>
    let w' := World (w_fs w) (w_rng w) (w_log w ++ [rq]) in
    match answer with
    | Some data => Returned data w'
    | None => Raised HTTPError
    end.

(** [for page in range(1, pages+1): ...; all_data.extend(...)] *)
Fixpoint page_loop (get : nat → M (list anime)) (pages : list nat)
    (all_data : list anime) : M (list anime) :=
  match pages with
  | [] => ret all_data
  | page :: pages' =>
      let* data := get page in
      page_loop get pages' (all_data ++ data)
  end.

Definition fetch_by_genre (genre_id : Z) (pages : nat) : M (list anime) :=
  let* cache := _load_cache CACHE_PATH in
  let key := "genre_" +:+ pretty genre_id +:+ "_p" +:+ pretty pages in
  match cache !! key with
  | Some data => ret data
  | None =>
      let* all_data :=
        page_loop (fun page => http (GetAnimeByGenre genre_id page)
                                    (jikan_anime_by_genre genre_id page))
                  (seq 1 pages) [] in
      _save_cache CACHE_PATH (<[key := all_data]> cache);;
      ret all_data
  end.

Definition fetch_search_mal (query : string) (pages : nat) : M (list anime) :=
  page_loop (fun page => http (GetAnimeSearch query page) (jikan_anime_search query page))
            (seq 1 pages) [].

Definition fetch_top_anime (pages : nat) : M (list anime) :=
  page_loop (fun page => http (GetTopAnime page) (jikan_top_anime page))
            (seq 1 pages) [].

(** [m.get("averageScore") and m["averageScore"]/10]: an absent average
    and the average 0 are passed on, another one is divided, which raises
    [OverflowError] when the quotient is too large for a float. *)
Definition anilist_score (m : media) : exn + option Q :=
  match averageScore m with
  | None => inr None
  | Some n =>
      match float_div10 n with
      | Some s => inr (Some s)
      | None => inl OverflowError
      end
  end.

Definition anilist_record (m : media) : exn + anime :=
  match anilist_score m with
  | inl e => inl e
  | inr s =>
      inr {| title := romaji m;
             url := siteUrl m;
             score := s;
             episodes := media_episodes m |}
  end.

(** [[... for m in media]]: the records in order, up to the first one
    that raises. *)
Fixpoint anilist_records (media : list media) : exn + list anime :=
  match media with
  | [] => inr []
  | m :: media' =>
      match anilist_record m with
      | inl e => inl e
      | inr a =>
          match anilist_records media' with
          | inl e => inl e
          | inr results => inr (a :: results)
          end
      end
  end.

Definition fetch_anilist (query : string) (per_page : nat) : M (list anime) :=
  let* cache := _load_cache ANILIST_CACHE_PATH in
  let key := PyStr.lower query in
  match cache !! key with
  | Some data => ret data
  | None =>
      let* media := http (PostAnilist query per_page) (anilist_media query per_page) in
      let* results := lift (anilist_records media) in
      _save_cache ANILIST_CACHE_PATH (<[key := results]> cache);;
      ret results
  end.

(** [MAL_GENRES[g]] *)
Definition genre_id_of (g : string) : M Z :=
  match MAL_GENRES !! g with
  | Some gid => ret gid
  | None => raise (KeyError g)
  end.

(** [for g in parsed["genres"]: gid = MAL_GENRES[g];
     candidates += fetch_by_genre(gid, pages=2)] *)
Fixpoint genre_loop (gs : list string) (candidates : list anime) : M (list anime) :=
  match gs with
  | [] => ret candidates
  | g :: gs' =>
      let* gid := genre_id_of g in
      let* data := fetch_by_genre gid 2 in
      genre_loop gs' (candidates ++ data)
  end.

(** Lines 137-147 of [recommend_anime]: where the candidates come from. *)
Definition gather_candidates (query : string) (p : parsed) : M (list anime) :=
  let* candidates :=
    match genres p with
    | _ :: _ => genre_loop (genres p) []
    | [] =>
        if PyStr.truthy (PyStr.strip query) then fetch_search_mal query 1
        else ret []
    end in
  let* candidates :=
    match candidates with
    | [] => if PyStr.truthy (PyStr.strip query) then fetch_anilist query 10
            else ret candidates
    | _ => ret candidates
    end in
  match candidates with
  | [] => fetch_top_anime 2
  | _ => ret candidates
  end.

(** The two deduplication loops have one shape:
    [for a in candidates: if k(a) not in seen: unique.append(a); seen.add(k(a))]. *)
Fixpoint dedupe_loop (k : anime → string) (candidates : list anime)
    (seen : gset string) (unique : list anime) : list anime :=
  match candidates with
  | [] => unique
  | a :: candidates' =>
      if bool_decide (k a ∈ seen) then dedupe_loop k candidates' seen unique
      else dedupe_loop k candidates' ({[k a]} ∪ seen) (unique ++ [a])
  end.

(** The records the loop appends, by direct recursion: the loop returns
    [unique ++ first_seen k seen candidates] (lemma [dedupe_loop_first_seen]). *)
Fixpoint first_seen (k : anime → string) (seen : gset string)
    (candidates : list anime) : list anime :=
  match candidates with
  | [] => []
  | a :: candidates' =>
      if bool_decide (k a ∈ seen) then first_seen k seen candidates'
      else a :: first_seen k ({[k a]} ∪ seen) candidates'
  end.

Definition dedupe_urls (candidates : list anime) : list anime :=
  dedupe_loop url candidates ∅ [].

(** [t.split(":")[0].split("-")[0].strip()], then [.lower()] *)
Definition normalized_base (t : string) : string :=
  PyStr.lower (PyStr.strip (PyStr.split_head "-" (PyStr.split_head ":" t))).

Definition base_title (a : anime) : string := normalized_base (title a).

Definition dedupe_base_titles (candidates : list anime) : list anime :=
  dedupe_loop base_title candidates ∅ [].

(** [a.get("episodes") and a["episodes"] <= n] *)
Definition episodes_ok (n : Z) (a : anime) : bool :=
  match episodes a with
  | Some e => negb (e =? 0) && (e <=? n)
  | None => false
  end.

(** [a.get("score") and a["score"] < 7] *)
Definition hidden_gem_ok (a : anime) : bool :=
  match score a with
  | Some s => negb (Qeq_bool s 0) && Qltb s 7
  | None => false
  end.

Definition episode_filter (p : parsed) (candidates : list anime) : list anime :=
  match max_episodes p with
  | Some n => filter (fun a => episodes_ok n a) candidates
  | None => candidates
  end.

Definition hidden_gem_filter (p : parsed) (candidates : list anime) : list anime :=
  match rating_pref p with
  | Some HiddenGem => filter (fun a => hidden_gem_ok a) candidates
  | None => candidates
  end.

(** Lines 148-166: deduplication and filters. *)
Definition select (p : parsed) (candidates : list anime) : list anime :=
  hidden_gem_filter p (episode_filter p (dedupe_base_titles (dedupe_urls candidates))).

(** [lambda a: a.get("score") or 0] *)
Definition score_key (a : anime) : Q :=
  match score a with
  | Some s => if Qeq_bool s 0 then 0%Q else s
  | None => 0%Q
  end.

Definition to_item (a : anime) : item := Item (title a) (url a).

(** [random.shuffle(xs); sorted(xs, key=..., reverse=True)[:10]] *)
Definition rank (candidates : list anime) : M (list anime) :=
  let* shuffled := random_shuffle candidates in
  ret (take 10 (sorted_desc score_key shuffled)).

Definition recommend_anime (query : string) : M (list item) :=
  let* p := lift (parse_user_request query) in
  let* candidates := gather_candidates query p in
  let candidates := select p candidates in
  let* top10 := rank candidates in
  ret (to_item <$> top10).

Definition get_default_recs : M (list item) :=
  let* data := fetch_top_anime 2 in
  let* top10 := rank data in
  ret (to_item <$> top10).

End Program.

(** ** The rest of the program: the genre directory and the page script *)

(** One entry of the genre list of the primary catalog. *)
Record mal_genre := MalGenre {
  genre_name : string;
  genre_mal_id : Z
}.

(** [{g["name"].lower(): g["mal_id"] for g in genres}]: entries are
    inserted in order, a later one replaces an earlier one of the same key. *)
Definition genre_dict (genres : list mal_genre) : gmap string Z :=
  foldl (fun d g => <[PyStr.lower (genre_name g) := genre_mal_id g]> d) ∅ genres.

(** [fetch_mal_genres()], run once when the module is imported; [answer] is
    what the genre endpoint sends ([None]: [raise_for_status] raises). *)
Definition fetch_mal_genres (answer : option (list mal_genre)) : exn + gmap string Z :=
  match answer with
  | None => inl HTTPError
  | Some genres => inr (genre_dict genres)
  end.

(** [sep.join(l)] *)
Fixpoint join (sep : string) (l : list string) : string :=
  match l with
  | [] => EmptyString
  | [x] => x
  | x :: l' => x +:+ sep +:+ join sep l'
  end.

Section Page.
Context `{E : env}.

(** The script of [main.py] from the widgets' values to [results]:
    [genres] is the multiselect, [user_input] the text field. *)
Definition main_results (genres : list string) (user_input : string) : M (list item) :=
  match genres with
  | _ :: _ => recommend_anime (join " " genres)
  | [] =>
      if PyStr.truthy (PyStr.strip user_input)
      then recommend_anime (PyStr.strip user_input)
      else get_default_recs
  end.

End Page.

(** ** Vocabulary of the properties *)

(** What a call returns, when it returns. *)
Definition run {A} (m : M A) (w : world) : option A :=
  match m w with
  | Returned a _ => Some a
  | Raised _ => None
  end.

(** The requests a run has sent when it returns. *)
Definition requests_sent {A} (m : M A) (w : world) : list request :=
  match m w with
  | Returned _ w' => w_log w'
  | Raised _ => []
  end.

(** [m] never raises [KeyError]. *)
Definition no_KeyError {A} (m : M A) : Prop := ∀ w k, m w ≠ Raised (KeyError k).

(** The token list holds ["under"] directly followed by a token of digits
    whose value is [n]. *)
Definition under_then_digits (tokens : list string) (n : Z) : Prop :=
  ∃ i t, tokens !! i = Some "under" ∧ tokens !! S i = Some t
         ∧ PyStr.isdigit t = true ∧ PyStr.int t = Some n.

(** The token list holds ["under"] directly followed by a token of digits
    that [int] rejects. *)
Definition under_then_rejected (tokens : list string) : Prop :=
  ∃ i t, tokens !! i = Some "under" ∧ tokens !! S i = Some t
         ∧ PyStr.isdigit t = true ∧ PyStr.int t = None.




(** [desc key a b]: by its key, [a] may stand in front of [b]. *)
Definition desc {A} (key : A → Q) (a b : A) : Prop := (key b <= key a)%Q.

(** The loop of [random.shuffle] on the raw draws [js] it reads. *)
Fixpoint shuffle_with {A} (i : nat) (js : list nat) (x : list A) : list A :=
  match i, js with
  | S i', j :: js' => shuffle_with i' js' (swap i (j `mod` S i)%nat x)
  | _, _ => x
  end.

(** The next [n] raw draws of a generator. *)
Definition draws (g : rng) (n : nat) : list nat :=
  (fun k => tape g (cursor g + k)%nat) <$> seq 0 n.

(** [js] is a possible sequence of draws of the loop started at [i]: the
    draw for position [i] lies in [range(i + 1)]. *)
Fixpoint in_range (i : nat) (js : list nat) : Prop :=
  match i, js with
  | O, [] => True
  | S i', j :: js' => (j < S (S i'))%nat ∧ in_range i' js'
  | _, _ => False
  end.

(** [top] is what the last lines of both functions make of [candidates] in
    the world [w]: the shuffle the generator of [w] decides, sorted by
    decreasing score key, cut to ten. *)
Definition ranked (candidates : list anime) (w : world) (top : list anime) : Prop :=
  let n := (length candidates - 1)%nat in
  let shuffled := shuffle_with n (draws (w_rng w) n) candidates in
  shuffled ≡ₚ candidates
  ∧ top = take 10 (sorted_desc score_key shuffled)
  ∧ StronglySorted (desc score_key) top.

(** The remote side answers every request. *)
Definition responsive (E : env) : Prop :=
  (∀ gid page, is_Some (jikan_anime_by_genre gid page))
  ∧ (∀ q page, is_Some (jikan_anime_search q page))
  ∧ (∀ page, is_Some (jikan_top_anime page))
  ∧ (∀ q per_page, is_Some (anilist_media q per_page)).

(** Every average score the secondary catalog sends is small enough to be
    divided into a float. *)
Definition averages_convert (E : env) : Prop :=
  ∀ q per_page media,
    anilist_media q per_page = Some media → ∃ results, anilist_records media = inr results.

(** The codec reads its own output. *)
Definition codec_reads_own_output (E : env) : Prop :=
  ∀ cache, is_Some (json_load (json_dump cache)).

(** Nothing is in the way of the two cache files, and what they hold
    parses. *)
Definition cache_usable `{E : env} (fs : filesystem) : Prop :=
  files fs !! CACHE_DIR = None
  ∧ (∀ path, path ∈ [CACHE_PATH; ANILIST_CACHE_PATH] →
       (path ∉ dirs fs)
       ∧ ∀ text, files fs !! path = Some text → is_Some (json_load text)).

Section Chain.
Context `{E : env}.

(** Stated from the specification (section 4.5, steps 2 to 5): a list of
    guarded sources tried from top to bottom; a source whose guard holds is
    fetched, and the first one that yields candidates decides. *)
Fixpoint first_nonempty (sources : list (bool * M (list anime))) : M (list anime) :=
  match sources with
  | [] => ret []
  | (guard, fetch) :: rest =>
      if guard then
        let* candidates := fetch in
        match candidates with
        | [] => first_nonempty rest
        | _ => ret candidates
        end
      else first_nonempty rest
  end.

(** "fetch-by-genre for each matched genre (2 pages each), concatenate
    results" *)
Fixpoint fetch_each_genre (gs : list string) : M (list (list anime)) :=
  match gs with
  | [] => ret []
  | g :: gs' =>
      let* gid := genre_id_of g in
      let* data := fetch_by_genre gid 2 in
      let* rest := fetch_each_genre gs' in
      ret (data :: rest)
  end.

Definition fetch_genres (gs : list string) : M (list anime) :=
  let* results := fetch_each_genre gs in
  ret (concat results).

(** The chain genre, search, secondary catalog, trending; [nonempty] is
    the test "the query is non-empty". *)
Definition fallback_chain (nonempty : string → bool) (query : string) (p : parsed)
    : M (list anime) :=
  let has_genres := match genres p with [] => false | _ => true end in
  first_nonempty
    [ (has_genres, fetch_genres (genres p));
      (negb has_genres && nonempty query, fetch_search_mal query 1);
      (nonempty query, fetch_anilist query 10);
      (true, fetch_top_anime 2) ].

(** The query has a character that is not white space. *)
Definition nonblank (query : string) : bool := PyStr.truthy (PyStr.strip query).

End Chain.

(** *** Vocabulary of the string operations *)

(** All bytes of [t] are continuation bytes. *)
Fixpoint all_cont (t : string) : bool :=
  match t with
  | EmptyString => true
  | String b t' => PyStr.is_cont b && all_cont t'
  end.

(** [ch] has the shape of a character: a byte, then continuation bytes. *)
Definition char_shaped (ch : string) : bool :=
  match ch with
  | EmptyString => false
  | String _ t => all_cont t
  end.

(** A character that does not start with a continuation byte. *)
Definition proper_char (ch : string) : bool :=
  char_shaped ch && negb (PyStr.starts_cont ch).

(** [chs] is the list of characters of a string: only the first may start
    with a continuation byte. *)
Definition chunked (chs : list string) : Prop :=
  match chs with
  | [] => True
  | ch :: chs' => char_shaped ch = true ∧ Forall (fun ch => proper_char ch = true) chs'
  end.

(** A character [lower] leaves alone, wherever it stands. *)
Definition settled (ch : string) : bool :=
  proper_char ch && negb (bool_decide (ch = PyStr.capital_sigma))
  && bool_decide (PyStr.lower_char ch = [ch])
  && negb (PyStr.isspace ch).

(** [ch] is not the capital sigma, and [lower_char] maps it to itself. *)
Definition stable (ch : string) : Prop :=
  ch ≠ PyStr.capital_sigma ∧ PyStr.lower_char ch = [ch].

(** The characters one step of [lower_go] puts out for [ch]. *)
Definition lower_step (after_cased : bool) (ch : string) (chs' : list string) : list string :=
  if decide (ch = PyStr.capital_sigma)
  then [if after_cased && negb (PyStr.cased_ahead chs')
        then PyStr.final_sigma else PyStr.small_sigma]
  else PyStr.lower_char ch.

(** Some character of the list is not white space. *)
Definition has_nonspace (chs : list string) : bool :=
  existsb (fun ch => negb (PyStr.isspace ch)) chs.

(** The characters [strip] keeps. *)
Definition strip_chars (chs : list string) : list string :=
  PyStr.rstrip_chars (PyStr.lstrip_chars chs).







(** *** Vocabulary of the further properties *)

(** The cache key of [fetch_by_genre]: [f"genre_{genre_id}_p{pages}"]. *)
Definition genre_key (genre_id : Z) (pages : nat) : string :=
  "genre_" +:+ pretty genre_id +:+ "_p" +:+ pretty pages.

(** The answers of all [pages], when each page is answered. *)
Definition answers (answer : nat → option (list anime)) (pages : nat)
    : option (list anime) :=
  (fun ds => concat ds) <$> mapM answer (seq 1 pages).

(** [w] with [rqs] added to the log of requests. *)
Definition logged (rqs : list request) (w : world) : world :=
  World (w_fs w) (w_rng w) (w_log w ++ rqs).


(** [m] changes no regular file outside [paths]. *)
Definition writes_only {A} (paths : list string) (m : M A) : Prop :=
  ∀ w a w', m w = Returned a w' →
    ∀ path, path ∉ paths → files (w_fs w') !! path = files (w_fs w) !! path.


(** No character of [s] is [c]. *)
Fixpoint free_of (c : ascii) (s : string) : Prop :=
  match s with
  | EmptyString => True
  | String d s' => d ≠ c ∧ free_of c s'
  end.


(** [m] only adds requests to the log, and each of them satisfies [P]. *)
Definition sends_only {A} (P : request → Prop) (m : M A) : Prop :=
  ∀ w a w', m w = Returned a w' → ∃ rqs, w_log w' = w_log w ++ rqs ∧ Forall P rqs.

(** A request [recommend_anime] may send for a query that names genres:
    a page 1 or 2 of the listing of one of the genre ids [gids], the
    secondary catalog with the query and 10 results, or a page 1 or 2 of
    the top listing; never a free-text search. *)
Definition genre_path_request (gids : list Z) (query : string) (rq : request) : Prop :=
  match rq with
  | GetAnimeByGenre gid page => gid ∈ gids ∧ (page = 1 ∨ page = 2)%nat
  | GetAnimeSearch _ _ => False
  | GetTopAnime page => (page = 1 ∨ page = 2)%nat
  | PostAnilist q per_page => q = query ∧ per_page = 10%nat
  end.

(** ** An example environment

    A small catalog on which the program can be run.  The tagger marks
    every word a noun, Python's set order is the order of [elements], and
    the JSON codec knows two texts, that of the empty mapping and that of
    [demo_cache]. *)

Definition demo_search : list anime :=
  [ Anime "Erased" "https://myanimelist.net/anime/31043" (Some 12) (Some (853 # 100));
    Anime "Monster" "https://myanimelist.net/anime/19" (Some 74) (Some (889 # 100));
    Anime "FLCL" "https://myanimelist.net/anime/227" (Some 6) (Some (803 # 100));
    Anime "FLCL: Progressive" "https://myanimelist.net/anime/32681" (Some 6) (Some (667 # 100));
    Anime "Pupa" "https://myanimelist.net/anime/19315" (Some 12) (Some (331 # 100));
    Anime "Untitled Project" "https://myanimelist.net/anime/99999" None None;
    Anime "Boku dake ga Inai Machi" "https://myanimelist.net/anime/31043" (Some 12) (Some (853 # 100)) ].

Definition demo_top (page : nat) : list anime :=
  match page with
  | 1%nat =>
      [ Anime "Sousou no Frieren" "https://myanimelist.net/anime/52991" (Some 28) (Some (929 # 100));
        Anime "Fullmetal Alchemist: Brotherhood" "https://myanimelist.net/anime/5114" (Some 64) (Some (910 # 100));
        Anime "Steins;Gate" "https://myanimelist.net/anime/9253" (Some 24) (Some (907 # 100));
        Anime "Gintama" "https://myanimelist.net/anime/918" (Some 201) (Some (894 # 100));
        Anime "Hunter x Hunter" "https://myanimelist.net/anime/11061" (Some 148) (Some (903 # 100));
        Anime "Monster" "https://myanimelist.net/anime/19" (Some 74) (Some (889 # 100)) ]
  | 2%nat =>
      [ Anime "Mushishi" "https://myanimelist.net/anime/457" (Some 26) (Some (865 # 100));
        Anime "Vinland Saga" "https://myanimelist.net/anime/37521" (Some 24) (Some (878 # 100));
        Anime "Cowboy Bebop" "https://myanimelist.net/anime/1" (Some 26) (Some (875 # 100));
        Anime "One Piece" "https://myanimelist.net/anime/21" None (Some (873 # 100));
        Anime "Ping Pong the Animation" "https://myanimelist.net/anime/22135" (Some 11) (Some (861 # 100));
        Anime "Upcoming" "https://myanimelist.net/anime/60000" None None ]
  | _ => []
  end.

Definition demo_romance : list anime :=
  [ Anime "Toradora!" "https://myanimelist.net/anime/4224" (Some 25) (Some (805 # 100));
    Anime "Kaguya-sama: Love is War" "https://myanimelist.net/anime/37999" (Some 12) (Some (840 # 100)) ].

(** Titles that differ in the case of letters, in the white space around
    them and in what follows a colon or a dash. *)
Definition demo_spellings : list anime :=
  [ Anime "Pokémon" "https://myanimelist.net/anime/527" (Some 276) (Some (74 # 10));
    Anime "POKÉMON: XY" "https://myanimelist.net/anime/19291" (Some 93) (Some (75 # 10));
    Anime "  pokémon　 - The Movie" "https://myanimelist.net/anime/528" (Some 1) (Some (76 # 10));
    Anime "Digimon Adventure " "https://myanimelist.net/anime/552" (Some 54) (Some (78 # 10));
    Anime "DIGIMON ADVENTURE" "https://myanimelist.net/anime/553" (Some 50) (Some (79 # 10)) ].

Definition demo_cache : gmap string (list anime) :=
  {[ "mushishi" := [ Anime "Mushishi" "https://anilist.co/anime/457" (Some 26) (float_div10 85) ] ]}.

Definition dq : string := String (ascii_of_nat 34) EmptyString.
Definition nl : string := String (ascii_of_nat 10) EmptyString.
Definition json_quote (s : string) : string := dq +:+ s +:+ dq.

Fixpoint unlines (ls : list string) : string :=
  match ls with
  | [] => EmptyString
  | [l] => l
  | l :: ls' => l +:+ nl +:+ unlines ls'
  end.

(** The text [json.dump(demo_cache, f, ensure_ascii=False, indent=2)] writes. *)
Definition demo_cache_text : string :=
  unlines
    [ "{";
      "  " +:+ json_quote "mushishi" +:+ ": [";
      "    {";
      "      " +:+ json_quote "title" +:+ ": " +:+ json_quote "Mushishi" +:+ ",";
      "      " +:+ json_quote "url" +:+ ": " +:+ json_quote "https://anilist.co/anime/457" +:+ ",";
      "      " +:+ json_quote "score" +:+ ": 8.5,";
      "      " +:+ json_quote "episodes" +:+ ": 26";
      "    }";
      "  ]";
      "}" ].

Definition demo_json_load (text : string) : option (gmap string (list anime)) :=
  if decide (text = "{}") then Some ∅
  else if decide (text = demo_cache_text) then Some demo_cache
  else None.

Definition demo_json_dump (cache : gmap string (list anime)) : string :=
  if decide (cache = demo_cache) then demo_cache_text else "{}".

(** Every word is a token tagged [NOUN]; there are no noun chunks. *)
Definition demo_nlp (text : string) : doc :=
  Doc [] ((fun w => (w, NOUN)) <$> String.words text).

Definition demo_env : env := {|
  MAL_GENRES := {[ "action" := 1; "romance" := 22; "comedy" := 4 ]};
  nlp := demo_nlp;
  set_to_list := elements;
  set_to_list_perm := fun s => reflexivity (elements s);
  json_load := demo_json_load;
  json_dump := demo_json_dump;
  jikan_anime_by_genre := fun gid page =>
    if decide (gid = 22) then Some (if decide (page = 1%nat) then demo_romance else []) else Some [];
  jikan_anime_search := fun q page =>
    if decide (q = "untitled") then Some [ Anime EmptyString EmptyString None None ]
    else if decide (q = "zzz") then Some []
    else if decide (q = "pokemon") then Some demo_spellings
    else Some demo_search;
  jikan_top_anime := fun page => Some (demo_top page);
  anilist_media := fun q per_page =>
    if decide (q = "zzz") then Some [] else Some [ Media "Mushishi" "https://anilist.co/anime/457" (Some 85) (Some 26) ]
|}.

Definition demo_rng : rng := Rng (fun n => (7 * n + 3)%nat) 0.

(** A fresh start: no file, no directory, nothing sent yet. *)
Definition demo_world : world := World (FS ∅ ∅) demo_rng [].


(** A world whose genre cache file holds a truncated JSON text. *)
Definition broken_cache_world : world :=
  World (FS {[ CACHE_PATH := "{" ]} {[ CACHE_DIR ]}) demo_rng [].


(** The genre cache after the romance listing (genre 22, two pages) has
    been fetched in the example catalog. *)
Definition romance_cache : gmap string (list anime) :=
  {[ genre_key 22 2 := demo_romance ]}.

(** The text [json.dump(romance_cache, f, ensure_ascii=False, indent=2)] writes. *)
Definition romance_cache_text : string :=
  unlines
    [ "{";
      "  " +:+ json_quote "genre_22_p2" +:+ ": [";
      "    {";
      "      " +:+ json_quote "title" +:+ ": " +:+ json_quote "Toradora!" +:+ ",";
      "      " +:+ json_quote "url" +:+ ": " +:+ json_quote "https://myanimelist.net/anime/4224" +:+ ",";
      "      " +:+ json_quote "episodes" +:+ ": 25,";
      "      " +:+ json_quote "score" +:+ ": 8.05";
      "    },";
      "    {";
      "      " +:+ json_quote "title" +:+ ": " +:+ json_quote "Kaguya-sama: Love is War" +:+ ",";
      "      " +:+ json_quote "url" +:+ ": " +:+ json_quote "https://myanimelist.net/anime/37999" +:+ ",";
      "      " +:+ json_quote "episodes" +:+ ": 12,";
      "      " +:+ json_quote "score" +:+ ": 8.4";
      "    }";
      "  ]";
      "}" ].

(** The example environment with a codec that knows the text of
    [romance_cache] instead of that of [demo_cache]. *)
Definition romance_env : env := {|
  MAL_GENRES := @MAL_GENRES demo_env;
  nlp := demo_nlp;
  set_to_list := elements;
  set_to_list_perm := fun s => reflexivity (elements s);
  json_load := fun text =>
    if decide (text = "{}") then Some ∅
    else if decide (text = romance_cache_text) then Some romance_cache
    else None;
  json_dump := fun cache =>
    if decide (cache = romance_cache) then romance_cache_text else "{}";
  jikan_anime_by_genre := @jikan_anime_by_genre demo_env;
  jikan_anime_search := @jikan_anime_search demo_env;
  jikan_top_anime := @jikan_top_anime demo_env;
  anilist_media := @anilist_media demo_env
|}.

(** A world whose genre cache file holds [romance_cache_text]. *)
Definition romance_cached_world : world :=
  World (FS {[ CACHE_PATH := romance_cache_text ]} {[ CACHE_DIR ]}) demo_rng [].

(** * Properties *)

(** ** Python strings *)

Lemma append_cons (b : ascii) (s t : string) : String b s +:+ t = String b (s +:+ t).
Proof. reflexivity. Qed.


Lemma append_nil_l (t : string) : EmptyString +:+ t = t.
Proof. reflexivity. Qed.

Lemma chars_cons (b : ascii) (s : string) :
  PyStr.chars (String b s)
  = match PyStr.chars s with
    | ch :: chs =>
        if PyStr.starts_cont ch then String b ch :: chs
        else String b EmptyString :: ch :: chs
    | [] => [String b EmptyString]
    end.
Proof. reflexivity. Qed.

Lemma unchars_chars (s : string) : PyStr.unchars (PyStr.chars s) = s.
Proof.
  induction s as [|b s IH]; [done|]. cbn [PyStr.chars].
  destruct (PyStr.chars s) as [|ch chs]; [by rewrite <- IH|].
  destruct (PyStr.starts_cont ch); cbn [PyStr.unchars] in *;
    rewrite ?append_cons, ?append_nil_l; by rewrite IH.
Qed.

Lemma chars_head (b : ascii) (s : string) :
  ∃ t chs, PyStr.chars (String b s) = String b t :: chs.
Proof.
  cbn [PyStr.chars]. destruct (PyStr.chars s) as [|ch chs]; [by eexists _, _|].
  destruct (PyStr.starts_cont ch); by eexists _, _.
Qed.

Lemma proper_char_shaped (ch : string) : proper_char ch = true → char_shaped ch = true.
Proof. unfold proper_char. by intros [? _]%andb_true_iff. Qed.

Lemma chunked_proper (chs : list string) :
  Forall (fun ch => proper_char ch = true) chs → chunked chs.
Proof.
  destruct chs as [|ch chs]; [done|]. intros [Hch Hchs]%Forall_cons.
  split; [by apply proper_char_shaped|done].
Qed.

Lemma chars_chunked (s : string) : chunked (PyStr.chars s).
Proof.
  induction s as [|b s IH]; [done|]. cbn [PyStr.chars].
  destruct (PyStr.chars s) as [|ch chs]; [by split|].
  destruct IH as [Hch Hchs]. destruct (PyStr.starts_cont ch) eqn:Hc.
  - split; [|done]. destruct ch as [|c t]; [done|]. simpl in *. by rewrite Hc.
  - split; [done|]. apply Forall_cons. split; [|done].
    unfold proper_char. by rewrite Hch, Hc.
Qed.

Lemma chars_cont_tail (b : ascii) (t s : string) :
  all_cont t = true →
  match PyStr.chars s with [] => true | ch :: _ => negb (PyStr.starts_cont ch) end = true →
  PyStr.chars (String b (t +:+ s)) = String b t :: PyStr.chars s.
Proof.
  revert b. induction t as [|c t IH]; intros b Ht Hs.
  - rewrite append_nil_l. cbn [PyStr.chars]. destruct (PyStr.chars s) as [|ch chs]; [done|].
    apply negb_true_iff in Hs. by rewrite Hs.
  - simpl in Ht. apply andb_true_iff in Ht as [Hc Ht].
    rewrite append_cons, chars_cons, (IH c Ht Hs). simpl. by rewrite Hc.
Qed.

Lemma chars_unchars_proper (chs : list string) :
  Forall (fun ch => proper_char ch = true) chs → PyStr.chars (PyStr.unchars chs) = chs.
Proof.
  induction chs as [|ch chs IH]; [done|]. intros [Hch Hchs]%Forall_cons.
  specialize (IH Hchs). cbn [PyStr.unchars].
  destruct ch as [|b t]; [done|]. rewrite append_cons.
  apply andb_true_iff in Hch as [Ht _]. simpl in Ht.
  rewrite chars_cont_tail, IH; [done|done|]. rewrite IH.
  destruct chs as [|ch' chs']; [done|]. apply Forall_cons in Hchs as [Hch' _].
  by apply andb_true_iff in Hch' as [_ ?].
Qed.

Lemma chars_unchars (chs : list string) : chunked chs → PyStr.chars (PyStr.unchars chs) = chs.
Proof.
  destruct chs as [|ch chs]; [done|]. intros [Hch Hchs]. cbn [PyStr.unchars].
  destruct ch as [|b t]; [done|]. rewrite append_cons. simpl in Hch.
  pose proof (chars_unchars_proper chs Hchs) as Hrest.
  rewrite chars_cont_tail, Hrest; [done|done|]. rewrite Hrest.
  destruct chs as [|ch' chs']; [done|]. apply Forall_cons in Hchs as [Hch' _].
  by apply andb_true_iff in Hch' as [_ ?].
Qed.

Lemma assoc_elem_of {A} (c : Z) (table : list (Z * A)) (a : A) :
  PyStr.assoc c table = Some a → (c, a) ∈ table.
Proof.
  induction table as [|[c' a'] table IH]; [done|]. simpl.
  destruct (c =? c') eqn:Hc.
  - apply Z.eqb_eq in Hc as ->. intros [= ->]. left.
  - intros H. right. by apply IH.
Qed.

Lemma lower_table_settled :
  forallb (fun p : Z * list Z => forallb (fun c => settled (PyStr.encode c)) p.2)
          PyStr.lower_table = true.
Proof. vm_compute. reflexivity. Qed.

Lemma sigmas_settled :
  settled PyStr.small_sigma = true ∧ settled PyStr.final_sigma = true.
Proof. vm_compute. done. Qed.

(** What [lower_char] puts out is the character itself or settled. *)
Lemma lower_char_out (ch ch' : string) :
  ch' ∈ PyStr.lower_char ch →
  (ch' = ch ∧ PyStr.lower_char ch = [ch]) ∨ settled ch' = true.
Proof.
  unfold PyStr.lower_char. destruct (PyStr.assoc _ _) as [cs|] eqn:Hcs.
  - intros (c & -> & Hc)%list_elem_of_fmap. right.
    apply assoc_elem_of in Hcs.
    pose proof (proj1 (forallb_forall _ _) lower_table_settled _
                  (proj1 (list_elem_of_In _ _) Hcs)) as Hall. simpl in Hall.
    exact (proj1 (forallb_forall _ _) Hall _ (proj1 (list_elem_of_In _ _) Hc)).
  - intros ->%list_elem_of_singleton. by left.
Qed.

Lemma settled_stable (ch : string) : settled ch = true → stable ch.
Proof.
  unfold settled. rewrite !andb_true_iff, negb_true_iff.
  intros [[[_ Hs] Hl] _]. split; [by apply bool_decide_eq_false in Hs|].
  by apply bool_decide_eq_true in Hl.
Qed.

Lemma settled_proper (ch : string) : settled ch = true → proper_char ch = true.
Proof. unfold settled. rewrite !andb_true_iff. by intros [[[? _] _] _]. Qed.


Lemma lower_go_cons (b : bool) (ch : string) (chs : list string) :
  PyStr.lower_go b (ch :: chs)
  = lower_step b ch chs
    ++ PyStr.lower_go (if PyStr.ignorable ch then b else PyStr.cased ch) chs.
Proof. reflexivity. Qed.

Lemma lower_step_out (b : bool) (ch : string) (chs : list string) (ch' : string) :
  ch' ∈ lower_step b ch chs →
  (ch' = ch ∧ stable ch) ∨ settled ch' = true.
Proof.
  unfold lower_step. case_decide as Hs.
  - intros ->%list_elem_of_singleton. right.
    destruct sigmas_settled. by destruct (_ && _).
  - intros [[-> Hl]|?]%lower_char_out; [left|by right]. by split.
Qed.

Lemma lower_go_stable (b : bool) (chs : list string) : Forall stable (PyStr.lower_go b chs).
Proof.
  revert b. induction chs as [|ch chs IH]; intros b; [constructor|].
  rewrite lower_go_cons. apply Forall_app. split; [|apply IH].
  apply Forall_forall. intros ch' [[-> ?]|?%settled_stable]%lower_step_out; done.
Qed.

Lemma lower_go_fixed (b : bool) (chs : list string) :
  Forall stable chs → PyStr.lower_go b chs = chs.
Proof.
  revert b. induction chs as [|ch chs IH]; intros b; [done|].
  intros [[Hs Hl] Hchs]%Forall_cons. rewrite lower_go_cons, IH by done.
  unfold lower_step. rewrite decide_False by done. by rewrite Hl.
Qed.

Lemma lower_go_proper (b : bool) (chs : list string) :
  Forall (fun ch => proper_char ch = true) chs →
  Forall (fun ch => proper_char ch = true) (PyStr.lower_go b chs).
Proof.
  revert b. induction chs as [|ch chs IH]; intros b; [constructor|].
  intros [Hch Hchs]%Forall_cons. rewrite lower_go_cons. apply Forall_app.
  split; [|by apply IH]. apply Forall_forall.
  intros ch' [[-> ?]|?%settled_proper]%lower_step_out; done.
Qed.

Lemma lower_step_cases (b : bool) (ch : string) (chs : list string) :
  (lower_step b ch chs = [ch] ∧ stable ch)
  ∨ Forall (fun ch' => settled ch' = true) (lower_step b ch chs).
Proof.
  unfold lower_step. case_decide as Hs.
  - right. apply Forall_singleton. destruct sigmas_settled. by destruct (_ && _).
  - unfold PyStr.lower_char. destruct (PyStr.assoc _ _) as [cs|] eqn:Hcs.
    + right. apply assoc_elem_of in Hcs.
      pose proof (proj1 (forallb_forall _ _) lower_table_settled _
                    (proj1 (list_elem_of_In _ _) Hcs)) as Hall. simpl in Hall.
      apply Forall_fmap, Forall_forall. intros c Hc.
      exact (proj1 (forallb_forall _ _) Hall _ (proj1 (list_elem_of_In _ _) Hc)).
    + left. split; [done|]. split; [done|]. unfold PyStr.lower_char. by rewrite Hcs.
Qed.

Lemma lower_go_chunked (b : bool) (chs : list string) :
  chunked chs → chunked (PyStr.lower_go b chs).
Proof.
  destruct chs as [|ch chs]; [done|]. intros [Hch Hchs]. rewrite lower_go_cons.
  pose proof (lower_go_proper (if PyStr.ignorable ch then b else PyStr.cased ch) chs Hchs)
    as Hrest.
  destruct (lower_step_cases b ch chs) as [[-> _]|Hall]; [by split|].
  apply chunked_proper, Forall_app. split; [|done].
  eapply Forall_impl; [exact Hall|]. intros ch'. apply settled_proper.
Qed.

(** Lowercasing what is lowercased changes nothing. *)
Lemma lower_idemp (s : string) : PyStr.lower (PyStr.lower s) = PyStr.lower s.
Proof.
  unfold PyStr.lower. rewrite chars_unchars by apply lower_go_chunked, chars_chunked.
  by rewrite lower_go_fixed by apply lower_go_stable.
Qed.

Lemma lstrip_chars_nil (chs : list string) :
  PyStr.lstrip_chars chs = [] ↔ has_nonspace chs = false.
Proof.
  induction chs as [|ch chs IH]; [done|]. unfold PyStr.lstrip_chars in *. simpl.
  destruct (PyStr.isspace ch); simpl; [done|]. split; discriminate.
Qed.

Lemma rstrip_chars_nil (chs : list string) :
  PyStr.rstrip_chars chs = [] ↔ has_nonspace chs = false.
Proof.
  induction chs as [|ch chs IH]; [done|]. simpl.
  destruct (PyStr.rstrip_chars chs) as [|??].
  - rewrite (proj1 IH eq_refl), orb_false_r. destruct (PyStr.isspace ch); simpl; [done|].
    split; discriminate.
  - destruct (has_nonspace chs); [|discriminate (proj2 IH eq_refl)].
    rewrite orb_true_r. split; discriminate.
Qed.

Lemma lstrip_chars_head (chs : list string) :
  match PyStr.lstrip_chars chs with [] => True | ch :: _ => PyStr.isspace ch = false end.
Proof.
  induction chs as [|ch chs IH]; [done|]. unfold PyStr.lstrip_chars in *. simpl.
  by destruct (PyStr.isspace ch) eqn:Hch.
Qed.

Lemma lstrip_chars_id (ch : string) (chs : list string) :
  PyStr.isspace ch = false → PyStr.lstrip_chars (ch :: chs) = ch :: chs.
Proof. intros Hch. unfold PyStr.lstrip_chars. simpl. by rewrite Hch. Qed.

Lemma rstrip_chars_cons (ch : string) (chs : list string) :
  PyStr.isspace ch = false →
  PyStr.rstrip_chars (ch :: chs) = ch :: PyStr.rstrip_chars chs.
Proof. intros Hch. simpl. rewrite Hch. by destruct (PyStr.rstrip_chars chs). Qed.

Lemma rstrip_chars_idemp (chs : list string) :
  PyStr.rstrip_chars (PyStr.rstrip_chars chs) = PyStr.rstrip_chars chs.
Proof.
  induction chs as [|ch chs IH]; [done|]. simpl.
  destruct (PyStr.rstrip_chars chs) as [|k kept] eqn:Hk.
  - destruct (PyStr.isspace ch) eqn:Hch; [done|]. simpl. by rewrite Hch.
  - change (PyStr.rstrip_chars (ch :: k :: kept)) with
      (match PyStr.rstrip_chars (k :: kept) with
       | [] => if PyStr.isspace ch then [] else [ch]
       | r => ch :: r
       end).
    by rewrite IH.
Qed.

Lemma strip_chars_head (chs : list string) :
  match strip_chars chs with [] => True | ch :: _ => PyStr.isspace ch = false end.
Proof.
  unfold strip_chars. pose proof (lstrip_chars_head chs) as Hh.
  destruct (PyStr.lstrip_chars chs) as [|ch l]; [done|]. by rewrite rstrip_chars_cons.
Qed.

Lemma strip_chars_idemp (chs : list string) :
  strip_chars (strip_chars chs) = strip_chars chs.
Proof.
  pose proof (strip_chars_head chs) as Hh. unfold strip_chars at 1.
  destruct (strip_chars chs) as [|ch l] eqn:Hs; [done|].
  rewrite lstrip_chars_id by done. rewrite <- Hs. apply rstrip_chars_idemp.
Qed.

Lemma lstrip_chars_suffix (chs : list string) :
  ∃ front, chs = front ++ PyStr.lstrip_chars chs.
Proof.
  induction chs as [|ch chs [front IH]]; [by exists []|]. unfold PyStr.lstrip_chars in *.
  simpl. destruct (PyStr.isspace ch); [|by exists []].
  exists (ch :: front). simpl. by rewrite <- IH.
Qed.

Lemma rstrip_chars_prefix (chs : list string) :
  ∃ back, chs = PyStr.rstrip_chars chs ++ back.
Proof.
  induction chs as [|ch chs [back IH]]; [by exists []|]. simpl.
  destruct (PyStr.rstrip_chars chs) as [|k kept].
  - destruct (PyStr.isspace ch); [by exists (ch :: chs)|]. exists chs. done.
  - exists back. simpl in *. by rewrite <- IH.
Qed.

Lemma chunked_app_l (l1 l2 : list string) : chunked (l1 ++ l2) → chunked l1.
Proof.
  destruct l1 as [|ch l1]; [done|]. simpl. intros [? [? _]%Forall_app]. by split.
Qed.

Lemma chunked_app_r (l1 l2 : list string) : chunked (l1 ++ l2) → chunked l2.
Proof.
  destruct l1 as [|ch l1]; [done|]. simpl. intros [_ [_ ?]%Forall_app].
  by apply chunked_proper.
Qed.

Lemma strip_chars_chunked (chs : list string) : chunked chs → chunked (strip_chars chs).
Proof.
  intros Hc. unfold strip_chars.
  destruct (lstrip_chars_suffix chs) as [front Hf].
  destruct (rstrip_chars_prefix (PyStr.lstrip_chars chs)) as [back Hb].
  rewrite Hf in Hc. apply chunked_app_r in Hc. rewrite Hb in Hc.
  by apply chunked_app_l in Hc.
Qed.

Lemma chars_strip (s : string) : PyStr.chars (PyStr.strip s) = strip_chars (PyStr.chars s).
Proof. apply chars_unchars, strip_chars_chunked, chars_chunked. Qed.

(** Stripping what is stripped changes nothing. *)
Lemma strip_idemp (s : string) : PyStr.strip (PyStr.strip s) = PyStr.strip s.
Proof.
  unfold PyStr.strip at 1. fold (strip_chars (PyStr.chars (PyStr.strip s))).
  by rewrite chars_strip, strip_chars_idemp.
Qed.

Lemma chars_nil (s : string) : PyStr.chars s = [] ↔ s = EmptyString.
Proof.
  split; [|by intros ->]. destruct s as [|b s]; [done|].
  by destruct (chars_head b s) as (t & chs & ->).
Qed.

Lemma truthy_chars (s : string) :
  PyStr.truthy s = match PyStr.chars s with [] => false | _ => true end.
Proof.
  destruct s as [|b s]; [done|]. by destruct (chars_head b s) as (t & chs & ->).
Qed.

Lemma has_nonspace_lstrip_chars (chs : list string) :
  has_nonspace (PyStr.lstrip_chars chs) = has_nonspace chs.
Proof.
  induction chs as [|ch chs IH]; [done|]. unfold PyStr.lstrip_chars in *. simpl.
  destruct (PyStr.isspace ch) eqn:Hch; simpl; [done|]. by rewrite Hch.
Qed.

Lemma has_nonspace_rstrip_chars (chs : list string) :
  has_nonspace (PyStr.rstrip_chars chs) = has_nonspace chs.
Proof.
  induction chs as [|ch chs IH]; [done|]. simpl.
  destruct (PyStr.rstrip_chars chs) as [|k kept].
  - rewrite <- IH. simpl. destruct (PyStr.isspace ch) eqn:Hch; simpl; [done|]. by rewrite Hch.
  - rewrite <- IH. done.
Qed.

Lemma has_nonspace_strip_chars (chs : list string) :
  has_nonspace (strip_chars chs) = has_nonspace chs.
Proof.
  unfold strip_chars. by rewrite has_nonspace_rstrip_chars, has_nonspace_lstrip_chars.
Qed.

(** [s.strip()] is non-empty exactly when [s] has a character that is not
    white space. *)
Lemma truthy_strip (s : string) :
  PyStr.truthy (PyStr.strip s) = has_nonspace (PyStr.chars s).
Proof.
  rewrite truthy_chars, chars_strip. rewrite <- has_nonspace_strip_chars.
  pose proof (rstrip_chars_nil (strip_chars (PyStr.chars s))) as Hnil.
  unfold strip_chars in Hnil at 1. rewrite rstrip_chars_idemp in Hnil.
  fold (strip_chars (PyStr.chars s)) in Hnil.
  destruct (strip_chars (PyStr.chars s)) as [|??].
  - symmetry. by apply Hnil.
  - destruct (has_nonspace _); [done|]. discriminate (proj2 Hnil eq_refl).
Qed.

(** *** [isdigit] and [int] *)
Lemma decimal_val_range (ch : string) (d : Z) :
  PyStr.decimal_val ch = Some d → 0 ≤ d ≤ 9.
Proof.
  unfold PyStr.decimal_val. destruct (List.find _ _); [|done]. simpl.
  intros [= <-]. pose proof (Z.mod_pos_bound (PyStr.code_point ch - p.1) 10). lia.
Qed.

Lemma int_go_nonneg (acc : Z) (chs : list string) (n : Z) :
  0 ≤ acc → PyStr.int_go acc chs = Some n → 0 ≤ n.
Proof.
  revert acc. induction chs as [|ch chs IH]; intros acc Hacc; simpl.
  - by intros [= <-].
  - destruct (PyStr.decimal_val ch) as [d|] eqn:Hd; [|done].
    apply IH. apply decimal_val_range in Hd. lia.
Qed.

(** [int] of a string of digits is never negative. *)
Lemma int_nonneg (s : string) (n : Z) : PyStr.int s = Some n → 0 ≤ n.
Proof.
  unfold PyStr.int. destruct (_ <? _)%nat; [done|]. by apply int_go_nonneg.
Qed.









































(** ** The monad *)

Lemma bind_Returned {A B} (m : M A) (k : A → M B) w b w' :
  bind m k w = Returned b w' ↔ ∃ a w1, m w = Returned a w1 ∧ k a w1 = Returned b w'.
Proof.
  unfold bind. destruct (m w) as [e|a w1]; split.
  - discriminate.
  - intros (a & w1 & Hm & _). discriminate.
  - eauto.
  - intros (a' & w1' & Hm & Hk). by simplify_eq.
Qed.

Lemma bind_Raised {A B} (m : M A) (k : A → M B) w e :
  bind m k w = Raised e ↔
  m w = Raised e ∨ ∃ a w1, m w = Returned a w1 ∧ k a w1 = Raised e.
Proof.
  unfold bind. destruct (m w) as [e'|a w1]; split.
  - intros [= ->]. by left.
  - intros [[= ->]|(a & w1 & Hm & _)]; [done|discriminate].
  - right. eauto.
  - intros [?|(a' & w1' & Hm & Hk)]; [discriminate|by simplify_eq].
Qed.

Lemma ret_Returned {A} (a b : A) w w' : ret a w = Returned b w' ↔ a = b ∧ w = w'.
Proof. unfold ret. split; [by intros [= -> ->]|by intros [-> ->]]. Qed.

(** ** Deduplication *)

Section Dedupe.
Context (k : anime → string).

Lemma dedupe_loop_first_seen l seen unique :
  dedupe_loop k l seen unique = unique ++ first_seen k seen l.
Proof.
  revert seen unique. induction l as [|a l IH]; intros seen unique; simpl.
  - by rewrite app_nil_r.
  - case_bool_decide; rewrite IH; [done|]. by rewrite <- app_assoc.
Qed.

Lemma first_seen_sublist seen l : first_seen k seen l `sublist_of` l.
Proof.
  revert seen. induction l as [|a l IH]; intros seen; simpl; [constructor|].
  case_bool_decide; [apply sublist_cons|apply sublist_skip]; apply IH.
Qed.

Lemma first_seen_fresh seen l a : a ∈ first_seen k seen l → k a ∉ seen.
Proof.
  revert seen. induction l as [|b l IH]; intros seen; simpl; [by intros ?%elem_of_nil|].
  case_bool_decide as Hb.
  - apply IH.
  - intros [->|Ha%IH]%elem_of_cons; [done|]. set_solver.
Qed.

Lemma first_seen_NoDup seen l : NoDup (k <$> first_seen k seen l).
Proof.
  revert seen. induction l as [|a l IH]; intros seen; simpl; [constructor|].
  case_bool_decide as Ha; [apply IH|].
  rewrite fmap_cons. constructor; [|apply IH].
  intros (b & Hkb & Hb%first_seen_fresh)%list_elem_of_fmap. set_solver.
Qed.



End Dedupe.

(** ** [random.shuffle] *)

Lemma swap_Permutation {A} (i j : nat) (x : list A) : swap i j x ≡ₚ x.
Proof.
  unfold swap. destruct (x !! i) as [xi|] eqn:Hi; [|done].
  destruct (x !! j) as [xj|] eqn:Hj; [|done].
  by apply Permutation_insert_swap.
Qed.

Lemma swap_length {A} (i j : nat) (x : list A) : length (swap i j x) = length x.
Proof. apply Permutation_length, swap_Permutation. Qed.

(** The loop always returns: it reads [i] draws, leaves the files and the
    request log alone, and ends with a rearrangement of its list. *)
Lemma shuffle_loop_Returned {A} (i : nat) (x : list A) w :
  ∃ x', shuffle_loop i x w =
          Returned x' (World (w_fs w) (Rng (tape (w_rng w)) (cursor (w_rng w) + i)) (w_log w))
        ∧ x' ≡ₚ x.
Proof.
  revert x w. induction i as [|i IH]; intros x w.
  - exists x. split; [|done]. unfold shuffle_loop, ret.
    destruct w as [fs [t c] lg]; simpl. by rewrite Nat.add_0_r.
  - simpl. unfold bind, randbelow.
    match goal with |- ∃ x', shuffle_loop i ?y ?w1 = _ ∧ _ =>
      destruct (IH y w1) as (x' & Hrun & Hperm) end.
    exists x'. split.
    + rewrite Hrun. simpl. do 3 f_equal. lia.
    + by rewrite Hperm, swap_Permutation.
Qed.

Lemma random_shuffle_Returned {A} (x : list A) w :
  ∃ x' w', random_shuffle x w = Returned x' w' ∧ x' ≡ₚ x
           ∧ w_fs w' = w_fs w ∧ w_log w' = w_log w.
Proof.
  unfold random_shuffle.
  destruct (shuffle_loop_Returned (length x - 1) x w) as (x' & Hrun & Hperm).
  eauto 10.
Qed.

(** ** [sorted(key=..., reverse=True)] *)

Section Sorted.
Context {A : Type} (key : A → Q).

Lemma Qltb_lt (x y : Q) : Qltb x y = true ↔ (x < y)%Q.
Proof.
  unfold Qltb. rewrite negb_true_iff, <- not_true_iff_false, Qle_bool_iff.
  split; [apply Qnot_le_lt|apply Qlt_not_le].
Qed.

Lemma Qltb_ge (x y : Q) : Qltb x y = false ↔ (y <= x)%Q.
Proof. unfold Qltb. by rewrite negb_false_iff, Qle_bool_iff. Qed.

Lemma insert_desc_Permutation (a : A) (l : list A) : insert_desc key a l ≡ₚ a :: l.
Proof.
  induction l as [|b l IH]; simpl; [done|].
  destruct (Qltb (key a) (key b)); [|done].
  rewrite IH. apply perm_swap.
Qed.

Lemma sorted_desc_Permutation (l : list A) : sorted_desc key l ≡ₚ l.
Proof.
  induction l as [|a l IH]; simpl; [done|].
  by rewrite insert_desc_Permutation, IH.
Qed.

Lemma insert_desc_StronglySorted (a : A) (l : list A) :
  StronglySorted (desc key) l → StronglySorted (desc key) (insert_desc key a l).
Proof.
  induction 1 as [|b l Hl IH Hb]; simpl.
  - repeat constructor.
  - destruct (Qltb (key a) (key b)) eqn:Hab.
    + constructor; [done|].
      rewrite insert_desc_Permutation. constructor; [|done].
      apply Qltb_lt in Hab. unfold desc. by apply Qlt_le_weak.
    + apply Qltb_ge in Hab. constructor; [by constructor|].
      constructor; [done|].
      eapply Forall_impl; [exact Hb|]. unfold desc. intros c Hc.
      by apply Qle_trans with (key b).
Qed.

Lemma sorted_desc_StronglySorted (l : list A) : StronglySorted (desc key) (sorted_desc key l).
Proof.
  induction l as [|a l IH]; simpl; [constructor|].
  by apply insert_desc_StronglySorted.
Qed.

(** Stability: the records of any one key keep the order they had. *)
Lemma insert_desc_stable (q : Q) (a : A) (l : list A) :
  filter (fun b => (key b == q)%Q) (insert_desc key a l)
  = filter (fun b => (key b == q)%Q) (a :: l).
Proof.
  induction l as [|b l IH]; simpl; [done|].
  destruct (Qltb (key a) (key b)) eqn:Hab; [|done].
  apply Qltb_lt in Hab.
  rewrite (filter_cons _ b), IH, !filter_cons.
  destruct (decide (key a == q)%Q) as [Ha|Ha], (decide (key b == q)%Q) as [Hb|Hb];
    try done.
  rewrite Ha, Hb in Hab. by apply Qlt_irrefl in Hab.
Qed.

Lemma sorted_desc_stable (q : Q) (l : list A) :
  filter (fun b => (key b == q)%Q) (sorted_desc key l)
  = filter (fun b => (key b == q)%Q) l.
Proof.
  induction l as [|a l IH]; simpl; [done|].
  rewrite insert_desc_stable, !filter_cons, IH. done.
Qed.

(** A list in decreasing order of the key is determined by its records of
    each key, taken in order: a stable sort has one possible result. *)
Lemma stable_sort_unique (s1 s2 : list A) :
  StronglySorted (desc key) s1 → StronglySorted (desc key) s2 →
  (∀ q, filter (fun b => (key b == q)%Q) s1 = filter (fun b => (key b == q)%Q) s2) →
  s1 = s2.
Proof.
  intros Hs1. revert s2. induction Hs1 as [|a t1 Ht1 IH Ha]; intros s2 Hs2 Hf.
  - destruct s2 as [|b t2]; [done|].
    specialize (Hf (key b)). rewrite filter_cons_True in Hf by reflexivity. done.
  - destruct Hs2 as [|b t2 Ht2 Hb].
    { specialize (Hf (key a)). rewrite filter_cons_True in Hf by reflexivity. done. }
    assert (Hab : (key a == key b)%Q).
    { apply Qle_antisym.
      - pose proof (Hf (key a)) as Hq. rewrite filter_cons_True in Hq by reflexivity.
        rewrite filter_cons in Hq. destruct (decide (key b == key a)%Q) as [Hba|Hba].
        + rewrite Hba. apply Qle_refl.
        + assert (a ∈ filter (fun b => (key b == key a)%Q) t2) as [_ Hin]%list_elem_of_filter
            by (rewrite <- Hq; by left).
          exact (proj1 (Forall_forall _ _) Hb a Hin).
      - pose proof (Hf (key b)) as Hq. rewrite (filter_cons_True _ b) in Hq by reflexivity.
        rewrite filter_cons in Hq. destruct (decide (key a == key b)%Q) as [Hba|Hba].
        + rewrite Hba. apply Qle_refl.
        + assert (b ∈ filter (fun c => (key c == key b)%Q) t1) as [_ Hin]%list_elem_of_filter
            by (rewrite Hq; by left).
          exact (proj1 (Forall_forall _ _) Ha b Hin). }
    assert (a = b) as <-.
    { pose proof (Hf (key a)) as Hq.
      rewrite filter_cons_True in Hq by reflexivity.
      rewrite filter_cons_True in Hq by (by symmetry). by injection Hq. }
    f_equal. apply IH; [done|]. intros q. specialize (Hf q).
    rewrite !filter_cons in Hf. destruct (decide (key a == q)%Q); [by injection Hf|done].
Qed.

Lemma sorted_desc_unique (l s : list A) :
  StronglySorted (desc key) s →
  (∀ q, filter (fun b => (key b == q)%Q) s = filter (fun b => (key b == q)%Q) l) →
  s = sorted_desc key l.
Proof.
  intros Hs Hf. apply stable_sort_unique; [done|apply sorted_desc_StronglySorted|].
  intros q. by rewrite Hf, sorted_desc_stable.
Qed.
Lemma StronglySorted_take (R : relation A) (n : nat) (l : list A) :
  StronglySorted R l → StronglySorted R (take n l).
Proof.
  intros Hl. revert n. induction Hl as [|a l Hl IH Ha]; intros [|n]; simpl;
    try constructor; [apply IH|].
  apply Forall_forall. intros x Hx.
  eapply elem_of_sublist in Hx; [|apply sublist_take].
  revert x Hx. by apply Forall_forall.
Qed.

End Sorted.

(** ** The intent parser *)

Section Parser.
Context `{E : env}.

Lemma extract_keywords_NoDup (text : string) : NoDup (extract_keywords text).
Proof.
  unfold extract_keywords. rewrite set_to_list_perm. apply NoDup_elements.
Qed.

Lemma list_index_Some (x : string) (l : list string) (i : nat) :
  list_index x l = Some i → l !! i = Some x.
Proof.
  revert i. induction l as [|t l IH]; intros i; simpl; [done|].
  case_decide as Ht; [by intros [= <-]; subst|].
  destruct (list_index x l) as [j|]; [|done].
  intros [= <-]. by apply IH.
Qed.

Lemma list_index_None (x : string) (l : list string) :
  list_index x l = None → x ∉ l.
Proof.
  induction l as [|t l IH]; simpl; [intros _; apply not_elem_of_nil|].
  case_decide as Ht; [done|].
  destruct (list_index x l) as [j|]; [done|].
  intros _ [->|Hx]%elem_of_cons; [done|]. by apply IH.
Qed.

Lemma list_index_NoDup (x : string) (l : list string) (i : nat) :
  NoDup l → l !! i = Some x → list_index x l = Some i.
Proof.
  intros Hl Hi. destruct (list_index x l) as [j|] eqn:Hj.
  - apply list_index_Some in Hj. f_equal. by eapply NoDup_lookup.
  - apply list_index_None in Hj. destruct Hj. by eapply list_elem_of_lookup_2.
Qed.

Lemma parse_max_episodes_Some (tokens : list string) (n : Z) :
  NoDup tokens →
  parse_max_episodes tokens = inr (Some n) ↔ under_then_digits tokens n.
Proof.
  intros Hnd. unfold parse_max_episodes. split.
  - destruct (list_index "under" tokens) as [idx|] eqn:Hidx; [|done].
    apply list_index_Some in Hidx. rewrite Nat.add_1_r.
    destruct (tokens !! S idx) as [t|] eqn:Ht; [|done].
    destruct (PyStr.isdigit t) eqn:Hd; [|done].
    destruct (PyStr.int t) as [n'|] eqn:Hn; [|done].
    intros [= <-]. by exists idx, t.
  - intros (i & t & Hi & Ht & Hd & Hn).
    by rewrite (list_index_NoDup _ _ _ Hnd Hi), Nat.add_1_r, Ht, Hd, Hn.
Qed.

Lemma parse_max_episodes_raises (tokens : list string) (e : exn) :
  NoDup tokens →
  parse_max_episodes tokens = inl e ↔ e = ValueError ∧ under_then_rejected tokens.
Proof.
  intros Hnd. unfold parse_max_episodes. split.
  - destruct (list_index "under" tokens) as [idx|] eqn:Hidx; [|done].
    apply list_index_Some in Hidx. rewrite Nat.add_1_r.
    destruct (tokens !! S idx) as [t|] eqn:Ht; [|done].
    destruct (PyStr.isdigit t) eqn:Hd; [|done].
    destruct (PyStr.int t) as [n'|] eqn:Hn; [done|].
    intros [= <-]. split; [done|]. by exists idx, t.
  - intros [-> (i & t & Hi & Ht & Hd & Hn)].
    by rewrite (list_index_NoDup _ _ _ Hnd Hi), Nat.add_1_r, Ht, Hd, Hn.
Qed.


(** What [parse_user_request] returns, when it returns. *)
Lemma parse_user_request_inr (text : string) (p : parsed) :
  parse_user_request text = inr p ↔
  ∃ max_eps,
    parse_max_episodes (extract_keywords text) = inr max_eps
    ∧ p = Parsed (filter (fun tok => is_Some (MAL_GENRES !! tok)) (extract_keywords text))
                 max_eps
                 (if bool_decide ("hidden" ∈ extract_keywords text)
                     && bool_decide ("gem" ∈ extract_keywords text)
                  then Some HiddenGem else None).
Proof.
  unfold parse_user_request. destruct (parse_max_episodes _) as [e|max_eps].
  - split; [done|]. by intros (? & ? & _).
  - split.
    + intros [= <-]. by exists max_eps.
    + by intros (? & [= <-] & ->).
Qed.

Lemma parse_user_request_inl (text : string) (e : exn) :
  parse_user_request text = inl e ↔ parse_max_episodes (extract_keywords text) = inl e.
Proof.
  unfold parse_user_request. destruct (parse_max_episodes _) as [e'|max_eps]; [|done].
  split; by intros [= <-].
Qed.


(** The genres of the parsed intent are tokens that are keys of the
    directory. *)
Lemma parsed_genres_in_directory (text : string) (p : parsed) :
  parse_user_request text = inr p →
  Forall (fun g => is_Some (MAL_GENRES !! g)) (genres p).
Proof.
  intros (m & _ & ->)%parse_user_request_inr. simpl. apply Forall_forall.
  intros g Hg. by apply list_elem_of_filter in Hg as [Hg _].
Qed.

End Parser.

(** ** Which exceptions the fetchers raise *)

Section NoKeyError.
Context `{E : env}.

Lemma no_KeyError_ret {A} (a : A) : no_KeyError (ret a).
Proof. by intros w k. Qed.

Lemma no_KeyError_bind {A B} (m : M A) (f : A → M B) :
  no_KeyError m → (∀ a, no_KeyError (f a)) → no_KeyError (bind m f).
Proof.
  intros Hm Hf w k [Hr|(a & w1 & _ & Hr)]%bind_Raised; [by eapply Hm|by eapply Hf].
Qed.

Lemma no_KeyError_http {A} (rq : request) (answer : option A) : no_KeyError (http rq answer).
Proof. intros w k. unfold http. by destruct answer. Qed.

Lemma no_KeyError_read_text (path : string) : no_KeyError (read_text path).
Proof.
  intros w k. unfold read_text. destruct (files (w_fs w) !! path); [done|].
  by case_bool_decide.
Qed.

Lemma no_KeyError_write_text (path text : string) : no_KeyError (write_text path text).
Proof.
  intros w k. unfold write_text. repeat case_bool_decide; try done.
  all: by destruct (PyStr.truthy _).
Qed.

Lemma no_KeyError_os_makedirs (name : string) : no_KeyError (os_makedirs name).
Proof. intros w k. unfold os_makedirs. by case_bool_decide. Qed.

Lemma no_KeyError_load_cache (path : string) : no_KeyError (_load_cache path).
Proof.
  intros w k. unfold _load_cache. destruct (os_path_exists path (w_fs w)); [|done].
  apply no_KeyError_bind; [apply no_KeyError_read_text|].
  intros text. by destruct (json_load text).
Qed.

Lemma no_KeyError_save_cache (path : string) cache : no_KeyError (_save_cache path cache).
Proof.
  apply no_KeyError_bind; [apply no_KeyError_os_makedirs|].
  intros _. apply no_KeyError_write_text.
Qed.

Lemma no_KeyError_page_loop get pages all_data :
  (∀ page, no_KeyError (get page)) → no_KeyError (page_loop get pages all_data).
Proof.
  intros Hget. revert all_data. induction pages as [|page pages IH]; intros all_data; simpl.
  - apply no_KeyError_ret.
  - apply no_KeyError_bind; [apply Hget|]. intros data. apply IH.
Qed.

Lemma no_KeyError_fetch_by_genre (genre_id : Z) (pages : nat) :
  no_KeyError (fetch_by_genre genre_id pages).
Proof.
  apply no_KeyError_bind; [apply no_KeyError_load_cache|]. intros cache.
  cbv zeta. destruct (cache !! _); [apply no_KeyError_ret|].
  apply no_KeyError_bind.
  { apply no_KeyError_page_loop. intros page. apply no_KeyError_http. }
  intros all_data. apply no_KeyError_bind; [apply no_KeyError_save_cache|].
  intros _. apply no_KeyError_ret.
Qed.

Lemma no_KeyError_fetch_search_mal (query : string) (pages : nat) :
  no_KeyError (fetch_search_mal query pages).
Proof. apply no_KeyError_page_loop. intros page. apply no_KeyError_http. Qed.

Lemma no_KeyError_fetch_top_anime (pages : nat) : no_KeyError (fetch_top_anime pages).
Proof. apply no_KeyError_page_loop. intros page. apply no_KeyError_http. Qed.

(** The conversion of the secondary catalog's entries raises nothing but
    [OverflowError]. *)
Lemma anilist_records_raises (media : list media) (e : exn) :
  anilist_records media = inl e → e = OverflowError.
Proof.
  induction media as [|m media IH]; simpl; [done|].
  unfold anilist_record, anilist_score.
  destruct (averageScore m) as [n|].
  - destruct (float_div10 n); [|by intros [= <-]].
    destruct (anilist_records media); [|done]. intros [= <-]. by apply IH.
  - destruct (anilist_records media); [|done]. intros [= <-]. by apply IH.
Qed.

Lemma no_KeyError_fetch_anilist (query : string) (per_page : nat) :
  no_KeyError (fetch_anilist query per_page).
Proof.
  apply no_KeyError_bind; [apply no_KeyError_load_cache|]. intros cache.
  cbv zeta. destruct (cache !! _); [apply no_KeyError_ret|].
  apply no_KeyError_bind; [apply no_KeyError_http|].
  intros media. apply no_KeyError_bind.
  { intros w k. destruct (anilist_records media) as [e|results] eqn:Hr; [|done].
    apply anilist_records_raises in Hr as ->. done. }
  intros results. apply no_KeyError_bind; [apply no_KeyError_save_cache|].
  intros _. apply no_KeyError_ret.
Qed.

Lemma no_KeyError_genre_loop (gs : list string) (candidates : list anime) :
  Forall (fun g => is_Some (MAL_GENRES !! g)) gs → no_KeyError (genre_loop gs candidates).
Proof.
  intros Hgs. revert candidates.
  induction Hgs as [|g gs [gid Hg] _ IH]; intros candidates; simpl.
  - apply no_KeyError_ret.
  - apply no_KeyError_bind.
    { unfold genre_id_of. rewrite Hg. apply no_KeyError_ret. }
    intros gid'. apply no_KeyError_bind; [apply no_KeyError_fetch_by_genre|].
    intros data. apply IH.
Qed.

Lemma no_KeyError_random_shuffle {A} (x : list A) : no_KeyError (random_shuffle x).
Proof.
  intros w k. destruct (random_shuffle_Returned x w) as (x' & w' & -> & _). done.
Qed.

Lemma no_KeyError_gather_candidates (query : string) (p : parsed) :
  Forall (fun g => is_Some (MAL_GENRES !! g)) (genres p) →
  no_KeyError (gather_candidates query p).
Proof.
  intros Hgs. unfold gather_candidates.
  apply no_KeyError_bind.
  { destruct (genres p) eqn:Hp; [|by apply no_KeyError_genre_loop].
    destruct (PyStr.truthy _); [apply no_KeyError_fetch_search_mal|apply no_KeyError_ret]. }
  intros candidates. apply no_KeyError_bind.
  { destruct candidates; [|apply no_KeyError_ret].
    destruct (PyStr.truthy _); [apply no_KeyError_fetch_anilist|apply no_KeyError_ret]. }
  intros [|??]; [apply no_KeyError_fetch_top_anime|apply no_KeyError_ret].
Qed.

(** C10.  The genres [parse_user_request] produces are keys of the genre
    directory, so the lookup [MAL_GENRES[g]] in [recommend_anime] never
    fails: no run of [recommend_anime] raises [KeyError]. *)
Theorem recommend_anime_genre_lookup_never_fails (query : string) :
  (∀ p, parse_user_request query = inr p →
     Forall (fun g => is_Some (MAL_GENRES !! g)) (genres p)
     ∧ (∀ g, g ∈ genres p → ∀ w, ∃ gid, genre_id_of g w = Returned gid w))
  ∧ (∀ w k, recommend_anime query w ≠ Raised (KeyError k)).
Proof.
  split.
  - intros p Hgs%parsed_genres_in_directory. split; [done|].
    intros g Hg w. eapply Forall_forall in Hgs as [gid Hgid]; [|done].
    exists gid. unfold genre_id_of. by rewrite Hgid.
  - intros w k. unfold recommend_anime.
    destruct (parse_user_request query) as [e|p] eqn:Hp.
    + apply parse_user_request_inl, parse_max_episodes_raises in Hp as [-> _];
        [done|apply extract_keywords_NoDup].
    + apply parsed_genres_in_directory in Hp.
      change (bind (lift (inr p)) ?k w) with (k p w). revert w k.
      apply no_KeyError_bind; [by apply no_KeyError_gather_candidates|].
      intros candidates. apply no_KeyError_bind; [|intros; apply no_KeyError_ret].
      apply no_KeyError_bind; [apply no_KeyError_random_shuffle|].
      intros; apply no_KeyError_ret.
Qed.

End NoKeyError.

(** ** The cache store *)

Section Cache.
Context `{E : env}.

Lemma load_cache_absent (path : string) w :
  os_path_exists path (w_fs w) = false → _load_cache path w = Returned ∅ w.
Proof. intros Hno. unfold _load_cache. by rewrite Hno. Qed.

Lemma load_cache_present (path text : string) w :
  files (w_fs w) !! path = Some text →
  _load_cache path w = match json_load text with
                       | Some cache => Returned cache w
                       | None => Raised JSONDecodeError
                       end.
Proof.
  intros Htext. unfold _load_cache, os_path_exists.
  rewrite Htext. rewrite bool_decide_true by eauto. simpl.
  unfold bind, read_text. rewrite Htext. by destruct (json_load text).
Qed.

(** C8 (as amended).  For every path, [_load_cache] returns the empty
    mapping when nothing exists at the path; when the file exists it
    returns what the text parses to, and a text that does not parse makes
    the load raise [JSONDecodeError]. *)
Theorem load_cache_absent_or_unparsable (path : string) w :
  (os_path_exists path (w_fs w) = false → _load_cache path w = Returned ∅ w)
  ∧ (∀ text, files (w_fs w) !! path = Some text →
       match json_load text with
       | Some cache => _load_cache path w = Returned cache w
       | None => _load_cache path w = Raised JSONDecodeError
       end).
Proof.
  split; [apply load_cache_absent|].
  intros text Htext. rewrite (load_cache_present _ _ _ Htext).
  by destruct (json_load text).
Qed.

Lemma cache_paths_dirname (path : string) :
  path ∈ [CACHE_PATH; ANILIST_CACHE_PATH] → os_path_dirname path = CACHE_DIR.
Proof. intros [->|[->|[]%elem_of_nil]%elem_of_cons]%elem_of_cons; reflexivity. Qed.


End Cache.

(** ** When the fetches return *)

Section Returns.
Context `{E : env}.
Hypothesis Hremote : responsive E.
Hypothesis Haverages : averages_convert E.
Hypothesis Hcodec : codec_reads_own_output E.

Lemma cache_path_not_dir (path : string) :
  path ∈ [CACHE_PATH; ANILIST_CACHE_PATH] → path ≠ CACHE_DIR.
Proof. intros [->|[->|[]%elem_of_nil]%elem_of_cons]%elem_of_cons; discriminate. Qed.

Lemma load_cache_usable (path : string) w :
  cache_usable (w_fs w) → path ∈ [CACHE_PATH; ANILIST_CACHE_PATH] →
  ∃ cache, _load_cache path w = Returned cache w.
Proof.
  intros [_ Hfiles] Hpath. destruct (Hfiles path Hpath) as [Hdir Hparse].
  destruct (files (w_fs w) !! path) as [text|] eqn:Htext.
  - rewrite (load_cache_present _ _ _ Htext).
    destruct (Hparse text eq_refl) as [cache ->]. eauto.
  - exists ∅. apply load_cache_absent. unfold os_path_exists.
    rewrite Htext, bool_decide_false by (by intros [??]).
    by rewrite bool_decide_false.
Qed.

Lemma save_cache_usable (path : string) cache w :
  cache_usable (w_fs w) → path ∈ [CACHE_PATH; ANILIST_CACHE_PATH] →
  ∃ w', _save_cache path cache w = Returned tt w'
        ∧ cache_usable (w_fs w') ∧ w_log w' = w_log w.
Proof.
  intros [Hdata Hfiles] Hpath. destruct (Hfiles path Hpath) as [Hdir _].
  pose proof (cache_path_not_dir path Hpath) as Hne.
  unfold _save_cache, bind, os_makedirs.
  rewrite bool_decide_false by (rewrite Hdata; by intros [??]).
  unfold write_text. simpl. rewrite (cache_paths_dirname _ Hpath).
  rewrite bool_decide_false by set_solver.
  rewrite bool_decide_false by (rewrite Hdata; by intros [??]).
  rewrite (bool_decide_true (CACHE_DIR ∈ _)) by set_solver.
  rewrite andb_false_r. eexists. split; [done|]. split; [|done].
  unfold cache_usable. cbn [w_fs files dirs]. split.
  - by rewrite lookup_insert_ne.
  - intros path' Hpath'. destruct (Hfiles path' Hpath') as [Hdir' Hparse'].
    pose proof (cache_path_not_dir path' Hpath') as Hne'.
    split; [set_solver|]. intros text.
    destruct (decide (path = path')) as [<-|Hp].
    + rewrite lookup_insert_eq. intros [= <-]. apply Hcodec.
    + rewrite lookup_insert_ne by done. apply Hparse'.
Qed.

Lemma page_loop_returns (rq : nat → request) (answer : nat → option (list anime))
    (pages : list nat) (all_data : list anime) w :
  (∀ page, is_Some (answer page)) →
  ∃ data w', page_loop (fun page => http (rq page) (answer page)) pages all_data w
             = Returned data w' ∧ w_fs w' = w_fs w.
Proof.
  intros Hanswer. revert all_data w.
  induction pages as [|page pages IH]; intros all_data w; simpl.
  - by exists all_data, w.
  - unfold bind, http at 1. destruct (Hanswer page) as [data ->].
    edestruct IH as (data' & w' & -> & Hfs). by exists data', w'.
Qed.

Lemma fetch_by_genre_returns (genre_id : Z) (pages : nat) w :
  cache_usable (w_fs w) →
  ∃ data w', fetch_by_genre genre_id pages w = Returned data w' ∧ cache_usable (w_fs w').
Proof.
  intros Hw. unfold fetch_by_genre, bind.
  destruct (load_cache_usable CACHE_PATH w Hw) as [cache ->]; [by left|].
  cbv zeta. destruct (cache !! _); [by eexists _, w|].
  edestruct (page_loop_returns (GetAnimeByGenre genre_id) (jikan_anime_by_genre genre_id))
    as (data & w1 & -> & Hfs); [apply Hremote|].
  edestruct (save_cache_usable CACHE_PATH) as (w2 & -> & Hw2 & _);
    [by rewrite Hfs|by left|].
  by exists data, w2.
Qed.

Lemma fetch_search_mal_returns (query : string) (pages : nat) w :
  ∃ data w', fetch_search_mal query pages w = Returned data w' ∧ w_fs w' = w_fs w.
Proof. apply page_loop_returns, Hremote. Qed.

Lemma fetch_top_anime_returns (pages : nat) w :
  ∃ data w', fetch_top_anime pages w = Returned data w' ∧ w_fs w' = w_fs w.
Proof. apply page_loop_returns, Hremote. Qed.

Lemma fetch_anilist_returns (query : string) (per_page : nat) w :
  cache_usable (w_fs w) →
  ∃ data w', fetch_anilist query per_page w = Returned data w' ∧ cache_usable (w_fs w').
Proof.
  intros Hw. unfold fetch_anilist, bind.
  destruct (load_cache_usable ANILIST_CACHE_PATH w Hw) as [cache ->]; [by right; left|].
  cbv zeta. destruct (cache !! _); [by eexists _, w|].
  unfold http at 1. destruct Hremote as (_ & _ & _ & Hani).
  destruct (Hani query per_page) as [media Hmedia]. rewrite Hmedia.
  destruct (Haverages _ _ _ Hmedia) as [results ->]. unfold lift, ret at 1.
  edestruct (save_cache_usable ANILIST_CACHE_PATH) as (w2 & -> & Hw2 & _);
    [exact Hw|by right; left|].
  by eexists _, w2.
Qed.

Lemma genre_loop_returns (gs : list string) (candidates : list anime) w :
  Forall (fun g => is_Some (MAL_GENRES !! g)) gs → cache_usable (w_fs w) →
  ∃ data w', genre_loop gs candidates w = Returned data w' ∧ cache_usable (w_fs w').
Proof.
  intros Hgs. revert candidates w.
  induction Hgs as [|g gs [gid Hg] _ IH]; intros candidates w Hw; simpl.
  - by exists candidates, w.
  - unfold bind, genre_id_of at 1. rewrite Hg. unfold ret at 1.
    destruct (fetch_by_genre_returns gid 2 w Hw) as (data & w1 & -> & Hw1).
    by apply IH.
Qed.

Lemma gather_candidates_returns (query : string) (p : parsed) w :
  Forall (fun g => is_Some (MAL_GENRES !! g)) (genres p) →
  cache_usable (w_fs w) →
  ∃ candidates w1, gather_candidates query p w = Returned candidates w1.
Proof.
  intros Hgs Hw. unfold gather_candidates, bind.
  assert (∃ c w1, match genres p with
                  | [] => if PyStr.truthy (PyStr.strip query)
                          then fetch_search_mal query 1 else ret []
                  | _ :: _ => genre_loop (genres p) []
                  end w = Returned c w1 ∧ cache_usable (w_fs w1)) as (c & w1 & -> & Hw1).
  { destruct (genres p) as [|g gs].
    - destruct (PyStr.truthy _); [|by exists [], w].
      destruct (fetch_search_mal_returns query 1 w) as (c & w1 & -> & Hfs).
      exists c, w1. by rewrite Hfs.
    - by apply genre_loop_returns. }
  assert (∃ c' w2, match c with
                   | [] => if PyStr.truthy (PyStr.strip query)
                           then fetch_anilist query 10 else ret c
                   | _ :: _ => ret c
                   end w1 = Returned c' w2) as (c' & w2 & ->).
  { destruct c; [|by eexists _, w1].
    destruct (PyStr.truthy _); [|by eexists _, w1].
    destruct (fetch_anilist_returns query 10 w1 Hw1) as (c' & w2 & -> & _). eauto. }
  destruct c'; [|by eexists _, w2].
  destruct (fetch_top_anime_returns 2 w2) as (d & w3 & -> & _). eauto.
Qed.

End Returns.

(** ** The recommender *)

Section Recommender.
Context `{E : env}.

Lemma random_shuffle_perm {A} (x x' : list A) w w' :
  random_shuffle x w = Returned x' w' → x' ≡ₚ x.
Proof.
  destruct (random_shuffle_Returned x w) as (y & w1 & Hrun & Hperm & _).
  rewrite Hrun. by intros [= <- <-].
Qed.

Lemma rank_Returned (candidates top : list anime) w w' :
  rank candidates w = Returned top w' ↔
  ∃ shuffled, random_shuffle candidates w = Returned shuffled w'
              ∧ top = take 10 (sorted_desc score_key shuffled).
Proof.
  unfold rank. rewrite bind_Returned. split.
  - intros (shuffled & w1 & Hsh & [<- <-]%ret_Returned). eauto.
  - intros (shuffled & Hsh & ->). exists shuffled, w'. by rewrite ret_Returned.
Qed.

(** The shape of a run of [recommend_anime] that returns. *)
Lemma recommend_anime_Returned (query : string) w (out : list item) w' :
  recommend_anime query w = Returned out w' ↔
  ∃ p candidates w1 shuffled,
    parse_user_request query = inr p
    ∧ gather_candidates query p w = Returned candidates w1
    ∧ random_shuffle (select p candidates) w1 = Returned shuffled w'
    ∧ out = to_item <$> take 10 (sorted_desc score_key shuffled).
Proof.
  unfold recommend_anime. rewrite bind_Returned. split.
  - intros (p & w0 & Hp & Hrest). unfold lift in Hp.
    destruct (parse_user_request query) as [e|p']; [done|]. injection Hp as -> ->.
    apply bind_Returned in Hrest as (candidates & w1 & Hg & Hrest).
    apply bind_Returned in Hrest
      as (top & w2 & (shuffled & Hsh & ->)%rank_Returned & [<- <-]%ret_Returned).
    by exists p, candidates, w1, shuffled.
  - intros (p & candidates & w1 & shuffled & Hp & Hg & Hsh & ->).
    exists p, w. split; [by rewrite Hp|]. apply bind_Returned.
    exists candidates, w1. split; [done|]. apply bind_Returned.
    exists (take 10 (sorted_desc score_key shuffled)), w'. split; [|done].
    apply rank_Returned. eauto.
Qed.

(** A query on which the parser raises makes [recommend_anime] raise. *)
Lemma recommend_anime_parse_raises (query : string) (e : exn) w :
  parse_user_request query = inl e → recommend_anime query w = Raised e.
Proof. intros Hp. unfold recommend_anime, bind. by rewrite Hp. Qed.

(** [recommend_anime] returns whenever the parser and the fetches of its
    first part do: deduplication, filters, shuffle and sort raise nothing. *)
Lemma recommend_anime_returns (query : string) (p : parsed) w candidates w1 :
  parse_user_request query = inr p →
  gather_candidates query p w = Returned candidates w1 →
  ∃ out w', recommend_anime query w = Returned out w'.
Proof.
  intros Hp Hg.
  destruct (random_shuffle_Returned (select p candidates) w1)
    as (shuffled & w' & Hsh & _).
  exists (to_item <$> take 10 (sorted_desc score_key shuffled)), w'.
  apply recommend_anime_Returned. by exists p, candidates, w1, shuffled.
Qed.

Lemma get_default_recs_Returned w (out : list item) w' :
  get_default_recs w = Returned out w' ↔
  ∃ data w1 shuffled,
    fetch_top_anime 2 w = Returned data w1
    ∧ random_shuffle data w1 = Returned shuffled w'
    ∧ out = to_item <$> take 10 (sorted_desc score_key shuffled).
Proof.
  unfold get_default_recs. rewrite bind_Returned. split.
  - intros (data & w1 & Hg & Hrest). apply bind_Returned in Hrest
      as (top & w2 & (shuffled & Hsh & ->)%rank_Returned & [<- <-]%ret_Returned).
    by exists data, w1, shuffled.
  - intros (data & w1 & shuffled & Hg & Hsh & ->).
    exists data, w1. split; [done|]. apply bind_Returned.
    exists (take 10 (sorted_desc score_key shuffled)), w'. split; [|done].
    apply rank_Returned. eauto.
Qed.

(** *** Selection: what survives deduplication and filters *)

Lemma dedupe_urls_first_seen (candidates : list anime) :
  dedupe_urls candidates = first_seen url ∅ candidates.
Proof. unfold dedupe_urls. by rewrite dedupe_loop_first_seen. Qed.

Lemma dedupe_base_titles_first_seen (candidates : list anime) :
  dedupe_base_titles candidates = first_seen base_title ∅ candidates.
Proof. unfold dedupe_base_titles. by rewrite dedupe_loop_first_seen. Qed.

Lemma episode_filter_sublist (p : parsed) (l : list anime) :
  episode_filter p l `sublist_of` l.
Proof. unfold episode_filter. destruct (max_episodes p); [apply sublist_filter|done]. Qed.

Lemma hidden_gem_filter_sublist (p : parsed) (l : list anime) :
  hidden_gem_filter p l `sublist_of` l.
Proof.
  unfold hidden_gem_filter. destruct (rating_pref p) as [[]|]; [apply sublist_filter|done].
Qed.

Lemma select_sublist_base (p : parsed) (l : list anime) :
  select p l `sublist_of` dedupe_base_titles (dedupe_urls l).
Proof.
  unfold select. etrans; [apply hidden_gem_filter_sublist|apply episode_filter_sublist].
Qed.

Lemma select_sublist_urls (p : parsed) (l : list anime) :
  select p l `sublist_of` dedupe_urls l.
Proof.
  etrans; [apply select_sublist_base|].
  rewrite dedupe_base_titles_first_seen. apply first_seen_sublist.
Qed.

Lemma select_sublist (p : parsed) (l : list anime) : select p l `sublist_of` l.
Proof.
  etrans; [apply select_sublist_urls|].
  rewrite dedupe_urls_first_seen. apply first_seen_sublist.
Qed.

Lemma select_NoDup_url (p : parsed) (l : list anime) : NoDup (url <$> select p l).
Proof.
  eapply sublist_NoDup; [|apply fmap_sublist, select_sublist_urls].
  rewrite dedupe_urls_first_seen. apply first_seen_NoDup.
Qed.

Lemma select_NoDup_base_title (p : parsed) (l : list anime) :
  NoDup (base_title <$> select p l).
Proof.
  eapply sublist_NoDup; [|apply fmap_sublist, select_sublist_base].
  rewrite dedupe_base_titles_first_seen. apply first_seen_NoDup.
Qed.

(** *** The ten returned: a prefix of the sorted shuffle *)

Lemma top10_length {A} (l : list A) : (length (take 10 l) ≤ 10)%nat.
Proof. rewrite length_take. lia. Qed.

Lemma top10_elem_of (a : anime) (shuffled l : list anime) :
  shuffled ≡ₚ l → a ∈ take 10 (sorted_desc score_key shuffled) → a ∈ l.
Proof.
  intros Hperm Ha. eapply elem_of_sublist in Ha; [|apply sublist_take].
  by rewrite sorted_desc_Permutation, Hperm in Ha.
Qed.


(** *** Size and content of the result *)

(** C1 (as amended).  Whenever the remote side answers, with averages
    that can be converted, and the cache files are usable,
    [recommend_anime] returns for every query on which the parser
    returns, and raises what the parser raises on the others; a run that
    returns gives at most 10 items, and each item carries the title and the
    url of one of the fetched candidate records, so titles and urls are
    non-empty whenever those of every fetched record are. *)
Theorem recommend_anime_at_most_10_from_candidates (query : string) w :
  (responsive E → averages_convert E → codec_reads_own_output E →
   cache_usable (w_fs w) →
   match parse_user_request query with
   | inr _ => ∃ out w', recommend_anime query w = Returned out w'
   | inl e => recommend_anime query w = Raised e
   end)
  ∧ ∀ out w',
      recommend_anime query w = Returned out w' →
      (length out ≤ 10)%nat
      ∧ ∃ p candidates w1,
          parse_user_request query = inr p
          ∧ gather_candidates query p w = Returned candidates w1
          ∧ (∀ it, it ∈ out →
               ∃ a, a ∈ candidates ∧ item_title it = title a ∧ item_url it = url a)
          ∧ (Forall (fun a => title a ≠ EmptyString ∧ url a ≠ EmptyString) candidates →
             Forall (fun it => item_title it ≠ EmptyString ∧ item_url it ≠ EmptyString) out).
Proof.
  split.
  { intros Hremote Haverages Hcodec Hw.
    destruct (parse_user_request query) as [e|p] eqn:Hp;
      [by apply recommend_anime_parse_raises|].
    destruct (gather_candidates_returns Hremote Haverages Hcodec query p w)
      as (candidates & w1 & Hg); [by eapply parsed_genres_in_directory|done|].
    by eapply recommend_anime_returns. }
  intros out w' (p & candidates & w1 & shuffled & Hp & Hg & Hsh & ->)%recommend_anime_Returned.
  apply random_shuffle_perm in Hsh.
  split; [rewrite length_fmap; apply top10_length|].
  exists p, candidates, w1. split; [done|]. split; [done|].
  assert (Hfrom : ∀ it, it ∈ to_item <$> take 10 (sorted_desc score_key shuffled) →
            ∃ a, a ∈ candidates ∧ item_title it = title a ∧ item_url it = url a).
  { intros it (a & -> & Ha)%list_elem_of_fmap. exists a. split; [|done].
    eapply elem_of_sublist; [|apply select_sublist]. by eapply top10_elem_of. }
  split; [exact Hfrom|].
  intros Hne. apply Forall_forall. intros it (a & Ha & -> & ->)%Hfrom.
  revert a Ha. by apply Forall_forall.
Qed.

(** *** No duplicates *)




(** *** Filters *)

Lemma episodes_ok_spec (n : Z) (a : anime) :
  episodes_ok n a = true ↔ ∃ e, episodes a = Some e ∧ e ≠ 0 ∧ e ≤ n.
Proof.
  unfold episodes_ok. destruct (episodes a) as [e|].
  - rewrite andb_true_iff, negb_true_iff, Z.eqb_neq, Z.leb_le. split.
    + intros [??]. by exists e.
    + by intros (? & [= <-] & ? & ?).
  - split; [done|]. by intros (? & ? & _).
Qed.

Lemma hidden_gem_ok_spec (a : anime) :
  hidden_gem_ok a = true ↔ ∃ s, score a = Some s ∧ ¬ (s == 0)%Q ∧ (s < 7)%Q.
Proof.
  unfold hidden_gem_ok. destruct (score a) as [s|].
  - rewrite andb_true_iff, negb_true_iff, Qltb_lt, <- not_true_iff_false, Qeq_bool_iff.
    split.
    + intros [??]. by exists s.
    + by intros (? & [= <-] & ? & ?).
  - split; [done|]. by intros (? & ? & _).
Qed.

(** C4.  When the parser infers [max_episodes = N], the episode filter
    keeps exactly the records with a known, non-zero episode count [<= N]
    and drops the records with an unknown count; every item
    [recommend_anime] returns comes from a surviving record, whose episode
    count is known and [<= N]. *)
Theorem max_episodes_bounds_result (query : string) (p : parsed) (N : Z) :
  parse_user_request query = inr p →
  max_episodes p = Some N →
  (∀ candidates a,
     a ∈ episode_filter p candidates ↔
     a ∈ candidates ∧ ∃ e, episodes a = Some e ∧ e ≠ 0 ∧ e ≤ N)
  ∧ (∀ candidates a,
       episodes a = None → a ∉ episode_filter p candidates)
  ∧ (∀ w out w',
       recommend_anime query w = Returned out w' →
       ∃ candidates w1,
         gather_candidates query p w = Returned candidates w1
         ∧ ∀ it, it ∈ out →
             ∃ a, a ∈ select p candidates
                  ∧ it = to_item a
                  ∧ ∃ e, episodes a = Some e ∧ e ≤ N).
Proof.
  intros Hparse HN.
  assert (Hfilter : ∀ candidates a,
     a ∈ episode_filter p candidates ↔
     a ∈ candidates ∧ ∃ e, episodes a = Some e ∧ e ≠ 0 ∧ e ≤ N).
  { intros candidates a. unfold episode_filter. rewrite HN, list_elem_of_filter.
    rewrite Is_true_true, episodes_ok_spec. tauto. }
  split; [exact Hfilter|]. split.
  - intros candidates a Hnone (_ & e & He & _)%Hfilter. congruence.
  - intros w out w' (p' & candidates & w1 & shuffled & Hp' & Hg & Hsh & ->)%recommend_anime_Returned.
    rewrite Hparse in Hp'. injection Hp' as <-.
    apply random_shuffle_perm in Hsh.
    exists candidates, w1. split; [done|].
    intros it (a & -> & Ha)%list_elem_of_fmap.
    apply (top10_elem_of _ _ _ Hsh) in Ha.
    exists a. split; [done|]. split; [done|].
    unfold select in Ha.
    eapply elem_of_sublist in Ha; [|apply hidden_gem_filter_sublist].
    apply Hfilter in Ha as (_ & e & He & _ & Hle). eauto.
Qed.

(** C5.  When the parser infers the hidden-gem preference, the hidden-gem
    filter keeps exactly the records with a known, non-zero score below 7
    and drops the records with an unknown score; every item
    [recommend_anime] returns comes from a surviving record, whose score
    is known and below 7. *)
Theorem hidden_gem_bounds_result (query : string) (p : parsed) :
  parse_user_request query = inr p →
  rating_pref p = Some HiddenGem →
  (∀ candidates a,
     a ∈ hidden_gem_filter p candidates ↔
     a ∈ candidates ∧ ∃ s, score a = Some s ∧ ¬ (s == 0)%Q ∧ (s < 7)%Q)
  ∧ (∀ candidates a,
       score a = None → a ∉ hidden_gem_filter p candidates)
  ∧ (∀ w out w',
       recommend_anime query w = Returned out w' →
       ∃ candidates w1,
         gather_candidates query p w = Returned candidates w1
         ∧ ∀ it, it ∈ out →
             ∃ a, a ∈ select p candidates
                  ∧ it = to_item a
                  ∧ ∃ s, score a = Some s ∧ (s < 7)%Q).
Proof.
  intros Hparse Hpref.
  assert (Hfilter : ∀ candidates a,
     a ∈ hidden_gem_filter p candidates ↔
     a ∈ candidates ∧ ∃ s, score a = Some s ∧ ¬ (s == 0)%Q ∧ (s < 7)%Q).
  { intros candidates a. unfold hidden_gem_filter. rewrite Hpref, list_elem_of_filter.
    rewrite Is_true_true, hidden_gem_ok_spec. tauto. }
  split; [exact Hfilter|]. split.
  - intros candidates a Hnone (_ & s & Hs & _)%Hfilter. congruence.
  - intros w out w' (p' & candidates & w1 & shuffled & Hp' & Hg & Hsh & ->)%recommend_anime_Returned.
    rewrite Hparse in Hp'. injection Hp' as <-.
    apply random_shuffle_perm in Hsh.
    exists candidates, w1. split; [done|].
    intros it (a & -> & Ha)%list_elem_of_fmap.
    apply (top10_elem_of _ _ _ Hsh) in Ha.
    exists a. split; [done|]. split; [done|].
    unfold select in Ha.
    apply Hfilter in Ha as (_ & s & Hs & _ & Hlt). eauto.
Qed.

End Recommender.

(** ** The fallback chain *)

Section Fallback.
Context `{E : env}.

Lemma genre_loop_concat (gs : list string) (candidates : list anime) w :
  genre_loop gs candidates w
  = (let* results := fetch_each_genre gs in ret (candidates ++ concat results)) w.
Proof.
  revert candidates w. induction gs as [|g gs IH]; intros candidates w; simpl.
  - unfold bind, ret. by rewrite app_nil_r.
  - unfold bind. destruct (genre_id_of g w) as [e|gid w1]; [done|].
    destruct (fetch_by_genre gid 2 w1) as [e|data w2]; [done|].
    rewrite IH. unfold bind, ret.
    destruct (fetch_each_genre gs w2) as [e|rest w3]; [done|].
    simpl. by rewrite app_assoc.
Qed.

(** C3 (as amended).  [recommend_anime] takes its candidates from the
    sources in strict fallback order: by genre for each matched genre (2
    pages each, concatenated) if the parsed genres are non-empty; else by
    free-text search (1 page) if the query is non-blank; from the secondary
    catalog (10 results) if there are still no candidates and the query is
    non-blank; from the top listing (2 pages) if there are still none. *)
Theorem gather_candidates_fallback_order (query : string) (p : parsed) w :
  gather_candidates query p w = fallback_chain nonblank query p w.
Proof.
  unfold gather_candidates, fallback_chain, nonblank.
  destruct (genres p) as [|g gs] eqn:Hgs; simpl first_nonempty.
  - destruct (PyStr.truthy (PyStr.strip query)); simpl; unfold bind, ret.
    + destruct (fetch_search_mal query 1 w) as [e|[|a l] w1]; try done.
      destruct (fetch_anilist query 10 w1) as [e|[|a l] w2]; try done.
      by destruct (fetch_top_anime 2 w2) as [e|[|a l] w3].
    + by destruct (fetch_top_anime 2 w) as [e|[|a l] w3].
  - rewrite <- Hgs. unfold bind at 1 2. rewrite genre_loop_concat.
    unfold fetch_genres, bind, ret.
    destruct (fetch_each_genre (genres p) w) as [e|results w1]; [done|].
    change ([] ++ concat results) with (concat results).
    destruct (concat results) as [|a l]; [|done].
    destruct (PyStr.truthy (PyStr.strip query)).
    + destruct (fetch_anilist query 10 w1) as [e|[|a l] w2]; try done.
      by destruct (fetch_top_anime 2 w2) as [e|[|a l] w3].
    + by destruct (fetch_top_anime 2 w1) as [e|[|a l] w3].
Qed.

End Fallback.

(** ** Shuffle, then sort: the ranking *)

Local Open Scope nat_scope.

Lemma draws_S (g : rng) (n : nat) :
  draws g (S n) = tape g (cursor g) :: draws (Rng (tape g) (S (cursor g))) n.
Proof.
  unfold draws. simpl. rewrite Nat.add_0_r. f_equal.
  rewrite <- fmap_S_seq, <- list_fmap_compose. apply list_fmap_ext.
  intros _ k _. simpl. f_equal. lia.
Qed.

Lemma shuffle_loop_with {A} (i : nat) (x : list A) w :
  shuffle_loop i x w =
  Returned (shuffle_with i (draws (w_rng w) i) x)
           (World (w_fs w) (Rng (tape (w_rng w)) (cursor (w_rng w) + i)) (w_log w)).
Proof.
  revert x w. induction i as [|i IH]; intros x w.
  - simpl. unfold ret. destruct w as [fs [t c] lg]; simpl. by rewrite Nat.add_0_r.
  - rewrite draws_S. cbn [shuffle_with shuffle_loop]. unfold bind, randbelow.
    rewrite IH. cbn [w_rng w_fs w_log tape cursor]. do 3 f_equal. lia.
Qed.

Lemma swap_lookup_l {A} (i j : nat) (x : list A) (b : A) :
  i < length x → x !! j = Some b → swap i j x !! i = Some b.
Proof.
  intros Hi Hj. unfold swap. destruct (lookup_lt_is_Some_2 x i Hi) as [a Ha].
  rewrite Ha, Hj. destruct (decide (i = j)) as [->|Hne].
  - rewrite list_lookup_insert_eq; [congruence|]. by rewrite length_insert.
  - rewrite list_lookup_insert_ne by done. by rewrite list_lookup_insert_eq.
Qed.

Lemma swap_lookup_gt {A} (i j p : nat) (x : list A) :
  i < p → j < p → swap i j x !! p = x !! p.
Proof.
  intros Hi Hj. unfold swap. destruct (x !! i); [|done]. destruct (x !! j); [|done].
  rewrite !list_lookup_insert_ne by lia. done.
Qed.

Lemma swap_take {A} (i j n : nat) (x : list A) :
  i < n → j < n → take n (swap i j x) = swap i j (take n x).
Proof.
  intros Hi Hj. unfold swap. rewrite !lookup_take_lt by done.
  destruct (x !! i); [|done]. destruct (x !! j); [|done].
  by rewrite !take_insert_lt.
Qed.

Lemma swap_drop {A} (i j n : nat) (x : list A) :
  i < n → j < n → drop n (swap i j x) = drop n x.
Proof.
  intros Hi Hj. apply list_eq. intros p. rewrite !lookup_drop.
  apply swap_lookup_gt; lia.
Qed.

(** Positions above [i] are out of reach of the loop started at [i]. *)
Lemma shuffle_with_lookup_gt {A} (i p : nat) (js : list nat) (x : list A) :
  i < p → shuffle_with i js x !! p = x !! p.
Proof.
  revert js x. induction i as [|i IH]; intros js x Hp; [by destruct js|].
  destruct js as [|j js]; [done|]. cbn [shuffle_with]. rewrite IH by lia.
  apply swap_lookup_gt; [done|].
  pose proof (Nat.mod_upper_bound j (S (S i))). lia.
Qed.

Lemma shuffle_with_Permutation {A} (i : nat) (js : list nat) (x : list A) :
  shuffle_with i js x ≡ₚ x.
Proof.
  revert js x. induction i as [|i IH]; intros js x; [by destruct js|].
  destruct js as [|j js]; [done|]. cbn [shuffle_with]. by rewrite IH, swap_Permutation.
Qed.

(** Every order is reached: whatever rearrangement [y] of [x] agrees with
    [x] above position [i], some draws in range lead the loop to it. *)
Lemma shuffle_with_reaches {A} (i : nat) (x y : list A) :
  i < length x → take (S i) x ≡ₚ take (S i) y → drop (S i) x = drop (S i) y →
  ∃ js, in_range i js ∧ shuffle_with i js x = y.
Proof.
  revert x y. induction i as [|i IH]; intros x y Hi Htake Hdrop.
  - exists []. split; [done|]. simpl.
    destruct x as [|a x]; [simpl in Hi; lia|].
    destruct y as [|b y]; [by apply Permutation_nil_r in Htake|].
    simpl in *. rewrite !take_0 in Htake. rewrite !drop_0 in Hdrop.
    apply Permutation_singleton_inj in Htake. by subst.
  - assert (Hlen : length x = length y).
    { rewrite <- (take_drop (S (S i)) x), <- (take_drop (S (S i)) y), !length_app.
      by rewrite Hdrop, (Permutation_length Htake). }
    destruct (lookup_lt_is_Some_2 y (S i)) as [b Hb]; [lia|].
    assert (∃ j, j < S (S i) ∧ x !! j = Some b) as (j & Hj & Hxj).
    { assert (b ∈ take (S (S i)) x) as (j & Hxj & Hj)%elem_of_take.
      { rewrite Htake. apply elem_of_take. exists (S i). split; [done|lia]. }
      eauto. }
    destruct (IH (swap (S i) j x) y) as (js & Hjs & Hrun).
    + rewrite swap_length. lia.
    + assert (Hsw : swap (S i) j x !! S i = Some b) by by apply swap_lookup_l.
      apply (Permutation_app_inv_r [b]).
      rewrite <- (take_S_r _ _ _ Hsw), <- (take_S_r _ _ _ Hb).
      rewrite swap_take by lia. by rewrite swap_Permutation.
    + assert (Hsw : swap (S i) j x !! S i = Some b) by by apply swap_lookup_l.
      rewrite (drop_S _ _ _ Hsw), (drop_S _ _ _ Hb). f_equal.
      rewrite swap_drop by lia. done.
    + exists (j :: js). split; [done|]. cbn [shuffle_with].
      rewrite Nat.mod_small by done. done.
Qed.

(** On a list without repetition, different draws give different orders. *)
Lemma shuffle_with_inj {A} (i : nat) (js js' : list nat) (x : list A) :
  NoDup x → i < length x → in_range i js → in_range i js' →
  shuffle_with i js x = shuffle_with i js' x → js = js'.
Proof.
  revert js js' x. induction i as [|i IH]; intros js js' x Hnd Hi Hjs Hjs' Heq.
  - destruct js, js'; simpl in *; done.
  - destruct js as [|j js], js' as [|j' js']; cbn [shuffle_with in_range] in *; try done.
    destruct Hjs as [Hj Hjs], Hjs' as [Hj' Hjs'].
    rewrite !Nat.mod_small in Heq by done.
    destruct (lookup_lt_is_Some_2 x j) as [b Hb]; [lia|].
    destruct (lookup_lt_is_Some_2 x j') as [b' Hb']; [lia|].
    assert (j = j') as <-.
    { assert (Hat : shuffle_with i js (swap (S i) j x) !! S i
                    = shuffle_with i js' (swap (S i) j' x) !! S i) by by rewrite Heq.
      rewrite !shuffle_with_lookup_gt in Hat by lia.
      rewrite (swap_lookup_l _ _ _ b), (swap_lookup_l _ _ _ b') in Hat by done.
      injection Hat as <-. by eapply NoDup_lookup. }
    f_equal. apply (IH _ _ (swap (S i) j x)); try done.
    + by rewrite swap_Permutation.
    + rewrite swap_length. lia.
Qed.

Lemma in_range_length (i : nat) (js : list nat) : in_range i js → length js = i.
Proof.
  revert js. induction i as [|i IH]; intros [|j js]; simpl; try done.
  intros [_ Hjs]. f_equal. by apply IH.
Qed.

Lemma random_shuffle_with {A} (x : list A) w :
  random_shuffle x w =
  Returned (shuffle_with (length x - 1) (draws (w_rng w) (length x - 1)) x)
           (World (w_fs w)
                  (Rng (tape (w_rng w)) (cursor (w_rng w) + (length x - 1)))
                  (w_log w)).
Proof. apply shuffle_loop_with. Qed.

Lemma random_shuffle_reaches {A} (x y : list A) :
  x ≡ₚ y → ∃ js, in_range (length x - 1) js ∧ shuffle_with (length x - 1) js x = y.
Proof.
  intros Hperm. destruct x as [|a x].
  - apply Permutation_nil_l in Hperm. subst y. exists []. by split.
  - pose proof (Permutation_length Hperm) as Hlen.
    apply shuffle_with_reaches.
    + simpl. lia.
    + rewrite !take_ge; [done|lia|simpl; lia].
    + rewrite !drop_ge; [done|lia|simpl; lia].
Qed.

Lemma score_key_default (a : anime) : (score_key a == default 0 (score a))%Q.
Proof.
  unfold score_key. destruct (score a) as [s|]; simpl; [|done].
  destruct (Qeq_bool s 0) eqn:Hs; [|done]. apply Qeq_bool_iff in Hs. by rewrite Hs.
Qed.

Section Ranking.
Context `{E : env}.

Lemma random_shuffle_ranked (candidates shuffled : list anime) w w' :
  random_shuffle candidates w = Returned shuffled w' →
  ranked candidates w (take 10 (sorted_desc score_key shuffled)).
Proof.
  rewrite random_shuffle_with. intros [= <- <-].
  split; [apply shuffle_with_Permutation|]. split; [done|].
  apply StronglySorted_take, sorted_desc_StronglySorted.
Qed.

(** C6.  In [recommend_anime] and in [get_default_recs] the final
    candidate list is shuffled, then sorted stably by decreasing score with
    a missing score counted as 0, then cut to its first 10.  The shuffle is
    the one the state of the generator decides; draws in range reach every
    order, each order of a list without repetition by one sequence of draws
    only.  The sort rearranges its input, leaves it in decreasing order of
    the score key and keeps records of equal key in the order they had; no
    other list does the last two. *)
Theorem ranking_shuffled_then_sorted_descending :
  (∀ (x y : list anime), x ≡ₚ y →
     ∃ js, in_range (length x - 1) js ∧ shuffle_with (length x - 1) js x = y)
  ∧ (∀ (x : list anime) js js',
       NoDup x → in_range (length x - 1) js → in_range (length x - 1) js' →
       shuffle_with (length x - 1) js x = shuffle_with (length x - 1) js' x → js = js')
  ∧ (∀ a, (score_key a == default 0 (score a))%Q)
  ∧ (∀ l : list anime,
       sorted_desc score_key l ≡ₚ l
       ∧ StronglySorted (desc score_key) (sorted_desc score_key l)
       ∧ (∀ q, filter (fun a => (score_key a == q)%Q) (sorted_desc score_key l)
               = filter (fun a => (score_key a == q)%Q) l)
       ∧ (∀ s, StronglySorted (desc score_key) s →
               (∀ q, filter (fun a => (score_key a == q)%Q) s
                     = filter (fun a => (score_key a == q)%Q) l) →
               s = sorted_desc score_key l))
  ∧ (∀ query w out w',
       recommend_anime query w = Returned out w' →
       ∃ p candidates w1 top,
         parse_user_request query = inr p
         ∧ gather_candidates query p w = Returned candidates w1
         ∧ ranked (select p candidates) w1 top
         ∧ out = to_item <$> top)
  ∧ (∀ w out w',
       get_default_recs w = Returned out w' →
       ∃ data w1 top,
         fetch_top_anime 2 w = Returned data w1
         ∧ ranked data w1 top
         ∧ out = to_item <$> top).
Proof.
  split; [intros x y; apply random_shuffle_reaches|].
  split.
  { intros [|a x] js js' Hnd Hjs Hjs' Heq.
    - destruct js, js'; simpl in *; done.
    - eapply shuffle_with_inj; try done. simpl. lia. }
  split; [apply score_key_default|].
  split.
  { intros l. split; [apply sorted_desc_Permutation|].
    split; [apply sorted_desc_StronglySorted|].
    split; [intros q; apply sorted_desc_stable|]. apply sorted_desc_unique. }
  split.
  - intros query w out w'
      (p & candidates & w1 & shuffled & Hp & Hg & Hsh & ->)%recommend_anime_Returned.
    exists p, candidates, w1, (take 10 (sorted_desc score_key shuffled)).
    split; [done|]. split; [done|]. split; [|done]. by eapply random_shuffle_ranked.
  - intros w out w' (data & w1 & shuffled & Hg & Hsh & ->)%get_default_recs_Returned.
    exists data, w1, (take 10 (sorted_desc score_key shuffled)).
    split; [done|]. split; [|done]. by eapply random_shuffle_ranked.
Qed.

End Ranking.

Local Close Scope nat_scope.

(** * Further properties *)

Section Fetchers.
Context `{E : env}.

Lemma page_loop_http (rq : nat → request) (answer : nat → option (list anime))
    (pages : list nat) (all_data : list anime) w :
  page_loop (fun page => http (rq page) (answer page)) pages all_data w
  = match mapM answer pages with
    | Some ds => Returned (all_data ++ concat ds) (logged (rq <$> pages) w)
    | None => Raised HTTPError
    end.
Proof.
  revert all_data w. induction pages as [|page pages IH]; intros all_data w; simpl.
  - unfold ret, logged. rewrite !app_nil_r. by destruct w.
  - unfold bind, http at 1. destruct (answer page) as [data|]; simpl; [|done].
    rewrite IH. destruct (mapM answer pages) as [ds|]; simpl; [|done].
    unfold logged. simpl. by rewrite <- !app_assoc.
Qed.

Lemma answers_None (answer : nat → option (list anime)) (pages : nat) :
  answers answer pages = None ↔ ∃ page, (1 ≤ page ≤ pages)%nat ∧ answer page = None.
Proof.
  unfold answers. rewrite fmap_None. split.
  - intros Hnone. destruct (decide (Forall (fun p => is_Some (answer p)) (seq 1 pages)))
      as [Hall|Hex].
    + apply mapM_is_Some in Hall as [ds Hds]. congruence.
    + apply not_Forall_Exists in Hex; [|apply _].
      apply Exists_exists in Hex as (page & Hin%elem_of_seq & Hp).
      exists page. split; [lia|]. by apply eq_None_not_Some.
  - intros (page & Hpage & Hnone). apply eq_None_not_Some. intros Hsome.
    apply mapM_is_Some in Hsome.
    assert (Hp : is_Some (answer page)).
    { revert page Hpage Hnone. intros page Hpage _.
      apply (proj1 (Forall_forall _ _) Hsome page), elem_of_seq. lia. }
    rewrite Hnone in Hp. by destruct Hp.
Qed.

(** X1.  [fetch_search_mal] sends the search request of every page from 1
    to [pages], in order, and returns the answers joined in that order; it
    reads and writes no file.  If one page is refused the whole fetch
    raises [HTTPError] and gives no partial result. *)
Theorem fetch_search_mal_outcome (query : string) (pages : nat) w :
  fetch_search_mal query pages w
  = match answers (jikan_anime_search query) pages with
    | Some data => Returned data (logged (GetAnimeSearch query <$> seq 1 pages) w)
    | None => Raised HTTPError
    end
  ∧ (answers (jikan_anime_search query) pages = None ↔
     ∃ page, (1 ≤ page ≤ pages)%nat ∧ jikan_anime_search query page = None).
Proof.
  split; [|apply answers_None].
  unfold fetch_search_mal, answers. rewrite page_loop_http.
  by destruct (mapM _ _).
Qed.

(** X2.  [fetch_top_anime] sends the top-listing request of every page
    from 1 to [pages], in order, and returns the answers joined in that
    order; it reads and writes no file.  If one page is refused the whole
    fetch raises [HTTPError]. *)
Theorem fetch_top_anime_outcome (pages : nat) w :
  fetch_top_anime pages w
  = match answers jikan_top_anime pages with
    | Some data => Returned data (logged (GetTopAnime <$> seq 1 pages) w)
    | None => Raised HTTPError
    end
  ∧ (answers jikan_top_anime pages = None ↔
     ∃ page, (1 ≤ page ≤ pages)%nat ∧ jikan_top_anime page = None).
Proof.
  split; [|apply answers_None].
  unfold fetch_top_anime, answers. rewrite page_loop_http.
  by destruct (mapM _ _).
Qed.

End Fetchers.

Section CacheFetchers.
Context `{E : env}.

Lemma save_cache_returns (path : string) (cache : gmap string (list anime)) w :
  path ∈ [CACHE_PATH; ANILIST_CACHE_PATH] →
  files (w_fs w) !! CACHE_DIR = None → path ∉ dirs (w_fs w) →
  _save_cache path cache w
  = Returned tt (World (FS (<[path := json_dump cache]> (files (w_fs w)))
                           ({[CACHE_DIR]} ∪ dirs (w_fs w)))
                       (w_rng w) (w_log w)).
Proof.
  intros Hpath Hdata Hdir. pose proof (cache_path_not_dir path Hpath) as Hne.
  unfold _save_cache, bind, os_makedirs.
  rewrite bool_decide_false by (rewrite Hdata; by intros [??]).
  unfold write_text. simpl. rewrite (cache_paths_dirname _ Hpath).
  rewrite bool_decide_false by set_solver.
  rewrite bool_decide_false by (rewrite Hdata; by intros [??]).
  rewrite (bool_decide_true (CACHE_DIR ∈ _)) by set_solver.
  by rewrite andb_false_r.
Qed.

Lemma load_cache_world (path : string) w cache w' :
  _load_cache path w = Returned cache w' → w' = w.
Proof.
  unfold _load_cache. destruct (os_path_exists path (w_fs w)).
  - unfold bind, read_text. destruct (files (w_fs w) !! path); [|by case_bool_decide].
    destruct (json_load _); [|done]. by intros [= _ <-].
  - by intros [= _ <-].
Qed.

(** What is read back from [path] once [cache] has been saved there. *)
Lemma load_after_save (path : string) (cache : gmap string (list anime)) fs rng lg :
  json_load (json_dump cache) = Some cache →
  let w1 := World (FS (<[path := json_dump cache]> (files fs)) ({[CACHE_DIR]} ∪ dirs fs)) rng lg in
  _load_cache path w1 = Returned cache w1.
Proof.
  intros Hcodec w1. rewrite (load_cache_present _ (json_dump cache)), Hcodec; [done|].
  simpl. apply lookup_insert_eq.
Qed.

Lemma fetch_by_genre_unfold (genre_id : Z) (pages : nat) w :
  fetch_by_genre genre_id pages w
  = match _load_cache CACHE_PATH w with
    | Raised e => Raised e
    | Returned cache w0 =>
        match cache !! genre_key genre_id pages with
        | Some data => Returned data w0
        | None =>
            match answers (jikan_anime_by_genre genre_id) pages with
            | None => Raised HTTPError
            | Some data =>
                match _save_cache CACHE_PATH (<[genre_key genre_id pages := data]> cache)
                        (logged (GetAnimeByGenre genre_id <$> seq 1 pages) w0) with
                | Raised e => Raised e
                | Returned _ w2 => Returned data w2
                end
            end
        end
    end.
Proof.
  unfold fetch_by_genre, bind. destruct (_load_cache CACHE_PATH w) as [e|cache w0]; [done|].
  cbv zeta. change ("genre_" +:+ pretty genre_id +:+ "_p" +:+ pretty pages)
    with (genre_key genre_id pages).
  destruct (cache !! genre_key genre_id pages); [done|].
  rewrite page_loop_http. unfold answers.
  destruct (mapM _ _) as [ds|]; simpl; [|done].
  by destruct (_save_cache _ _ _).
Qed.

Lemma fetch_anilist_unfold (query : string) (per_page : nat) w :
  fetch_anilist query per_page w
  = match _load_cache ANILIST_CACHE_PATH w with
    | Raised e => Raised e
    | Returned cache w0 =>
        match cache !! PyStr.lower query with
        | Some data => Returned data w0
        | None =>
            match anilist_media query per_page with
            | None => Raised HTTPError
            | Some media =>
                match anilist_records media with
                | inl e => Raised e
                | inr results =>
                    match _save_cache ANILIST_CACHE_PATH
                            (<[PyStr.lower query := results]> cache)
                            (logged [PostAnilist query per_page] w0) with
                    | Raised e => Raised e
                    | Returned _ w2 => Returned results w2
                    end
                end
            end
        end
    end.
Proof.
  unfold fetch_anilist, bind. destruct (_load_cache ANILIST_CACHE_PATH w) as [e|cache w0]; [done|].
  cbv zeta. destruct (cache !! PyStr.lower query); [done|].
  unfold http. destruct (anilist_media query per_page) as [media|]; [|done].
  destruct (anilist_records media) as [e|results]; [done|]. unfold lift, ret at 1.
  by destruct (_save_cache _ _ _).
Qed.

(** X3.  A cached genre listing is returned as it is: nothing is sent,
    nothing is written, the world is the one before the call. *)
Theorem fetch_by_genre_cache_hit (genre_id : Z) (pages : nat) w text cache data :
  files (w_fs w) !! CACHE_PATH = Some text →
  json_load text = Some cache →
  cache !! genre_key genre_id pages = Some data →
  fetch_by_genre genre_id pages w = Returned data w.
Proof.
  intros Htext Hparse Hkey. rewrite fetch_by_genre_unfold.
  rewrite (load_cache_present _ _ _ Htext), Hparse. by rewrite Hkey.
Qed.

(** X4.  Read-through: on a miss [fetch_by_genre] requests all pages in
    order, returns them joined and stores them, so that the same call is a
    hit afterwards (given that the codec reads the stored mapping back);
    what was cached before stays cached. *)
Theorem fetch_by_genre_read_through (genre_id : Z) (pages : nat) w cache data :
  files (w_fs w) !! CACHE_DIR = None → CACHE_PATH ∉ dirs (w_fs w) →
  _load_cache CACHE_PATH w = Returned cache w →
  cache !! genre_key genre_id pages = None →
  answers (jikan_anime_by_genre genre_id) pages = Some data →
  json_load (json_dump (<[genre_key genre_id pages := data]> cache))
    = Some (<[genre_key genre_id pages := data]> cache) →
  ∃ w1,
    fetch_by_genre genre_id pages w = Returned data w1
    ∧ w_log w1 = w_log w ++ (GetAnimeByGenre genre_id <$> seq 1 pages)
    ∧ fetch_by_genre genre_id pages w1 = Returned data w1
    ∧ ∀ genre_id' pages' data',
        cache !! genre_key genre_id' pages' = Some data' →
        fetch_by_genre genre_id' pages' w1 = Returned data' w1.
Proof.
  intros Hdata Hdir Hload Hmiss Hans Hcodec.
  rewrite fetch_by_genre_unfold, Hload, Hmiss, Hans.
  rewrite save_cache_returns; [|by left|done|done].
  eexists. split; [done|]. split; [done|].
  pose proof (load_after_save CACHE_PATH _ (w_fs w) (w_rng w)
                (w_log w ++ (GetAnimeByGenre genre_id <$> seq 1 pages)) Hcodec) as Hload1.
  simpl in Hload1. split.
  - rewrite fetch_by_genre_unfold. simpl. rewrite Hload1. by rewrite lookup_insert_eq.
  - intros genre_id' pages' data' Hold. rewrite fetch_by_genre_unfold. simpl.
    rewrite Hload1. rewrite lookup_insert_ne; [by rewrite Hold|].
    intros Heq. rewrite Heq in Hmiss. congruence.
Qed.

(** X6.  The AniList cache is keyed by the lowercased query alone: after
    a miss, which sends one request, every query of the same letters, in
    whatever case and with whatever page size, is answered from the cache
    with the records of the first answer. *)
Theorem fetch_anilist_read_through (query : string) (per_page : nat) w cache media results :
  files (w_fs w) !! CACHE_DIR = None → ANILIST_CACHE_PATH ∉ dirs (w_fs w) →
  _load_cache ANILIST_CACHE_PATH w = Returned cache w →
  cache !! PyStr.lower query = None →
  anilist_media query per_page = Some media →
  anilist_records media = inr results →
  json_load (json_dump (<[PyStr.lower query := results]> cache))
    = Some (<[PyStr.lower query := results]> cache) →
  ∃ w1,
    fetch_anilist query per_page w = Returned results w1
    ∧ w_log w1 = w_log w ++ [PostAnilist query per_page]
    ∧ ∀ query' per_page',
        PyStr.lower query' = PyStr.lower query →
        fetch_anilist query' per_page' w1 = Returned results w1.
Proof.
  intros Hdata Hdir Hload Hmiss Hans Hresults Hcodec.
  rewrite fetch_anilist_unfold, Hload, Hmiss, Hans, Hresults.
  rewrite save_cache_returns; [|by right; left|done|done].
  eexists. split; [done|]. split; [done|].
  pose proof (load_after_save ANILIST_CACHE_PATH _ (w_fs w) (w_rng w)
                (w_log w ++ [PostAnilist query per_page]) Hcodec) as Hload1.
  simpl in Hload1.
  intros query' per_page' Hlower. rewrite fetch_anilist_unfold. simpl.
  rewrite Hload1, Hlower. by rewrite lookup_insert_eq.
Qed.

End CacheFetchers.

Section Writes.
Context `{E : env}.

Lemma writes_only_ret {A} (paths : list string) (a : A) : writes_only paths (ret a).
Proof. by intros w b w' [= _ <-]. Qed.

Lemma writes_only_bind {A B} (paths : list string) (m : M A) (f : A → M B) :
  writes_only paths m → (∀ a, writes_only paths (f a)) → writes_only paths (bind m f).
Proof.
  intros Hm Hf w b w' (a & w1 & Hma & Hfa)%bind_Returned path Hpath.
  rewrite (Hf a _ _ _ Hfa path Hpath). by apply (Hm _ _ _ Hma).
Qed.

Lemma writes_only_mono {A} (paths paths' : list string) (m : M A) :
  paths ⊆ paths' → writes_only paths m → writes_only paths' m.
Proof. intros Hsub Hm w a w' Hrun path Hpath. apply (Hm _ _ _ Hrun). set_solver. Qed.

Lemma writes_only_same_fs {A} (m : M A) :
  (∀ w a w', m w = Returned a w' → w_fs w' = w_fs w) → writes_only [] m.
Proof. intros Hm w a w' Hrun path _. by rewrite (Hm _ _ _ Hrun). Qed.

Lemma fetch_search_mal_same_fs (query : string) (pages : nat) w data w' :
  fetch_search_mal query pages w = Returned data w' → w_fs w' = w_fs w.
Proof.
  unfold fetch_search_mal. rewrite page_loop_http. destruct (mapM _ _); [|done].
  by intros [= _ <-].
Qed.

Lemma fetch_top_anime_same_fs (pages : nat) w data w' :
  fetch_top_anime pages w = Returned data w' → w_fs w' = w_fs w.
Proof.
  unfold fetch_top_anime. rewrite page_loop_http. destruct (mapM _ _); [|done].
  by intros [= _ <-].
Qed.

Lemma save_cache_writes_only (path : string) cache : writes_only [path] (_save_cache path cache).
Proof.
  intros w [] w' ([] & w1 & Hmk & Hwr)%bind_Returned path' Hpath'.
  unfold os_makedirs in Hmk. case_bool_decide; [done|]. injection Hmk as Hw1. subst w1.
  unfold write_text in Hwr. cbn [w_fs files dirs] in Hwr.
  repeat (case_bool_decide; [done|]). destruct (PyStr.truthy _ && _); [done|].
  injection Hwr as Hw'. subst w'. simpl. apply lookup_insert_ne. set_solver.
Qed.

Lemma fetch_by_genre_writes_only (genre_id : Z) (pages : nat) :
  writes_only [CACHE_PATH] (fetch_by_genre genre_id pages).
Proof.
  intros w data w' Hrun path Hpath. rewrite fetch_by_genre_unfold in Hrun.
  destruct (_load_cache CACHE_PATH w) as [e|cache w0] eqn:Hload; [done|].
  apply load_cache_world in Hload as ->.
  destruct (cache !! _); [by injection Hrun as _ <-|].
  destruct (answers _ _); [|done].
  destruct (_save_cache _ _ _) as [e|[] w2] eqn:Hsave; [done|]. injection Hrun as _ <-.
  by rewrite (save_cache_writes_only _ _ _ _ _ Hsave path Hpath).
Qed.

Lemma fetch_anilist_writes_only (query : string) (per_page : nat) :
  writes_only [ANILIST_CACHE_PATH] (fetch_anilist query per_page).
Proof.
  intros w data w' Hrun path Hpath. rewrite fetch_anilist_unfold in Hrun.
  destruct (_load_cache ANILIST_CACHE_PATH w) as [e|cache w0] eqn:Hload; [done|].
  apply load_cache_world in Hload as ->.
  destruct (cache !! _); [by injection Hrun as _ <-|].
  destruct (anilist_media _ _); [|done].
  destruct (anilist_records _); [done|].
  destruct (_save_cache _ _ _) as [e|[] w2] eqn:Hsave; [done|]. injection Hrun as _ <-.
  by rewrite (save_cache_writes_only _ _ _ _ _ Hsave path Hpath).
Qed.

Lemma genre_loop_writes_only (gs : list string) (candidates : list anime) :
  writes_only [CACHE_PATH] (genre_loop gs candidates).
Proof.
  revert candidates. induction gs as [|g gs IH]; intros candidates; simpl.
  - apply writes_only_ret.
  - apply writes_only_bind.
    { unfold genre_id_of. destruct (MAL_GENRES !! g); [apply writes_only_ret|done]. }
    intros gid. apply writes_only_bind; [apply fetch_by_genre_writes_only|].
    intros data. apply IH.
Qed.

Lemma gather_candidates_writes_only (query : string) (p : parsed) :
  writes_only [CACHE_PATH; ANILIST_CACHE_PATH] (gather_candidates query p).
Proof.
  unfold gather_candidates. apply writes_only_bind.
  { destruct (genres p).
    - destruct (PyStr.truthy _); [|apply writes_only_ret].
      eapply writes_only_mono, writes_only_same_fs, fetch_search_mal_same_fs. set_solver.
    - eapply writes_only_mono, genre_loop_writes_only. set_solver. }
  intros c. apply writes_only_bind.
  { destruct c; [|apply writes_only_ret].
    destruct (PyStr.truthy _); [|apply writes_only_ret].
    eapply writes_only_mono, fetch_anilist_writes_only. set_solver. }
  intros [|??]; [|apply writes_only_ret].
  eapply writes_only_mono, writes_only_same_fs, fetch_top_anime_same_fs. set_solver.
Qed.

Lemma recommend_anime_writes_only (query : string) :
  writes_only [CACHE_PATH; ANILIST_CACHE_PATH] (recommend_anime query).
Proof.
  intros w out w' (p & candidates & w1 & shuffled & Hp & Hg & Hsh & _)%recommend_anime_Returned.
  intros path Hpath.
  destruct (random_shuffle_Returned (select p candidates) w1)
    as (x' & w2 & Hrun & _ & Hfs & _).
  rewrite Hrun in Hsh. injection Hsh as _ <-. rewrite Hfs.
  by apply (gather_candidates_writes_only _ _ _ _ _ Hg).
Qed.

(** X8.  The two caches do not touch each other, and nothing else is written:
    [fetch_by_genre] changes no file but the genre cache, [fetch_anilist]
    none but the AniList cache, search and top listing none at all, and a
    whole run of [recommend_anime] none but the two cache files. *)
Theorem recommend_anime_writes_only_caches :
  (∀ genre_id pages, writes_only [CACHE_PATH] (fetch_by_genre genre_id pages))
  ∧ (∀ query per_page, writes_only [ANILIST_CACHE_PATH] (fetch_anilist query per_page))
  ∧ (∀ query pages, writes_only [] (fetch_search_mal query pages))
  ∧ (∀ pages, writes_only [] (fetch_top_anime pages))
  ∧ (∀ query, writes_only [CACHE_PATH; ANILIST_CACHE_PATH] (recommend_anime query)).
Proof.
  split; [apply fetch_by_genre_writes_only|].
  split; [apply fetch_anilist_writes_only|].
  split; [intros; apply writes_only_same_fs, fetch_search_mal_same_fs|].
  split; [intros; apply writes_only_same_fs, fetch_top_anime_same_fs|].
  apply recommend_anime_writes_only.
Qed.

End Writes.

Lemma pretty_N_char_not_underscore (x : N) : pretty_N_char x ≠ "_"%char.
Proof. unfold pretty_N_char. by repeat case_match. Qed.

Lemma pretty_N_go_free (x : N) (s : string) :
  free_of "_" s → free_of "_" (pretty_N_go x s).
Proof.
  revert s. induction (N.lt_wf_0 x) as [x _ IH]; intros s Hs.
  assert (x = 0 ∨ 0 < x)%N as [->|Hx] by lia.
  - by rewrite pretty_N_go_0.
  - rewrite pretty_N_go_step by done. apply IH; [by apply N.div_lt|].
    split; [apply pretty_N_char_not_underscore|done].
Qed.

Lemma pretty_N_free (x : N) : free_of "_" (pretty x).
Proof.
  unfold pretty, pretty_N. case_decide; [by split|]. by apply pretty_N_go_free.
Qed.

Lemma pretty_nat_free (n : nat) : free_of "_" (pretty n).
Proof. apply pretty_N_free. Qed.

Lemma pretty_Z_free (z : Z) : free_of "_" (pretty z).
Proof.
  destruct z as [|p|p]; [by split|apply pretty_N_free|].
  split; [done|apply pretty_N_free].
Qed.

Lemma append_sep_inj (c : ascii) (a a' b b' : string) :
  free_of c a → free_of c a' →
  a +:+ String c b = a' +:+ String c b' → a = a' ∧ b = b'.
Proof.
  revert a'. induction a as [|d a IH]; intros [|d' a'] Ha Ha' Heq; simpl in *.
  - by injection Heq as ->.
  - injection Heq as <- _. by destruct Ha' as [[] _].
  - injection Heq as -> _. by destruct Ha as [[] _].
  - injection Heq as -> Heq. destruct Ha as [_ Ha], Ha' as [_ Ha'].
    destruct (IH a' Ha Ha' Heq) as [-> ->]. done.
Qed.

Lemma genre_key_eq (genre_id genre_id' : Z) (pages pages' : nat) :
  genre_key genre_id pages = genre_key genre_id' pages' →
  genre_id = genre_id' ∧ pages = pages'.
Proof.
  unfold genre_key. intros Heq. apply (inj (String.app "genre_")) in Heq.
  change ("_p" +:+ pretty pages) with (String "_" (String "p" (pretty pages))) in Heq.
  change ("_p" +:+ pretty pages') with (String "_" (String "p" (pretty pages'))) in Heq.
  apply append_sep_inj in Heq as [Hid Hp]; [|apply pretty_Z_free..].
  injection Hp as Hp. split; by eapply (inj pretty).
Qed.

(** X5.  Cache keys of [fetch_by_genre] never collide: two calls have the
    same key exactly when they have the same genre id and the same page
    count, so storing the listing of one call leaves the entry of every
    other call as it was. *)
Theorem genre_key_inj (genre_id genre_id' : Z) (pages pages' : nat) :
  (genre_key genre_id pages = genre_key genre_id' pages' ↔
   genre_id = genre_id' ∧ pages = pages')
  ∧ ∀ (cache : gmap string (list anime)) data,
      (genre_id, pages) ≠ (genre_id', pages') →
      <[genre_key genre_id pages := data]> cache !! genre_key genre_id' pages'
      = cache !! genre_key genre_id' pages'.
Proof.
  split.
  - split; [apply genre_key_eq|by intros [-> ->]].
  - intros cache data Hne. apply lookup_insert_ne.
    intros [-> ->]%genre_key_eq. done.
Qed.

Section ParserMore.
Context `{E : env}.

Lemma extract_keywords_lower (text : string) :
  extract_keywords (PyStr.lower text) = extract_keywords text.
Proof. unfold extract_keywords. by rewrite lower_idemp. Qed.

(** X9.  The keywords of a text are the noun chunks and the nouns and
    adjectives of its lowercased form, each once; the case of the letters
    of the text plays no part. *)
Theorem extract_keywords_spec (text : string) :
  NoDup (extract_keywords text)
  ∧ (∀ t, t ∈ extract_keywords text ↔
          t ∈ noun_chunks (nlp (PyStr.lower text))
          ∨ ∃ p, (t, p) ∈ doc_tokens (nlp (PyStr.lower text)) ∧ (p = NOUN ∨ p = ADJ))
  ∧ extract_keywords (PyStr.lower text) = extract_keywords text.
Proof.
  split; [apply extract_keywords_NoDup|]. split.
  - intros t. unfold extract_keywords. rewrite set_to_list_perm, elem_of_elements.
    rewrite elem_of_union, !elem_of_list_to_set, list_elem_of_fmap.
    apply or_iff_compat_l. split.
    + intros ([t' p] & -> & [Hp Hin]%list_elem_of_filter). exists p. split; [done|].
      unfold keep_pos in Hp. simpl in Hp.
      apply orb_prop_elim in Hp as [Hp|Hp]; apply bool_decide_unpack in Hp; auto.
    + intros (p & Hin & Hp). exists (t, p). split; [done|].
      apply list_elem_of_filter. split; [|done]. unfold keep_pos. simpl.
      apply orb_prop_intro. destruct Hp as [-> | ->]; [left|right]; by apply bool_decide_pack.
  - apply extract_keywords_lower.
Qed.

(** X10.  The parsed intent does not depend on the case of the letters; its
    genres are distinct directory keys in the order of the tokens; the
    episode ceiling is never negative; the hidden-gem preference needs both
    tokens, wherever they stand. *)
Theorem parse_user_request_intent (text : string) :
  parse_user_request (PyStr.lower text) = parse_user_request text
  ∧ ∀ p, parse_user_request text = inr p →
      NoDup (genres p)
      ∧ genres p `sublist_of` extract_keywords text
      ∧ (∀ g, g ∈ genres p ↔ g ∈ extract_keywords text ∧ is_Some (MAL_GENRES !! g))
      ∧ (∀ n, max_episodes p = Some n → 0 ≤ n)
      ∧ (rating_pref p = Some HiddenGem ↔
         "hidden" ∈ extract_keywords text ∧ "gem" ∈ extract_keywords text).
Proof.
  pose proof (extract_keywords_NoDup text) as Hnd.
  split; [unfold parse_user_request; by rewrite extract_keywords_lower|].
  intros p (m & Hm & ->)%parse_user_request_inr. simpl.
  split; [by apply NoDup_filter|]. split; [apply sublist_filter|].
  split; [intros g; rewrite list_elem_of_filter; tauto|]. split.
  - intros n ->. apply parse_max_episodes_Some in Hm as (i & t & _ & _ & _ & Hn); [|done].
    by eapply int_nonneg.
  - destruct (bool_decide ("hidden" ∈ _)) eqn:Hh, (bool_decide ("gem" ∈ _)) eqn:Hg; simpl;
      try apply bool_decide_eq_true in Hh; try apply bool_decide_eq_true in Hg;
      try apply bool_decide_eq_false in Hh; try apply bool_decide_eq_false in Hg;
      split; try done; try tauto.
Qed.

End ParserMore.

Lemma genre_dict_lookup_from (d0 : gmap string Z) (genres : list mal_genre) (k : string) :
  foldl (fun d g => <[PyStr.lower (genre_name g) := genre_mal_id g]> d) d0 genres !! k
  = match last (filter (fun g => PyStr.lower (genre_name g) = k) genres) with
    | Some g => Some (genre_mal_id g)
    | None => d0 !! k
    end.
Proof.
  revert d0. induction genres as [|g genres IH]; intros d0; simpl; [done|].
  rewrite IH, filter_cons. case_decide as Hk.
  - rewrite last_cons. destruct (last (filter _ genres)); [done|].
    by rewrite <- Hk, lookup_insert_eq.
  - destruct (last (filter _ genres)); [done|]. by rewrite lookup_insert_ne.
Qed.

Section Directory.
Context `{E : env}.

(** X11.  The genre directory: a failed request raises; otherwise a name is
    looked up by its lowercased form and finds the id of the last entry of
    that form, every key is in lower case, and every name of the list has a
    key.  On such a directory the genres the parser finds are lowercased
    catalog names. *)
Theorem fetch_mal_genres_directory :
  fetch_mal_genres None = inl HTTPError
  ∧ ∀ entries, ∃ d,
      fetch_mal_genres (Some entries) = inr d
      ∧ (∀ k, d !! k = genre_mal_id <$>
                        last (filter (fun g => PyStr.lower (genre_name g) = k) entries))
      ∧ (∀ k, is_Some (d !! k) → PyStr.lower k = k)
      ∧ (∀ g, g ∈ entries → is_Some (d !! PyStr.lower (genre_name g)))
      ∧ (MAL_GENRES = d →
         ∀ text p t, parse_user_request text = inr p → t ∈ genres p →
           ∃ g, g ∈ entries ∧ t = PyStr.lower (genre_name g)
                ∧ MAL_GENRES !! t = Some (genre_mal_id g)).
Proof.
  split; [done|]. intros entries. exists (genre_dict entries). split; [done|].
  assert (Hlookup : ∀ k, genre_dict entries !! k = genre_mal_id <$>
            last (filter (fun g => PyStr.lower (genre_name g) = k) entries)).
  { intros k. unfold genre_dict. rewrite genre_dict_lookup_from.
    by destruct (last _). }
  assert (Hfound : ∀ k, is_Some (genre_dict entries !! k) →
            ∃ g, g ∈ entries ∧ k = PyStr.lower (genre_name g)
                 ∧ genre_dict entries !! k = Some (genre_mal_id g)).
  { intros k. rewrite Hlookup. destruct (last _) as [g|] eqn:Hlast; [|by intros [??]].
    intros _. apply last_Some_elem_of, list_elem_of_filter in Hlast as [<- Hg].
    by exists g. }
  split; [exact Hlookup|]. split.
  { intros k (g & _ & -> & _)%Hfound. apply lower_idemp. }
  split.
  { intros g Hg. rewrite Hlookup.
    destruct (last _) eqn:Hlast; [by eexists|].
    apply last_None in Hlast.
    assert (g ∈ filter (fun g' => PyStr.lower (genre_name g') = PyStr.lower (genre_name g)) entries)
      as Hin by (by apply list_elem_of_filter).
    rewrite Hlast in Hin. by apply elem_of_nil in Hin. }
  intros Hd text p t Hp Ht. rewrite Hd. apply Hfound. rewrite <- Hd.
  pose proof (parsed_genres_in_directory text p Hp) as Hall.
  by apply (proj1 (Forall_forall _ _) Hall).
Qed.

End Directory.











(** A stripped text is non-empty exactly when the text has a character
    that is not white space. *)
Lemma nonblank_has_nonspace (s : string) : nonblank s = has_nonspace (PyStr.chars s).
Proof. apply truthy_strip. Qed.

Lemma nonblank_strip (s : string) : nonblank (PyStr.strip s) = nonblank s.
Proof. unfold nonblank. by rewrite strip_idemp. Qed.

Section DedupeMore.
Context (k : anime → string).

Lemma first_seen_id (seen : gset string) (l : list anime) :
  (∀ a, a ∈ l → k a ∉ seen) → NoDup (k <$> l) → first_seen k seen l = l.
Proof.
  revert seen. induction l as [|a l IH]; intros seen Hseen Hnd; simpl; [done|].
  apply NoDup_cons in Hnd as [Ha Hnd].
  rewrite bool_decide_false by (apply Hseen; by left). f_equal.
  apply IH; [|done]. intros b Hb [Heq%elem_of_singleton|Hin]%elem_of_union.
  - apply Ha. rewrite <- Heq. apply list_elem_of_fmap. eauto.
  - apply (Hseen b); [by right|done].
Qed.

End DedupeMore.

Lemma filter_all {A} (P : A → Prop) `{∀ x, Decision (P x)} (l : list A) :
  Forall P l → filter P l = l.
Proof.
  induction 1 as [|a l Ha _ IH]; [done|]. by rewrite filter_cons_True, IH.
Qed.

(** X14.  Selection is idempotent, and so is each deduplication pass; a list
    whose urls are distinct passes the url pass unchanged. *)
Theorem select_idempotent (p : parsed) (l : list anime) :
  select p (select p l) = select p l
  ∧ dedupe_urls (dedupe_urls l) = dedupe_urls l
  ∧ dedupe_base_titles (dedupe_base_titles l) = dedupe_base_titles l
  ∧ (NoDup (url <$> l) → dedupe_urls l = l)
  ∧ (NoDup (base_title <$> l) → dedupe_base_titles l = l).
Proof.
  assert (Hu : ∀ l', NoDup (url <$> l') → dedupe_urls l' = l').
  { intros l' Hnd. rewrite dedupe_urls_first_seen.
    apply first_seen_id; [intros; apply not_elem_of_empty|done]. }
  assert (Hb : ∀ l', NoDup (base_title <$> l') → dedupe_base_titles l' = l').
  { intros l' Hnd. rewrite dedupe_base_titles_first_seen.
    apply first_seen_id; [intros; apply not_elem_of_empty|done]. }
  split; [|split; [|split; [|split]]]; [| | |exact (Hu l)|exact (Hb l)].
  - unfold select at 1.
    rewrite (Hu (select p l)) by apply select_NoDup_url.
    rewrite (Hb (select p l)) by apply select_NoDup_base_title.
    unfold select, episode_filter, hidden_gem_filter.
    destruct (max_episodes p) as [n|], (rating_pref p) as [[]|]; try done.
    + rewrite (filter_all (fun a => episodes_ok n a)).
      * apply filter_all, Forall_forall. by intros a [Ha _]%list_elem_of_filter.
      * apply Forall_forall.
        by intros a [_ [Ha _]%list_elem_of_filter]%list_elem_of_filter.
    + apply filter_all, Forall_forall. by intros a [Ha _]%list_elem_of_filter.
    + apply filter_all, Forall_forall. by intros a [Ha _]%list_elem_of_filter.
  - apply Hu. rewrite dedupe_urls_first_seen. apply first_seen_NoDup.
  - apply Hb. rewrite dedupe_base_titles_first_seen. apply first_seen_NoDup.
Qed.

Section RankMore.
Context `{E : env}.

Lemma take_10_all {A} (l : list A) :
  length (take 10 l) = (10 `min` length l)%nat
  ∧ take 10 l ⊆+ l
  ∧ ((length l ≤ 10)%nat → take 10 l = l).
Proof.
  split; [apply length_take|]. split; [apply sublist_submseteq, sublist_take|].
  apply take_ge.
Qed.

Lemma rank_keeps (candidates top : list anime) w w' :
  rank candidates w = Returned top w' →
  w_fs w' = w_fs w ∧ w_log w' = w_log w
  ∧ length top = (10 `min` length candidates)%nat
  ∧ top ⊆+ candidates
  ∧ ((length candidates ≤ 10)%nat → top ≡ₚ candidates).
Proof.
  intros (shuffled & Hsh & ->)%rank_Returned.
  destruct (random_shuffle_Returned candidates w) as (x' & w2 & Hrun & Hperm & Hfs & Hlog).
  rewrite Hrun in Hsh. injection Hsh as <- <-.
  split; [done|]. split; [done|].
  pose proof (sorted_desc_Permutation score_key x') as Hsort.
  destruct (take_10_all (sorted_desc score_key x')) as (Hlen & Hsub & Hall).
  rewrite (Permutation_length Hsort), (Permutation_length Hperm) in Hlen, Hall.
  split; [done|]. split.
  - trans (sorted_desc score_key x'); [done|]. by rewrite Hsort, Hperm.
  - intros Hfew. by rewrite (Hall Hfew), Hsort.
Qed.

(** X13.  When [recommend_anime] returns, the ranking has neither sent nor
    written anything; the result has as many items as were selected, up to
    ten, all of them selected records, and when no more than ten records
    were selected none of them is missing. *)
Theorem recommend_anime_keeps_what_fits (query : string) w out w' :
  recommend_anime query w = Returned out w' →
  ∃ p candidates w1,
    parse_user_request query = inr p
    ∧ gather_candidates query p w = Returned candidates w1
    ∧ w_fs w' = w_fs w1 ∧ w_log w' = w_log w1
    ∧ length out = (10 `min` length (select p candidates))%nat
    ∧ out ⊆+ to_item <$> select p candidates
    ∧ ((length (select p candidates) ≤ 10)%nat →
       out ≡ₚ to_item <$> select p candidates).
Proof.
  unfold recommend_anime. intros (p & w0 & Hp & Hrest)%bind_Returned.
  unfold lift in Hp. destruct (parse_user_request query) as [e|p']; [done|].
  injection Hp as -> ->.
  apply bind_Returned in Hrest as (candidates & w1 & Hg & Hrest).
  apply bind_Returned in Hrest as (top & w2 & Hrank & [<- <-]%ret_Returned).
  apply rank_keeps in Hrank as (Hfs & Hlog & Hlen & Hsub & Hall).
  exists p, candidates, w1. split; [done|]. split; [done|]. split; [done|]. split; [done|].
  split; [by rewrite length_fmap|]. split; [by apply fmap_submseteq|].
  intros Hfew. by rewrite (Hall Hfew).
Qed.

Lemma fetch_top_anime_2 w :
  fetch_top_anime 2 w
  = match jikan_top_anime 1, jikan_top_anime 2 with
    | Some page1, Some page2 =>
        Returned (page1 ++ page2) (logged [GetTopAnime 1; GetTopAnime 2] w)
    | _, _ => Raised HTTPError
    end.
Proof.
  unfold fetch_top_anime. rewrite page_loop_http. simpl.
  destruct (jikan_top_anime 1), (jikan_top_anime 2); simpl; try done.
  by rewrite app_nil_r.
Qed.

Lemma rank_returns (candidates : list anime) w : ∃ top w', rank candidates w = Returned top w'.
Proof.
  destruct (random_shuffle_Returned candidates w) as (x' & w' & Hrun & _).
  eexists _, w'. apply rank_Returned. eauto.
Qed.

Lemma get_default_recs_effects w out w' :
  get_default_recs w = Returned out w' →
  (length out ≤ 10)%nat ∧ w_fs w' = w_fs w
  ∧ w_log w' = w_log w ++ [GetTopAnime 1; GetTopAnime 2].
Proof.
  unfold get_default_recs. intros (data & w1 & Hf & Hrest)%bind_Returned.
  apply bind_Returned in Hrest as (top & w2 & Hrank & [<- <-]%ret_Returned).
  apply rank_keeps in Hrank as (Hfs & Hlog & Hlen & _).
  rewrite fetch_top_anime_2 in Hf.
  destruct (jikan_top_anime 1), (jikan_top_anime 2); try done.
  injection Hf as _ <-. rewrite length_fmap, Hlen, Hfs, Hlog. split; [lia|done].
Qed.

(** X12.  [get_default_recs] raises exactly when one of the two pages of the top
    listing is refused; otherwise it sends those two requests and no
    other, writes nothing, and returns as many items as the listing has,
    up to ten, all of them records of the listing and, when the listing has
    no more than ten, all of its records. *)
Theorem get_default_recs_outcome w :
  (jikan_top_anime 1 = None ∨ jikan_top_anime 2 = None →
   get_default_recs w = Raised HTTPError)
  ∧ ∀ page1 page2,
      jikan_top_anime 1 = Some page1 → jikan_top_anime 2 = Some page2 →
      ∃ out w',
        get_default_recs w = Returned out w'
        ∧ w_fs w' = w_fs w
        ∧ w_log w' = w_log w ++ [GetTopAnime 1; GetTopAnime 2]
        ∧ length out = (10 `min` length (page1 ++ page2))%nat
        ∧ out ⊆+ to_item <$> (page1 ++ page2)
        ∧ ((length (page1 ++ page2) ≤ 10)%nat → out ≡ₚ to_item <$> (page1 ++ page2)).
Proof.
  unfold get_default_recs, bind. rewrite fetch_top_anime_2. split.
  - intros [-> | H2]; [done|]. rewrite H2. by destruct (jikan_top_anime 1).
  - intros page1 page2 -> ->.
    destruct (rank_returns (page1 ++ page2) (logged [GetTopAnime 1; GetTopAnime 2] w))
      as (top & w' & Hrank).
    rewrite Hrank. apply rank_keeps in Hrank as (Hfs & Hlog & Hlen & Hsub & Hall).
    exists (to_item <$> top), w'. split; [done|]. split; [done|]. split; [done|].
    split; [by rewrite length_fmap|]. split; [by apply fmap_submseteq|].
    intros Hfew. by rewrite (Hall Hfew).
Qed.

(** X15.  The page script: with a genre selected the text field is not read;
    free text is used stripped, and what is passed on is then never blank;
    blank text without a genre gives the default list and sends the two
    top-listing requests only.  Whatever is selected or typed, at most ten
    results are shown and no file but the two caches is written. *)
Theorem main_results_outcome (selected : list string) (user_input : string) w :
  (selected ≠ [] →
   main_results selected user_input w = recommend_anime (join " " selected) w)
  ∧ (selected = [] → nonblank user_input = true →
     main_results selected user_input w = recommend_anime (PyStr.strip user_input) w
     ∧ nonblank (PyStr.strip user_input) = true)
  ∧ (selected = [] → nonblank user_input = false →
     main_results selected user_input w = get_default_recs w
     ∧ ∀ out w', get_default_recs w = Returned out w' →
                 w_log w' = w_log w ++ [GetTopAnime 1; GetTopAnime 2])
  ∧ ∀ out w',
      main_results selected user_input w = Returned out w' →
      (length out ≤ 10)%nat
      ∧ ∀ path, path ∉ [CACHE_PATH; ANILIST_CACHE_PATH] →
                files (w_fs w') !! path = files (w_fs w) !! path.
Proof.
  assert (Hrec : ∀ query out w', recommend_anime query w = Returned out w' →
            (length out ≤ 10)%nat
            ∧ ∀ path, path ∉ [CACHE_PATH; ANILIST_CACHE_PATH] →
                      files (w_fs w') !! path = files (w_fs w) !! path).
  { intros query out w' Hrun. split; [|exact (recommend_anime_writes_only query w out w' Hrun)].
    apply recommend_anime_Returned in Hrun as (? & ? & ? & ? & _ & _ & _ & ->).
    rewrite length_fmap. apply top10_length. }
  pose proof (get_default_recs_effects w) as Hdef.
  unfold main_results, nonblank in *. split; [by destruct selected|].
  split; [intros -> Hnb; rewrite Hnb; split; [done|]; rewrite <- Hnb; apply nonblank_strip|].
  split.
  { intros -> Hnb. rewrite Hnb. split; [done|]. intros out w' Hrun.
    by apply Hdef in Hrun as (_ & _ & ?). }
  intros out w'. destruct selected; [|apply Hrec].
  destruct (PyStr.truthy _); [apply Hrec|].
  intros (Hlen & Hfs & _)%Hdef. split; [done|]. intros path _. by rewrite Hfs.
Qed.

(** X16.  When the parser finds no genre: a non-blank query is searched
    anew on every call (search results are not cached); a refused search
    aborts the call with [HTTPError]; a search with results is the only
    request sent and no file is touched; a blank query is served from the
    top listing alone. *)
Theorem recommend_anime_without_genres (query : string) (p : parsed) w :
  parse_user_request query = inr p →
  genres p = [] →
  (nonblank query = true → jikan_anime_search query 1 = None →
   recommend_anime query w = Raised HTTPError)
  ∧ (nonblank query = true →
     ∀ data, jikan_anime_search query 1 = Some data → data ≠ [] →
       ∃ out w',
         recommend_anime query w = Returned out w'
         ∧ gather_candidates query p w
           = Returned data (logged [GetAnimeSearch query 1] w)
         ∧ w_fs w' = w_fs w
         ∧ w_log w' = w_log w ++ [GetAnimeSearch query 1])
  ∧ (nonblank query = false →
     gather_candidates query p w = fetch_top_anime 2 w).
Proof.
  intros Hp Hgenres. unfold nonblank. split; [|split].
  - intros Hnb Hnone. unfold recommend_anime, gather_candidates, bind.
    rewrite Hp. unfold lift, ret at 1.
    rewrite Hgenres, Hnb. unfold fetch_search_mal. rewrite page_loop_http.
    simpl. by rewrite Hnone.
  - intros Hnb data Hdata Hne.
    assert (Hg : gather_candidates query p w
                 = Returned data (logged [GetAnimeSearch query 1] w)).
    { unfold gather_candidates, bind. rewrite Hgenres, Hnb.
      unfold fetch_search_mal. rewrite page_loop_http. simpl. rewrite Hdata. simpl.
      rewrite app_nil_r. by destruct data. }
    destruct (rank_returns (select p data)
                (logged [GetAnimeSearch query 1] w)) as (top & w' & Hrank).
    exists (to_item <$> top), w'. unfold recommend_anime, bind.
    rewrite Hp. unfold lift, ret at 1. rewrite Hg, Hrank.
    apply rank_keeps in Hrank as (Hfs & Hlog & _). by rewrite Hfs, Hlog.
  - intros Hnb. unfold gather_candidates, bind, ret. rewrite Hgenres, Hnb.
    by destruct (fetch_top_anime 2 w) as [|[|??] ?].
Qed.

End RankMore.

(** ** Which requests are sent, and what a second save does *)

Section Sends.
Context `{E : env}.

Lemma sends_only_ret {A} (P : request → Prop) (a : A) : sends_only P (ret a).
Proof. intros w b w' [= _ <-]. exists []. by rewrite app_nil_r. Qed.

Lemma sends_only_bind_run {A B} (P : request → Prop) (m : M A) (f : A → M B) :
  sends_only P m → (∀ a w w1, m w = Returned a w1 → sends_only P (f a)) →
  sends_only P (bind m f).
Proof.
  intros Hm Hf w b w' (a & w1 & Hma & Hfa)%bind_Returned.
  destruct (Hm _ _ _ Hma) as (rqs1 & Hlog1 & HP1).
  destruct (Hf a _ _ Hma _ _ _ Hfa) as (rqs2 & Hlog2 & HP2).
  exists (rqs1 ++ rqs2). split; [by rewrite Hlog2, Hlog1, app_assoc|].
  by apply Forall_app.
Qed.

Lemma sends_only_bind {A B} (P : request → Prop) (m : M A) (f : A → M B) :
  sends_only P m → (∀ a, sends_only P (f a)) → sends_only P (bind m f).
Proof. intros Hm Hf. apply sends_only_bind_run; [done|]. intros a _ _ _. apply Hf. Qed.

Lemma sends_only_same_log {A} (P : request → Prop) (m : M A) :
  (∀ w a w', m w = Returned a w' → w_log w' = w_log w) → sends_only P m.
Proof. intros Hm w a w' Hrun. exists []. by rewrite app_nil_r, (Hm _ _ _ Hrun). Qed.

Lemma sends_only_page_loop (P : request → Prop) (rq : nat → request)
    (answer : nat → option (list anime)) (pages : list nat) (all_data : list anime) :
  Forall (fun page => P (rq page)) pages →
  sends_only P (page_loop (fun page => http (rq page) (answer page)) pages all_data).
Proof.
  intros HP w data w'. rewrite page_loop_http. destruct (mapM _ _); [|done].
  intros [= _ <-]. exists (rq <$> pages). split; [done|]. by apply Forall_fmap.
Qed.

Lemma load_cache_same_log (path : string) w cache w' :
  _load_cache path w = Returned cache w' → w_log w' = w_log w.
Proof. by intros ->%load_cache_world. Qed.

Lemma save_cache_same_log (path : string) cache w u w' :
  _save_cache path cache w = Returned u w' → w_log w' = w_log w.
Proof.
  intros ([] & w1 & Hmk & Hwr)%bind_Returned.
  unfold os_makedirs in Hmk. case_bool_decide; [done|]. injection Hmk as Hw1. subst w1.
  unfold write_text in Hwr. cbn [w_fs files dirs] in Hwr.
  repeat (case_bool_decide; [done|]). destruct (PyStr.truthy _ && _); [done|].
  by injection Hwr as _ <-.
Qed.

Lemma sends_only_fetch_by_genre (P : request → Prop) (genre_id : Z) (pages : nat) :
  Forall (fun page => P (GetAnimeByGenre genre_id page)) (seq 1 pages) →
  sends_only P (fetch_by_genre genre_id pages).
Proof.
  intros HP. apply sends_only_bind.
  { apply sends_only_same_log, load_cache_same_log. }
  intros cache. cbv zeta. destruct (cache !! _); [apply sends_only_ret|].
  apply sends_only_bind; [by apply sends_only_page_loop|].
  intros data. apply sends_only_bind; [|intros; apply sends_only_ret].
  apply sends_only_same_log. intros ???. apply save_cache_same_log.
Qed.

Lemma sends_only_fetch_anilist (P : request → Prop) (query : string) (per_page : nat) :
  P (PostAnilist query per_page) → sends_only P (fetch_anilist query per_page).
Proof.
  intros HP. apply sends_only_bind.
  { apply sends_only_same_log, load_cache_same_log. }
  intros cache. cbv zeta. destruct (cache !! _); [apply sends_only_ret|].
  apply sends_only_bind.
  { intros w media w'. unfold http. destruct (anilist_media _ _); [|done].
    intros [= _ <-]. exists [PostAnilist query per_page]. split; [done|]. by constructor. }
  intros media. apply sends_only_bind.
  { apply sends_only_same_log. intros w results w'.
    destruct (anilist_records media); [done|]. by intros [= _ <-]. }
  intros results. apply sends_only_bind; [|intros; apply sends_only_ret].
  apply sends_only_same_log. intros ???. apply save_cache_same_log.
Qed.

Lemma sends_only_genre_loop (P : request → Prop) (gs : list string)
    (candidates : list anime) :
  (∀ g gid page, g ∈ gs → MAL_GENRES !! g = Some gid → (page = 1 ∨ page = 2)%nat →
     P (GetAnimeByGenre gid page)) →
  sends_only P (genre_loop gs candidates).
Proof.
  revert candidates. induction gs as [|g gs IH]; intros candidates HP; simpl.
  - apply sends_only_ret.
  - apply sends_only_bind_run.
    { apply sends_only_same_log. intros w gid w'. unfold genre_id_of.
      destruct (MAL_GENRES !! g); [|done]. by intros [= _ <-]. }
    intros gid w w1 Hgid.
    assert (Hg : MAL_GENRES !! g = Some gid).
    { unfold genre_id_of in Hgid. destruct (MAL_GENRES !! g); [|done].
      by injection Hgid as -> _. }
    apply sends_only_bind.
    { apply sends_only_fetch_by_genre. simpl.
      repeat constructor; (eapply HP; [left|exact Hg|]); auto. }
    intros data. apply IH. intros g' gid' page Hin. apply HP. by right.
Qed.

Lemma sends_only_fetch_top_anime (P : request → Prop) (pages : nat) :
  Forall (fun page => P (GetTopAnime page)) (seq 1 pages) →
  sends_only P (fetch_top_anime pages).
Proof. intros HP. by apply sends_only_page_loop. Qed.

(** X18. A query in which the parser finds a genre is never sent to the
    free-text search, not even when every genre listing comes back empty:
    when [recommend_anime] returns, the requests it has added to the log
    are pages 1 and 2 of the listings of the parsed genres' ids, at most
    the secondary catalog with the query and 10 results, and pages 1 and 2
    of the top listing. *)
Theorem recommend_anime_genre_query_never_searches (query : string) (p : parsed) w out w' :
  parse_user_request query = inr p →
  genres p ≠ [] →
  recommend_anime query w = Returned out w' →
  ∃ rqs,
    w_log w' = w_log w ++ rqs
    ∧ Forall (genre_path_request (omap (fun g => MAL_GENRES !! g) (genres p)) query) rqs
    ∧ ∀ q page, GetAnimeSearch q page ∉ rqs.
Proof.
  intros Hparse Hgenres
    (p' & candidates & w1 & shuffled & Hp' & Hg & Hsh & _)%recommend_anime_Returned.
  rewrite Hparse in Hp'. injection Hp' as <-.
  destruct (random_shuffle_Returned (select p candidates) w1)
    as (x' & w2 & Hrun & _ & _ & Hlog).
  rewrite Hrun in Hsh. injection Hsh as _ <-.
  set (P := genre_path_request (omap (fun g => MAL_GENRES !! g) (genres p)) query).
  assert (Hsends : sends_only P (gather_candidates query p)).
  { unfold gather_candidates.
    destruct (genres p) as [|g gs] eqn:Hgs; [done|].
    apply sends_only_bind.
    { apply sends_only_genre_loop. intros g' gid page Hin Hgid Hpage. split; [|done].
      apply list_elem_of_omap. eauto. }
    intros c. apply sends_only_bind.
    { destruct c; [|apply sends_only_ret].
      destruct (PyStr.truthy _); [|apply sends_only_ret].
      by apply sends_only_fetch_anilist. }
    intros [|??]; [|apply sends_only_ret].
    apply sends_only_fetch_top_anime. simpl.
    apply Forall_cons_2; [by left|]. apply Forall_cons_2; [by right|]. apply Forall_nil_2. }
  destruct (Hsends _ _ _ Hg) as (rqs & Hrqs & HP).
  exists rqs. split; [by rewrite Hlog|]. split; [done|].
  intros q page Hin. by apply (proj1 (Forall_forall _ _) HP) in Hin.
Qed.

End Sends.

Section SaveTwice.
Context `{E : env}.

Lemma save_cache_Returned (path : string) (cache : gmap string (list anime)) w u w1 :
  path ∈ [CACHE_PATH; ANILIST_CACHE_PATH] →
  _save_cache path cache w = Returned u w1 →
  files (w_fs w) !! CACHE_DIR = None ∧ (path ∉ dirs (w_fs w))
  ∧ w1 = World (FS (<[path := json_dump cache]> (files (w_fs w)))
                   ({[CACHE_DIR]} ∪ dirs (w_fs w)))
               (w_rng w) (w_log w).
Proof.
  intros Hpath ([] & w0 & Hmk & Hwr)%bind_Returned.
  unfold os_makedirs in Hmk. case_bool_decide as Hfile; [done|].
  injection Hmk as Hw0. subst w0.
  unfold write_text in Hwr. cbn [w_fs files dirs w_rng w_log] in Hwr.
  case_bool_decide as Hdir; [done|]. case_bool_decide; [done|].
  destruct (PyStr.truthy _ && _); [done|]. injection Hwr as _ <-.
  split; [|split; [|done]].
  - destruct (files (w_fs w) !! CACHE_DIR) eqn:Hd; [|done]. by destruct Hfile.
  - set_solver.
Qed.

(** X17. A save replaces the whole file and leaves the other cache file
    alone, and the cache directory being there already is no error: after
    one save to a cache path has returned, a further save to a cache path
    returns as well (unless a directory sits at that other path); the file
    system then holds exactly the two texts written, a load from the path
    saved last gives the mapping saved last, not a merge, and a load from
    the other path still gives the first mapping. *)
Theorem save_cache_twice (path path' : string) (cache cache' : gmap string (list anime))
    w w1 :
  path ∈ [CACHE_PATH; ANILIST_CACHE_PATH] → path' ∈ [CACHE_PATH; ANILIST_CACHE_PATH] →
  path' ∉ dirs (w_fs w) →
  _save_cache path cache w = Returned tt w1 →
  ∃ w2,
    _save_cache path' cache' w1 = Returned tt w2
    ∧ files (w_fs w2)
      = <[path' := json_dump cache']> (<[path := json_dump cache]> (files (w_fs w)))
    ∧ (json_load (json_dump cache') = Some cache' →
       _load_cache path' w2 = Returned cache' w2)
    ∧ (path ≠ path' → json_load (json_dump cache) = Some cache →
       _load_cache path w2 = Returned cache w2).
Proof.
  intros Hpath Hpath' Hdir' (Hdata & Hdir & ->)%save_cache_Returned; [|done].
  pose proof (cache_path_not_dir _ Hpath) as Hne.
  pose proof (cache_path_not_dir _ Hpath') as Hne'.
  eexists. split; [|split; [|split]].
  - apply save_cache_returns; [done| |].
    + cbn [w_fs files]. by rewrite lookup_insert_ne.
    + cbn [w_fs dirs]. set_solver.
  - reflexivity.
  - intros Hcodec. cbn [w_fs files dirs w_rng w_log].
    rewrite (load_cache_present _ (json_dump cache')), Hcodec; [done|].
    cbn [w_fs files]. apply lookup_insert_eq.
  - intros Hother Hcodec. cbn [w_fs files dirs w_rng w_log].
    rewrite (load_cache_present _ (json_dump cache)), Hcodec; [done|].
    cbn [w_fs files]. rewrite lookup_insert_ne by done. apply lookup_insert_eq.
Qed.

End SaveTwice.

(** * The example catalog at work *)

Lemma run_Some {A} (m : M A) w (a : A) : run m w = Some a ↔ ∃ w', m w = Returned a w'.
Proof.
  unfold run. destruct (m w) as [e|a' w']; split.
  - discriminate.
  - by intros [? ?].
  - intros [= ->]. eauto.
  - by intros [? [= -> _]].
Qed.

Example lower_mixed_case :
  PyStr.lower "Hidden GEM: 2" = "hidden gem: 2" ∧ PyStr.lower "POKÉMON" = "pokémon".
Proof. split; vm_compute; reflexivity. Qed.

(** The capital sigma becomes the final sigma at the end of a word only. *)
Example lower_sigma : PyStr.lower "ΟΔΥΣΣΕΥΣ Σ" = "οδυσσευς σ".
Proof. vm_compute. reflexivity. Qed.

(** The ideographic space U+3000 is white space. *)
Example strip_both_ends :
  PyStr.strip "  Naruto  " = "Naruto" ∧ PyStr.strip "　Naruto　" = "Naruto".
Proof. split; vm_compute; reflexivity. Qed.

Example int_of_digits :
  PyStr.isdigit "020" = true ∧ PyStr.int "020" = Some 20
  ∧ PyStr.isdigit "٣" = true ∧ PyStr.int "٣" = Some 3
  ∧ PyStr.isdigit "１２" = true ∧ PyStr.int "１２" = Some 12.
Proof. repeat split; vm_compute; reflexivity. Qed.

(** A superscript two is a digit, yet no decimal digit. *)
Example int_rejects_superscript : PyStr.isdigit "²" = true ∧ PyStr.int "²" = None.
Proof. split; vm_compute; reflexivity. Qed.

Example isdigit_rejects : PyStr.isdigit "12a" = false ∧ PyStr.isdigit EmptyString = false.
Proof. split; vm_compute; reflexivity. Qed.

Example normalized_base_of_sequel :
  normalized_base "FLCL: Progressive" = "flcl"
  ∧ normalized_base "Kaguya-sama: Love is War" = "kaguya"
  ∧ normalized_base "  pokémon　 - The Movie" = "pokémon"
  ∧ normalized_base "POKÉMON: XY" = "pokémon".
Proof. repeat split; vm_compute; reflexivity. Qed.

(** Averages that differ give one float when they are large; an average
    beyond the range of the floats raises. *)
Example anilist_score_rounds :
  anilist_score (Media "a" "b" (Some (10 ^ 17)) None)
  = anilist_score (Media "a" "b" (Some (10 ^ 17 + 1)) None)
  ∧ anilist_score (Media "a" "b" (Some 85) None) = inr (float_div10 85)
  ∧ (default 0 (float_div10 85) == 85 # 10)%Q
  ∧ anilist_record (Media "a" "b" (Some (10 ^ 400)) None) = inl OverflowError.
Proof. repeat split; vm_compute; reflexivity. Qed.

Example cache_paths :
  CACHE_PATH = "data/genre_cache.json"
  ∧ os_path_dirname CACHE_PATH = "data"
  ∧ os_path_dirname "genre_cache.json" = EmptyString.
Proof. repeat split; reflexivity. Qed.

Example parse_under_12 :
  parse_user_request (E:=demo_env) "hidden gem under 12 romance"
  = inr (Parsed ["romance"] (Some 12) (Some HiddenGem)).
Proof. vm_compute. reflexivity. Qed.

Example parse_under_12_only :
  parse_user_request (E:=demo_env) "under 12" = inr (Parsed [] (Some 12) None).
Proof. vm_compute. reflexivity. Qed.

Example parse_hidden_gem_under_12 :
  parse_user_request (E:=demo_env) "hidden gem under 12"
  = inr (Parsed [] (Some 12) (Some HiddenGem)).
Proof. vm_compute. reflexivity. Qed.

(** A digit of another script sets the ceiling as well. *)
Example parse_under_arabic_3 :
  parse_user_request (E:=demo_env) "under ٣" = inr (Parsed [] (Some 3) None).
Proof. vm_compute. reflexivity. Qed.

(** The order of the token collection decides: here ["20"] does not come
    right after ["under"]. *)
Example parse_romance_under_20 :
  extract_keywords (E:=demo_env) "romance under 20" = ["under"; "romance"; "20"]
  ∧ parse_user_request (E:=demo_env) "romance under 20"
    = inr (Parsed ["romance"] None None).
Proof. split; vm_compute; reflexivity. Qed.

Example parse_blank :
  parse_user_request (E:=demo_env) " " = inr (Parsed [] None None).
Proof. vm_compute. reflexivity. Qed.

Example recommend_under_12 :
  run (recommend_anime (E:=demo_env) "under 12") demo_world
  = Some [ Item "Erased" "https://myanimelist.net/anime/31043";
           Item "FLCL" "https://myanimelist.net/anime/227";
           Item "Pupa" "https://myanimelist.net/anime/19315" ].
Proof. vm_compute. reflexivity. Qed.

Example recommend_hidden_gem_under_12 :
  run (recommend_anime (E:=demo_env) "hidden gem under 12") demo_world
  = Some [ Item "Pupa" "https://myanimelist.net/anime/19315" ].
Proof. vm_compute. reflexivity. Qed.


Example default_recs_ten :
  ∃ out, run (get_default_recs (E:=demo_env)) demo_world = Some out ∧ length out = 10%nat.
Proof. eexists. split; vm_compute; reflexivity. Qed.

Lemma demo_env_responsive : responsive demo_env.
Proof.
  repeat split; intros; simpl; repeat case_decide; eauto.
Qed.

Lemma demo_env_averages : averages_convert demo_env.
Proof.
  intros q per_page media. simpl. case_decide; intros [= <-]; eexists;
    vm_compute; reflexivity.
Qed.

Lemma demo_env_codec : codec_reads_own_output demo_env.
Proof.
  intros cache. simpl. unfold demo_json_dump, demo_json_load.
  repeat case_decide; eauto; done.
Qed.

Lemma demo_world_cache_usable : cache_usable (E:=demo_env) (w_fs demo_world).
Proof.
  split; [done|]. intros path _. split; [apply not_elem_of_empty|].
  intros text. simpl. by rewrite lookup_empty.
Qed.

Example gather_under_12 :
  run (gather_candidates (E:=demo_env) "under 12" (Parsed [] (Some 12) None)) demo_world
  = Some demo_search.
Proof. vm_compute. reflexivity. Qed.

(** C1, witness: in the example world the run on ["under 12"] returns, and
    what it returns is short and has titles and urls. *)
Lemma recommend_anime_at_most_10_witness :
  ∃ out w',
    recommend_anime (E:=demo_env) "under 12" demo_world = Returned out w'
    ∧ (length out ≤ 10)%nat
    ∧ Forall (fun it => item_title it ≠ EmptyString ∧ item_url it ≠ EmptyString) out.
Proof.
  destruct (recommend_anime_at_most_10_from_candidates (E:=demo_env) "under 12" demo_world)
    as [Hreturns Hprops].
  pose proof (Hreturns demo_env_responsive demo_env_averages demo_env_codec
                demo_world_cache_usable) as Hret.
  rewrite parse_under_12_only in Hret. destruct Hret as (out & w' & Hrun).
  exists out, w'. split; [exact Hrun|].
  destruct (Hprops out w' Hrun) as (Hlen & p & candidates & w1 & Hp & Hg & _ & Hne).
  split; [exact Hlen|]. apply Hne.
  rewrite parse_under_12_only in Hp. injection Hp as <-.
  destruct (proj1 (run_Some _ _ _) gather_under_12) as [w2 Hc].
  rewrite Hg in Hc. injection Hc as -> _.
  repeat constructor; discriminate.
Defined.

(** C1, counterexample: the catalog answers the search ["untitled"] with a
    record whose title and url are empty, and [recommend_anime] returns it. *)
Lemma recommend_anime_returns_empty_title :
  ∃ out it,
    run (recommend_anime (E:=demo_env) "untitled") demo_world = Some out
    ∧ it ∈ out ∧ item_title it = EmptyString ∧ item_url it = EmptyString.
Proof.
  exists [Item EmptyString EmptyString], (Item EmptyString EmptyString).
  split; [vm_compute; reflexivity|]. split; [by left|done].
Qed.


(** C4, witness: ["under 12"] sets the ceiling 12. *)
Lemma max_episodes_bounds_result_witness :
  parse_user_request (E:=demo_env) "under 12" = inr (Parsed [] (Some 12) None)
  ∧ ∃ out w',
      recommend_anime (E:=demo_env) "under 12" demo_world = Returned out w'
      ∧ ∀ it, it ∈ out →
          ∃ a, it = to_item a ∧ ∃ e, episodes a = Some e ∧ e ≤ 12.
Proof.
  split; [exact parse_under_12_only|].
  destruct (proj1 (run_Some _ _ _) recommend_under_12) as [w' Hrun].
  eexists _, w'. split; [exact Hrun|].
  destruct (max_episodes_bounds_result (E:=demo_env) "under 12" _ 12
              parse_under_12_only eq_refl) as (_ & _ & Hres).
  destruct (Hres _ _ _ Hrun) as (candidates & w1 & _ & Hitems).
  intros it Hit. destruct (Hitems it Hit) as (a & _ & Ha & He). eauto.
Defined.

(** C5, witness: ["hidden gem under 12"] asks for hidden gems. *)
Lemma hidden_gem_bounds_result_witness :
  parse_user_request (E:=demo_env) "hidden gem under 12"
  = inr (Parsed [] (Some 12) (Some HiddenGem))
  ∧ ∃ out w',
      recommend_anime (E:=demo_env) "hidden gem under 12" demo_world = Returned out w'
      ∧ ∀ it, it ∈ out →
          ∃ a, it = to_item a ∧ ∃ s, score a = Some s ∧ (s < 7)%Q.
Proof.
  split; [exact parse_hidden_gem_under_12|].
  destruct (proj1 (run_Some _ _ _) recommend_hidden_gem_under_12) as [w' Hrun].
  eexists _, w'. split; [exact Hrun|].
  destruct (hidden_gem_bounds_result (E:=demo_env) "hidden gem under 12" _
              parse_hidden_gem_under_12 eq_refl) as (_ & _ & Hres).
  destruct (Hres _ _ _ Hrun) as (candidates & w1 & _ & Hitems).
  intros it Hit. destruct (Hitems it Hit) as (a & _ & Ha & Hs). eauto.
Defined.

(** C3, counterexample: the query of one space is a non-empty string and
    the parser finds no genre in it, yet no search is sent: the candidates
    are the top listing, where the chain that tests the query for
    emptiness alone would return the search result. *)
Lemma blank_query_skips_search :
  PyStr.truthy " " = true
  ∧ parse_user_request (E:=demo_env) " " = inr (Parsed [] None None)
  ∧ run (gather_candidates (E:=demo_env) " " (Parsed [] None None))
        demo_world = Some (demo_top 1 ++ demo_top 2)
  ∧ requests_sent (gather_candidates (E:=demo_env) " " (Parsed [] None None))
        demo_world = [GetTopAnime 1; GetTopAnime 2]
  ∧ run (fallback_chain (E:=demo_env) PyStr.truthy " " (Parsed [] None None))
        demo_world = Some demo_search.
Proof. repeat split; vm_compute; reflexivity. Qed.


(** C8, counterexample: the cache file exists and holds a truncated text;
    the load raises instead of returning the empty mapping. *)
Lemma load_cache_truncated_file_raises :
  files (w_fs broken_cache_world) !! CACHE_PATH = Some "{"
  ∧ @json_load demo_env "{" = None
  ∧ _load_cache (E:=demo_env) CACHE_PATH broken_cache_world = Raised JSONDecodeError.
Proof. repeat split; vm_compute; reflexivity. Qed.

(** C8, witness: no file, the empty mapping. *)
Lemma load_cache_absent_witness :
  _load_cache (E:=demo_env) CACHE_PATH demo_world = Returned ∅ demo_world.
Proof.
  destruct (load_cache_absent_or_unparsable (E:=demo_env) CACHE_PATH demo_world) as [Habsent _].
  apply Habsent. vm_compute. reflexivity.
Defined.



(** C6, witness: the default recommendations of the example catalog. *)
Lemma ranking_witness :
  ∃ out w' data w1 top,
    get_default_recs (E:=demo_env) demo_world = Returned out w'
    ∧ fetch_top_anime (E:=demo_env) 2 demo_world = Returned data w1
    ∧ ranked data w1 top ∧ out = to_item <$> top.
Proof.
  destruct default_recs_ten as (out & Hrun & _).
  apply run_Some in Hrun as [w' Hrun].
  destruct (ranking_shuffled_then_sorted_descending (E:=demo_env))
    as (_ & _ & _ & _ & _ & Hdef).
  destruct (Hdef _ _ _ Hrun) as (data & w1 & top & Hf & Hr & Ho).
  exists out, w', data, w1, top. exact (conj Hrun (conj Hf (conj Hr Ho))).
Defined.

(** ** The further properties at work *)

Example genre_key_22_2 : genre_key 22 2 = "genre_22_p2".
Proof. vm_compute. reflexivity. Qed.

(** X3, witness: the romance listing is in the cache file. *)
Lemma fetch_by_genre_cache_hit_witness :
  fetch_by_genre (E:=romance_env) 22 2 romance_cached_world
  = Returned demo_romance romance_cached_world.
Proof.
  apply (fetch_by_genre_cache_hit (E:=romance_env) 22 2 romance_cached_world
           romance_cache_text romance_cache demo_romance);
    vm_compute; reflexivity.
Defined.

(** X4, witness: the first fetch of the romance listing in a fresh world
    sends two requests, the second is served from the cache. *)
Lemma fetch_by_genre_read_through_witness :
  ∃ w1,
    fetch_by_genre (E:=romance_env) 22 2 demo_world = Returned demo_romance w1
    ∧ w_log w1 = [GetAnimeByGenre 22 1; GetAnimeByGenre 22 2]
    ∧ fetch_by_genre (E:=romance_env) 22 2 w1 = Returned demo_romance w1.
Proof.
  destruct (fetch_by_genre_read_through (E:=romance_env) 22 2 demo_world ∅ demo_romance)
    as (w1 & Hfirst & Hlog & Hsecond & _).
  - vm_compute. reflexivity.
  - apply not_elem_of_empty.
  - vm_compute. reflexivity.
  - apply lookup_empty.
  - vm_compute. reflexivity.
  - vm_compute. reflexivity.
  - exists w1. split; [exact Hfirst|]. split; [exact Hlog|exact Hsecond].
Defined.

Example mushishi_records :
  anilist_records [Media "Mushishi" "https://anilist.co/anime/457" (Some 85) (Some 26)]
  = inr [Anime "Mushishi" "https://anilist.co/anime/457" (Some 26) (float_div10 85)].
Proof. vm_compute. reflexivity. Qed.

Example mushishi_codec :
  @json_load demo_env (@json_dump demo_env
     (<[PyStr.lower "Mushishi" :=
          [Anime "Mushishi" "https://anilist.co/anime/457" (Some 26) (float_div10 85)]]> ∅))
  = Some (<[PyStr.lower "Mushishi" :=
          [Anime "Mushishi" "https://anilist.co/anime/457" (Some 26) (float_div10 85)]]> ∅).
Proof. vm_compute. reflexivity. Qed.

Example mushishi_lower : PyStr.lower "MUSHISHI" = PyStr.lower "Mushishi".
Proof. vm_compute. reflexivity. Qed.

(** X6, witness: ["Mushishi"] is fetched once; ["MUSHISHI"] with another
    page size is then served from the cache. *)
Lemma fetch_anilist_read_through_witness :
  ∃ w1 data,
    fetch_anilist (E:=demo_env) "Mushishi" 10 demo_world = Returned data w1
    ∧ w_log w1 = [PostAnilist "Mushishi" 10]
    ∧ fetch_anilist (E:=demo_env) "MUSHISHI" 5 w1 = Returned data w1.
Proof.
  destruct (fetch_anilist_read_through (E:=demo_env) "Mushishi" 10 demo_world ∅
              [Media "Mushishi" "https://anilist.co/anime/457" (Some 85) (Some 26)]
              [Anime "Mushishi" "https://anilist.co/anime/457" (Some 26) (float_div10 85)])
    as (w1 & Hfirst & Hlog & Hnext).
  - reflexivity.
  - apply not_elem_of_empty.
  - reflexivity.
  - apply lookup_empty.
  - reflexivity.
  - exact mushishi_records.
  - exact mushishi_codec.
  - exists w1. eexists. split; [exact Hfirst|]. split; [exact Hlog|].
    apply Hnext. exact mushishi_lower.
Defined.

(** X13, witness: for ["under 12"] as many items are returned as records
    are selected, up to ten. *)
Lemma recommend_anime_keeps_what_fits_witness :
  ∃ out w' p candidates w1,
    recommend_anime (E:=demo_env) "under 12" demo_world = Returned out w'
    ∧ parse_user_request (E:=demo_env) "under 12" = inr p
    ∧ gather_candidates (E:=demo_env) "under 12" p demo_world = Returned candidates w1
    ∧ length out = (10 `min` length (select p candidates))%nat.
Proof.
  destruct (proj1 (run_Some _ _ _) recommend_under_12) as [w' Hrun].
  destruct (recommend_anime_keeps_what_fits (E:=demo_env) _ _ _ _ Hrun)
    as (p & candidates & w1 & Hp & Hgather & _ & _ & Hlen & _).
  eexists _, w', p, candidates, w1.
  split; [exact Hrun|]. split; [exact Hp|]. split; [exact Hgather|exact Hlen].
Defined.

Example search_under_12 :
  nonblank "under 12" = true
  ∧ jikan_anime_search (env:=demo_env) "under 12" 1 = Some demo_search.
Proof. split; vm_compute; reflexivity. Qed.

(** X16, witness: ["under 12"] names no genre; the search is the only
    request of the run. *)
Lemma recommend_anime_without_genres_witness :
  ∃ out w',
    recommend_anime (E:=demo_env) "under 12" demo_world = Returned out w'
    ∧ w_log w' = [GetAnimeSearch "under 12" 1].
Proof.
  destruct search_under_12 as (Hnb & Hsearch).
  destruct (recommend_anime_without_genres (E:=demo_env) "under 12" _ demo_world
              parse_under_12_only eq_refl) as (_ & Hhit & _).
  destruct (Hhit Hnb demo_search Hsearch) as (out & w' & Hrun & _ & _ & Hlog);
    [discriminate|].
  exists out, w'. split; [exact Hrun|exact Hlog].
Defined.

Example recommend_romance :
  run (recommend_anime (E:=demo_env) "romance under 20") demo_world
  = Some [ Item "Kaguya-sama: Love is War" "https://myanimelist.net/anime/37999";
           Item "Toradora!" "https://myanimelist.net/anime/4224" ].
Proof. vm_compute. reflexivity. Qed.

(** X18, witness: ["romance under 20"] names the genre romance; the run
    sends the two pages of its listing and no search. *)
Lemma recommend_anime_genre_query_never_searches_witness :
  ∃ out w' rqs,
    recommend_anime (E:=demo_env) "romance under 20" demo_world = Returned out w'
    ∧ w_log w' = w_log demo_world ++ rqs
    ∧ Forall (genre_path_request [22] "romance under 20") rqs.
Proof.
  destruct (proj1 (run_Some _ _ _) recommend_romance) as [w' Hrun].
  destruct parse_romance_under_20 as [_ Hparse].
  destruct (recommend_anime_genre_query_never_searches (E:=demo_env) _ _ _ _ _
              Hparse ltac:(discriminate) Hrun) as (rqs & Hlog & Hrqs & _).
  eexists _, w', rqs. split; [exact Hrun|]. split; [exact Hlog|exact Hrqs].
Defined.

Example save_romance_cache :
  _save_cache (E:=romance_env) CACHE_PATH romance_cache demo_world
  = Returned tt romance_cached_world.
Proof. vm_compute. reflexivity. Qed.

Example romance_codec :
  @json_load romance_env (@json_dump romance_env romance_cache) = Some romance_cache.
Proof. vm_compute. reflexivity. Qed.

(** X17, witness: after the romance cache is saved, an empty mapping is
    saved for the secondary catalog; the romance cache still loads. *)
Lemma save_cache_twice_witness :
  ∃ w2,
    _save_cache (E:=romance_env) ANILIST_CACHE_PATH ∅ romance_cached_world = Returned tt w2
    ∧ _load_cache (E:=romance_env) CACHE_PATH w2 = Returned romance_cache w2.
Proof.
  destruct (save_cache_twice (E:=romance_env) CACHE_PATH ANILIST_CACHE_PATH romance_cache ∅
              demo_world romance_cached_world)
    as (w2 & Hsave & _ & _ & Hload).
  - left.
  - right. left.
  - apply not_elem_of_empty.
  - exact save_romance_cache.
  - exists w2. split; [exact Hsave|]. apply Hload; [discriminate|].
    exact romance_codec.
Defined.
